(** * UniMarket messaging: the server-side encryption pipeline, the
      authorization-gated message store gateway and the client
      reconciliation layer, embedded in Rocq.

    Part I holds the embedding, one module per source file or per
    runtime service the source files call into; Part II holds the
    lemmas and the theorems about it; Part III holds further properties
    of the code, among them those of the handlers, of the middleware and
    of the key generator, which Part II does not reach.

    Modelling conventions.
    - A JavaScript string is its sequence of UTF-16 code units
      ([jsstring]); [js "..."] writes an ASCII literal.
    - A Node [Buffer] is a [list byte].
    - [throw]/[try]/[catch] become the [Result] type; code that also reads
      or writes the process (environment, entropy source, database,
      clock) runs in the monad [M] over [World], whose state survives a
      throw, as the heap of a JavaScript process does.
    - A [Date] is its time value, milliseconds since the epoch, in [Z]. *)

From Stdlib Require Import String Ascii Strings.Byte.
From Stdlib Require Import ZArith List Lia Bool.
From Stdlib Require Import Sorted Permutation.
Import ListNotations.
Local Open Scope Z_scope.

(* ================================================================== *)
(** * Part I. The embedding                                            *)
(* ================================================================== *)

(** ** JavaScript values *)

Module JS.

(** A string is a sequence of 16-bit code units. *)
Definition jsstring := list Z.

Definition code_unit_of_ascii (a : ascii) : Z := Z.of_N (N_of_ascii a).

(** [js "abc"]: the string literal ['abc']. *)
Definition js (s : string) : jsstring :=
  map code_unit_of_ascii (list_ascii_of_string s).

(** [a === b] on strings. *)
Fixpoint str_eqb (a b : jsstring) : bool :=
  match a, b with
  | [], [] => true
  | x :: a', y :: b' => (x =? y) && str_eqb a' b'
  | _, _ => false
  end.

(** Truthiness of a string: [if (s)] holds for the non-empty ones. *)
Definition truthy (s : jsstring) : bool :=
  match s with [] => false | _ :: _ => true end.

(** Truthiness of an optional string field ([undefined] is falsy). *)
Definition truthy_opt (o : option jsstring) : bool :=
  match o with Some s => truthy s | None => false end.

Fixpoint starts_with (s pat : jsstring) : bool :=
  match pat, s with
  | [], _ => true
  | p :: pat', c :: s' => (c =? p) && starts_with s' pat'
  | _ :: _, [] => false
  end.

(** [s.includes(pat)]. *)
Fixpoint includes (s pat : jsstring) : bool :=
  starts_with s pat ||
  match s with
  | [] => false
  | _ :: s' => includes s' pat
  end.

(** [s.substring(0, n)] for [n >= 0]. *)
Definition substring0 (n : nat) (s : jsstring) : jsstring := firstn n s.

(** Decimal rendering of a non-negative integer, as in a template
    literal [`${n}`]. *)
Fixpoint digits (fuel : nat) (n : Z) (acc : jsstring) : jsstring :=
  match fuel with
  | O => acc
  | S fuel' =>
      let acc' := (48 + n mod 10) :: acc in
      if n <? 10 then acc' else digits fuel' (n / 10) acc'
  end.

Definition number_to_string (n : nat) : jsstring :=
  digits (S n) (Z.of_nat n) [].

Definition is_high_surrogate (c : Z) : bool := (0xD800 <=? c) && (c <=? 0xDBFF).
Definition is_low_surrogate (c : Z) : bool := (0xDC00 <=? c) && (c <=? 0xDFFF).
Definition is_code_unit (c : Z) : bool := (0 <=? c) && (c <? 0x10000).

(** [s.isWellFormed()]: no lone surrogate (and every element a 16-bit
    code unit, which the language guarantees). *)
Fixpoint isWellFormed (s : jsstring) : bool :=
  match s with
  | [] => true
  | c :: r =>
      if is_high_surrogate c then
        match r with
        | d :: r' => is_low_surrogate d && isWellFormed r'
        | [] => false
        end
      else is_code_unit c && negb (is_low_surrogate c) && isWellFormed r
  end.

(** What a [throw] carries.  The sources only ever inspect
    [error.message]. *)
Inductive Error : Type :=
| Error_new (message : jsstring)                   (* new Error(message), node:crypto errors *)
| TypeError (message : jsstring)                   (* raised by the runtime *)
| RequestError (number : Z) (message : jsstring).  (* mssql: an error raised by the store *)

Definition message (e : Error) : jsstring :=
  match e with
  | Error_new m => m
  | TypeError m => m
  | RequestError _ m => m
  end.

Inductive Result (A : Type) : Type :=
| Ok (a : A)
| Throw (e : Error).
Arguments Ok {A} a.
Arguments Throw {A} e.

Definition is_ok {A} (r : Result A) : bool :=
  match r with Ok _ => true | Throw _ => false end.

End JS.
Import JS.

(** ** Sorting by a numeric key

    [Array.prototype.sort((a, b) => key(a) - key(b))] is a stable
    ascending sort; [ORDER BY key ASC] is modelled by the same function
    (the store leaves the order of ties open, rows with equal keys are
    kept in table order here). *)

Module Sorting.

Section SortBy.
Context {A : Type} (key : A -> Z).

Fixpoint insert_by (x : A) (l : list A) : list A :=
  match l with
  | [] => [x]
  | y :: l' => if key x <=? key y then x :: l else y :: insert_by x l'
  end.

Definition sort_by (l : list A) : list A := fold_right insert_by [] l.

End SortBy.

End Sorting.
Import Sorting.

(** ** Node [Buffer]: bytes, base64 and UTF-8 *)

Module NodeBuffer.

Definition Buffer := list byte.

Definition byte_to_Z (b : byte) : Z := Z.of_N (Byte.to_N b).

Definition byte_of_Z (z : Z) : byte :=
  match Byte.of_N (Z.to_N (z mod 256)) with
  | Some b => b
  | None => x00
  end.

(** *** [buf.toString('base64')] (RFC 4648, with padding) *)

Definition base64_alphabet : jsstring :=
  js "ABCDEFGHIJKLMNOPQRSTUVWXYZabcdefghijklmnopqrstuvwxyz0123456789+/".

Definition base64_char (sextet : Z) : Z :=
  nth (Z.to_nat sextet) base64_alphabet 0.

Definition pad_char : Z := 61. (* '=' *)

Fixpoint base64_encode (bs : Buffer) : jsstring :=
  match bs with
  | [] => []
  | [a] =>
      let a := byte_to_Z a in
      [base64_char (a / 4); base64_char ((a mod 4) * 16); pad_char; pad_char]
  | [a; b] =>
      let a := byte_to_Z a in
      let b := byte_to_Z b in
      [base64_char (a / 4); base64_char ((a mod 4) * 16 + b / 16);
       base64_char ((b mod 16) * 4); pad_char]
  | a :: b :: c :: rest =>
      let a := byte_to_Z a in
      let b := byte_to_Z b in
      let c := byte_to_Z c in
      base64_char (a / 4) :: base64_char ((a mod 4) * 16 + b / 16)
        :: base64_char ((b mod 16) * 4 + c / 64) :: base64_char (c mod 64)
        :: base64_encode rest
  end.

(** *** [Buffer.from(s, 'base64')]

    Node's decoder is forgiving: it accepts the URL-safe alphabet as
    well, skips every character outside the alphabet (white space
    included), stops at the first ['='] and never throws.  It reads a
    string one byte per code unit, the low byte: a code unit above 255
    counts as the character of its low byte. *)

Definition unbase64 (c : Z) : option Z :=
  if (65 <=? c) && (c <=? 90) then Some (c - 65)        (* A-Z *)
  else if (97 <=? c) && (c <=? 122) then Some (c - 71)  (* a-z *)
  else if (48 <=? c) && (c <=? 57) then Some (c + 4)    (* 0-9 *)
  else if (c =? 43) || (c =? 45) then Some 62           (* + - *)
  else if (c =? 47) || (c =? 95) then Some 63           (* / _ *)
  else None.

Fixpoint base64_sextets (s : jsstring) : list Z :=
  match s with
  | [] => []
  | c :: r =>
      let b := c mod 256 in
      if b =? pad_char then []
      else match unbase64 b with
           | Some v => v :: base64_sextets r
           | None => base64_sextets r
           end
  end.

Fixpoint base64_pack (v : list Z) : Buffer :=
  match v with
  | s1 :: s2 :: s3 :: s4 :: r =>
      byte_of_Z (s1 * 4 + s2 / 16) :: byte_of_Z ((s2 mod 16) * 16 + s3 / 4)
        :: byte_of_Z ((s3 mod 4) * 64 + s4) :: base64_pack r
  | [s1; s2; s3] =>
      [byte_of_Z (s1 * 4 + s2 / 16); byte_of_Z ((s2 mod 16) * 16 + s3 / 4)]
  | [s1; s2] => [byte_of_Z (s1 * 4 + s2 / 16)]
  | _ => []
  end.

Definition base64_decode (s : jsstring) : Buffer :=
  base64_pack (base64_sextets s).

(** *** UTF-8

    Writing a string as ['utf8'] encodes each code point; a lone
    surrogate has no UTF-8 form and is written as U+FFFD. *)

Definition utf8_of_code_point (cp : Z) : Buffer :=
  if cp <? 0x80 then [byte_of_Z cp]
  else if cp <? 0x800 then
    [byte_of_Z (0xC0 + cp / 64); byte_of_Z (0x80 + cp mod 64)]
  else if cp <? 0x10000 then
    [byte_of_Z (0xE0 + cp / 4096); byte_of_Z (0x80 + (cp / 64) mod 64);
     byte_of_Z (0x80 + cp mod 64)]
  else
    [byte_of_Z (0xF0 + cp / 262144); byte_of_Z (0x80 + (cp / 4096) mod 64);
     byte_of_Z (0x80 + (cp / 64) mod 64); byte_of_Z (0x80 + cp mod 64)].

Definition REPLACEMENT : Z := 0xFFFD.

Definition code_point_of_pair (hi lo : Z) : Z :=
  0x10000 + (hi - 0xD800) * 1024 + (lo - 0xDC00).

(** [Buffer.from(s, 'utf8')]. *)
Fixpoint utf8_encode (s : jsstring) : Buffer :=
  match s with
  | [] => []
  | c :: r =>
      if is_high_surrogate c then
        match r with
        | d :: r' =>
            if is_low_surrogate d
            then utf8_of_code_point (code_point_of_pair c d) ++ utf8_encode r'
            else utf8_of_code_point REPLACEMENT ++ utf8_encode r
        | [] => utf8_of_code_point REPLACEMENT
        end
      else if is_low_surrogate c then utf8_of_code_point REPLACEMENT ++ utf8_encode r
      else utf8_of_code_point c ++ utf8_encode r
  end.

(** A Unicode scalar value: a code point that is no surrogate. *)
Definition scalar_value (cp : Z) : Prop :=
  0 <= cp < 0xD800 \/ 0xE000 <= cp < 0x110000.

Definition utf16_of_code_point (cp : Z) : jsstring :=
  if cp <? 0x10000 then [cp]
  else [0xD800 + (cp - 0x10000) / 1024; 0xDC00 + (cp - 0x10000) mod 1024].

Definition between (lo hi x : Z) : bool := (lo <=? x) && (x <=? hi).

(** Allowed range of the byte after a three- or four-byte lead. *)
Definition second_lo (lead : Z) : Z :=
  if lead =? 0xE0 then 0xA0 else if lead =? 0xF0 then 0x90 else 0x80.
Definition second_hi (lead : Z) : Z :=
  if lead =? 0xED then 0x9F else if lead =? 0xF4 then 0x8F else 0xBF.

(** [buf.toString('utf8')]: the WHATWG decoder; every maximal
    ill-formed subsequence becomes one U+FFFD. *)
Fixpoint utf8_decode (bs : Buffer) : jsstring :=
  match bs with
  | [] => []
  | b0 :: r0 =>
      let x0 := byte_to_Z b0 in
      if x0 <? 0x80 then x0 :: utf8_decode r0
      else if between 0xC2 0xDF x0 then
        match r0 with
        | [] => [REPLACEMENT]
        | b1 :: r1 =>
            let x1 := byte_to_Z b1 in
            if between 0x80 0xBF x1
            then ((x0 - 0xC0) * 64 + (x1 - 0x80)) :: utf8_decode r1
            else REPLACEMENT :: utf8_decode r0
        end
      else if between 0xE0 0xEF x0 then
        match r0 with
        | [] => [REPLACEMENT]
        | b1 :: r1 =>
            let x1 := byte_to_Z b1 in
            if between (second_lo x0) (second_hi x0) x1 then
              match r1 with
              | [] => [REPLACEMENT]
              | b2 :: r2 =>
                  let x2 := byte_to_Z b2 in
                  if between 0x80 0xBF x2
                  then ((x0 - 0xE0) * 4096 + (x1 - 0x80) * 64 + (x2 - 0x80))
                         :: utf8_decode r2
                  else REPLACEMENT :: utf8_decode r1
              end
            else REPLACEMENT :: utf8_decode r0
        end
      else if between 0xF0 0xF4 x0 then
        match r0 with
        | [] => [REPLACEMENT]
        | b1 :: r1 =>
            let x1 := byte_to_Z b1 in
            if between (second_lo x0) (second_hi x0) x1 then
              match r1 with
              | [] => [REPLACEMENT]
              | b2 :: r2 =>
                  let x2 := byte_to_Z b2 in
                  if between 0x80 0xBF x2 then
                    match r2 with
                    | [] => [REPLACEMENT]
                    | b3 :: r3 =>
                        let x3 := byte_to_Z b3 in
                        if between 0x80 0xBF x3
                        then utf16_of_code_point
                               ((x0 - 0xF0) * 262144 + (x1 - 0x80) * 4096
                                + (x2 - 0x80) * 64 + (x3 - 0x80))
                               ++ utf8_decode r3
                        else REPLACEMENT :: utf8_decode r2
                    end
                  else REPLACEMENT :: utf8_decode r1
              end
            else REPLACEMENT :: utf8_decode r0
        end
      else REPLACEMENT :: utf8_decode r0
  end.

(** [buf.slice(0, -n)] and [buf.slice(-n)] for [n > 0]. *)
Definition slice_but_last (n : nat) (b : Buffer) : Buffer :=
  firstn (length b - n) b.
Definition slice_last (n : nat) (b : Buffer) : Buffer :=
  skipn (length b - n) b.

(** Bytewise XOR; the result has the length of the first argument. *)
Definition xor_byte (a b : byte) : byte :=
  byte_of_Z (Z.lxor (byte_to_Z a) (byte_to_Z b)).

Fixpoint xor_bytes (x ks : Buffer) : Buffer :=
  match x with
  | [] => []
  | b :: x' => xor_byte b (hd x00 ks) :: xor_bytes x' (tl ks)
  end.

(** Cut a list into consecutive pieces of [n] elements (the last one
    may be shorter). *)
Fixpoint chunks_fuel {A : Type} (fuel n : nat) (l : list A) : list (list A) :=
  match fuel with
  | O => []
  | S fuel' =>
      match l with
      | [] => []
      | _ :: _ => firstn n l :: chunks_fuel fuel' n (skipn n l)
      end
  end.

Definition chunks {A : Type} (n : nat) (l : list A) : list (list A) :=
  chunks_fuel (length l) n l.

(** Big-endian integers. *)
Definition Z_of_bytes (bs : Buffer) : Z :=
  fold_left (fun acc b => acc * 256 + byte_to_Z b) bs 0.

Definition bytes_of_Z (n : nat) (z : Z) : Buffer :=
  map (fun i => byte_of_Z (Z.shiftr z (8 * Z.of_nat (n - 1 - i)))) (seq 0 n).

End NodeBuffer.
Import NodeBuffer.

(** ** [node:crypto] hashes: SHA-256 (FIPS 180-4) and HMAC (RFC 2104)

    [crypto.createHash('sha256')] and [crypto.createHmac('sha256', key)];
    [update(s)] with a string hashes its UTF-8 encoding. *)

Module Sha256.

Definition mask32 : Z := 0xFFFFFFFF.
Definition add32 (x y : Z) : Z := Z.land (x + y) mask32.
Definition rotr (n x : Z) : Z :=
  Z.lor (Z.shiftr x n) (Z.land (Z.shiftl x (32 - n)) mask32).
Definition shr (n x : Z) : Z := Z.shiftr x n.

Definition Ch (x y z : Z) : Z :=
  Z.lxor (Z.land x y) (Z.land (Z.lxor x mask32) z).
Definition Maj (x y z : Z) : Z :=
  Z.lxor (Z.lxor (Z.land x y) (Z.land x z)) (Z.land y z).
Definition Sigma0 (x : Z) : Z := Z.lxor (Z.lxor (rotr 2 x) (rotr 13 x)) (rotr 22 x).
Definition Sigma1 (x : Z) : Z := Z.lxor (Z.lxor (rotr 6 x) (rotr 11 x)) (rotr 25 x).
Definition sigma0 (x : Z) : Z := Z.lxor (Z.lxor (rotr 7 x) (rotr 18 x)) (shr 3 x).
Definition sigma1 (x : Z) : Z := Z.lxor (Z.lxor (rotr 17 x) (rotr 19 x)) (shr 10 x).

(** The round constants are the first 32 bits of the fractional parts
    of the cube roots of the first 64 primes, the initial hash value
    those of the square roots of the first 8. *)
Definition is_prime (n : Z) : bool :=
  forallb (fun d => negb (n mod d =? 0)) (map Z.of_nat (seq 2 (Z.to_nat n - 2))).

Definition primes : list Z := filter is_prime (map Z.of_nat (seq 2 310)).

Fixpoint cube_root_bits (bits : nat) (n r : Z) : Z :=
  match bits with
  | O => r
  | S b =>
      let c := r + 2 ^ Z.of_nat b in
      cube_root_bits b n (if c * c * c <=? n then c else r)
  end.

Definition cube_root (n : Z) : Z := cube_root_bits 40 n 0.

Definition K : list Z :=
  Eval vm_compute in map (fun p => Z.land (cube_root (p * 2 ^ 96)) mask32) primes.

Definition state : Type := Z * Z * Z * Z * Z * Z * Z * Z.

Definition frac_sqrt (p : Z) : Z := Z.land (Z.sqrt (p * 2 ^ 64)) mask32.

Definition H0 : state :=
  Eval vm_compute in
    (frac_sqrt 2, frac_sqrt 3, frac_sqrt 5, frac_sqrt 7,
     frac_sqrt 11, frac_sqrt 13, frac_sqrt 17, frac_sqrt 19).

Definition bytes_of_word (w : Z) : Buffer :=
  [byte_of_Z (Z.shiftr w 24); byte_of_Z (Z.shiftr w 16);
   byte_of_Z (Z.shiftr w 8); byte_of_Z w].

Fixpoint words_of_bytes (bs : Buffer) : list Z :=
  match bs with
  | b0 :: b1 :: b2 :: b3 :: r =>
      (((byte_to_Z b0 * 256 + byte_to_Z b1) * 256 + byte_to_Z b2) * 256 + byte_to_Z b3)
        :: words_of_bytes r
  | _ => []
  end.

(** Padding: a 1 bit, zeros up to 56 mod 64 bytes, the bit length on
    64 bits. *)
Definition pad (msg : Buffer) : Buffer :=
  let l := Z.of_nat (length msg) in
  msg ++ x80 :: repeat x00 (Z.to_nat ((55 - l) mod 64))
      ++ bytes_of_word (Z.shiftr (l * 8) 32) ++ bytes_of_word (l * 8).

(** Message schedule: [w] holds W_0 .. W_(t-1); append [n] more words. *)
Fixpoint extend (n : nat) (w : list Z) : list Z :=
  match n with
  | O => w
  | S n' =>
      let t := length w in
      let wt :=
        add32 (add32 (sigma1 (nth (t - 2) w 0)) (nth (t - 7) w 0))
              (add32 (sigma0 (nth (t - 15) w 0)) (nth (t - 16) w 0)) in
      extend n' (w ++ [wt])
  end.

Definition round (s : state) (kw : Z * Z) : state :=
  let '(a, b, c, d, e, f, g, h) := s in
  let '(k, w) := kw in
  let T1 := add32 (add32 (add32 h (Sigma1 e)) (add32 (Ch e f g) k)) w in
  let T2 := add32 (Sigma0 a) (Maj a b c) in
  (add32 T1 T2, a, b, c, add32 d T1, e, f, g).

Definition compress (H : state) (block : list Z) : state :=
  let '(a, b, c, d, e, f, g, h) := fold_left round (combine K (extend 48 block)) H in
  let '(a0, b0, c0, d0, e0, f0, g0, h0) := H in
  (add32 a0 a, add32 b0 b, add32 c0 c, add32 d0 d,
   add32 e0 e, add32 f0 f, add32 g0 g, add32 h0 h).

Definition digest_of_state (s : state) : Buffer :=
  let '(a, b, c, d, e, f, g, h) := s in
  bytes_of_word a ++ bytes_of_word b ++ bytes_of_word c ++ bytes_of_word d
    ++ bytes_of_word e ++ bytes_of_word f ++ bytes_of_word g ++ bytes_of_word h.

Definition sha256 (msg : Buffer) : Buffer :=
  let words := words_of_bytes (pad msg) in
  digest_of_state (fold_left compress (chunks 16 words) H0).

Definition xor_pad (p : Z) (k : Buffer) : Buffer :=
  map (fun b => byte_of_Z (Z.lxor (byte_to_Z b) p)) k.

Definition hmac_sha256 (key msg : Buffer) : Buffer :=
  let k0 := if (64 <? length key)%nat then sha256 key else key in
  let k := k0 ++ repeat x00 (64 - length k0) in
  sha256 (xor_pad 0x5c k ++ sha256 (xor_pad 0x36 k ++ msg)).

End Sha256.

(** ** AES-256 (FIPS 197), the forward cipher *)

Module Aes256.

(** Arithmetic of GF(2^8) modulo x^8 + x^4 + x^3 + x + 1. *)
Definition xtime (x : Z) : Z :=
  Z.lxor (Z.land (Z.shiftl x 1) 0xFF) (if Z.testbit x 7 then 0x1B else 0).

Fixpoint gmul_bits (n : nat) (a b : Z) : Z :=
  match n with
  | O => 0
  | S n' => Z.lxor (if Z.odd b then a else 0) (gmul_bits n' (xtime a) (Z.shiftr b 1))
  end.

Definition gmul (a b : Z) : Z := gmul_bits 8 a b.

Fixpoint gpow (n : nat) (x : Z) : Z :=
  match n with
  | O => 1
  | S n' => gmul x (gpow n' x)
  end.

Definition rotl8 (x n : Z) : Z :=
  Z.land (Z.lor (Z.shiftl x n) (Z.shiftr x (8 - n))) 0xFF.

(** The S-box: multiplicative inverse followed by the affine map. *)
Definition sbox_of (x : Z) : Z :=
  let b := gpow 254 x in
  Z.lxor (Z.lxor (Z.lxor (Z.lxor (Z.lxor b (rotl8 b 1)) (rotl8 b 2)) (rotl8 b 3)) (rotl8 b 4)) 0x63.

Definition SBOX : list Z :=
  Eval vm_compute in map (fun i => sbox_of (Z.of_nat i)) (seq 0 256).

Definition sub_byte (x : Z) : Z := nth (Z.to_nat x) SBOX 0.

Fixpoint zip_xor (a b : list Z) : list Z :=
  match a, b with
  | x :: a', y :: b' => Z.lxor x y :: zip_xor a' b'
  | _, _ => []
  end.

Definition rot_word (w : list Z) : list Z :=
  match w with
  | [a; b; c; d] => [b; c; d; a]
  | _ => w
  end.

Definition sub_word (w : list Z) : list Z := map sub_byte w.

Definition rcon (i : nat) : list Z := [Nat.iter (i - 1) xtime 1; 0; 0; 0].

(** Key expansion for Nk = 8: [w] holds the words 0 .. i-1; append [n]
    more. *)
Fixpoint expand (n : nat) (w : list (list Z)) : list (list Z) :=
  match n with
  | O => w
  | S n' =>
      let i := length w in
      let prev := nth (i - 1) w [] in
      let temp :=
        if (i mod 8 =? 0)%nat then zip_xor (sub_word (rot_word prev)) (rcon (i / 8))
        else if (i mod 8 =? 4)%nat then sub_word prev
        else prev in
      expand n' (w ++ [zip_xor (nth (i - 8) w []) temp])
  end.

Definition key_schedule (key : list Z) : list (list Z) :=
  expand 52 (chunks 4 key).

Definition round_key (w : list (list Z)) (r : nat) : list Z :=
  concat (firstn 4 (skipn (4 * r) w)).

(** The state is kept in input order: byte [r + 4c] is row [r],
    column [c]. *)
Definition sub_bytes (s : list Z) : list Z := map sub_byte s.

Definition shift_rows (s : list Z) : list Z :=
  map (fun i => nth (i mod 4 + 4 * ((i / 4 + i mod 4) mod 4))%nat s 0) (seq 0 16).

Definition mix_column (col : list Z) : list Z :=
  match col with
  | [a0; a1; a2; a3] =>
      [Z.lxor (Z.lxor (gmul 2 a0) (gmul 3 a1)) (Z.lxor a2 a3);
       Z.lxor (Z.lxor a0 (gmul 2 a1)) (Z.lxor (gmul 3 a2) a3);
       Z.lxor (Z.lxor a0 a1) (Z.lxor (gmul 2 a2) (gmul 3 a3));
       Z.lxor (Z.lxor (gmul 3 a0) a1) (Z.lxor a2 (gmul 2 a3))]
  | _ => col
  end.

Definition mix_columns (s : list Z) : list Z :=
  concat (map mix_column (chunks 4 s)).

Definition full_round (w : list (list Z)) (s : list Z) (r : nat) : list Z :=
  zip_xor (mix_columns (shift_rows (sub_bytes s))) (round_key w r).

Definition cipher (key block : list Z) : list Z :=
  let w := key_schedule key in
  let s := fold_left (full_round w) (seq 1 13) (zip_xor block (round_key w 0)) in
  zip_xor (shift_rows (sub_bytes s)) (round_key w 14).

Definition encrypt_block (key block : Buffer) : Buffer :=
  map byte_of_Z (cipher (map byte_to_Z key) (map byte_to_Z block)).

End Aes256.

(** ** Galois/Counter Mode (NIST SP 800-38D) over AES-256, no
       additional authenticated data *)

Module Gcm.

(** Multiplication in GF(2^128); a block is read as a big-endian
    integer, so the leftmost bit of the standard is bit 127. *)
Definition R : Z := Z.shiftl 0xE1 120.

Fixpoint gf_mul_bits (n : nat) (x v z : Z) : Z :=
  match n with
  | O => z
  | S n' =>
      let z' := if Z.testbit x (Z.of_nat n') then Z.lxor z v else z in
      let v' := if Z.odd v then Z.lxor (Z.shiftr v 1) R else Z.shiftr v 1 in
      gf_mul_bits n' x v' z'
  end.

Definition gf_mul (x y : Z) : Z := gf_mul_bits 128 x y 0.

Definition pad16 (bs : Buffer) : Buffer :=
  bs ++ repeat x00 ((16 - length bs mod 16) mod 16).

Definition ghash (h : Z) (data : Buffer) : Z :=
  fold_left (fun y blk => gf_mul (Z.lxor y (Z_of_bytes blk)) h) (chunks 16 data) 0.

Definition bit_length (bs : Buffer) : Z := 8 * Z.of_nat (length bs).

Definition hash_subkey (key : Buffer) : Z :=
  Z_of_bytes (Aes256.encrypt_block key (repeat x00 16)).

(** The pre-counter block J0. *)
Definition j0 (h : Z) (iv : Buffer) : Buffer :=
  if (length iv =? 12)%nat then iv ++ [x00; x00; x00; x01]
  else bytes_of_Z 16
         (ghash h (pad16 iv ++ bytes_of_Z 8 0 ++ bytes_of_Z 8 (bit_length iv))).

(** [inc32] applied [i] times. *)
Definition inc32 (blk : Buffer) (i : nat) : Buffer :=
  firstn 12 blk ++ bytes_of_Z 4 (Z_of_bytes (skipn 12 blk) + Z.of_nat i).

Definition keystream (key icb : Buffer) (n : nat) : Buffer :=
  firstn n (concat (map (fun i => Aes256.encrypt_block key (inc32 icb i))
                        (seq 0 ((n + 15) / 16)))).

Definition gctr (key icb x : Buffer) : Buffer :=
  xor_bytes x (keystream key icb (length x)).

(** The full 16-byte tag of a ciphertext. *)
Definition tag_of (key iv c : Buffer) : Buffer :=
  let h := hash_subkey key in
  let s := ghash h (pad16 c ++ bytes_of_Z 8 0 ++ bytes_of_Z 8 (bit_length c)) in
  xor_bytes (bytes_of_Z 16 s) (Aes256.encrypt_block key (j0 h iv)).

Definition encrypt (key iv p : Buffer) : Buffer * Buffer :=
  let c := gctr key (inc32 (j0 (hash_subkey key) iv) 1) p in
  (c, tag_of key iv c).

Fixpoint bytes_eqb (a b : Buffer) : bool :=
  match a, b with
  | [], [] => true
  | x :: a', y :: b' => Byte.eqb x y && bytes_eqb a' b'
  | _, _ => false
  end.

(** Decryption checks the tag, of which the caller may hold a prefix
    only, before it releases the plaintext. *)
Definition decrypt (key iv c tag : Buffer) : option Buffer :=
  if bytes_eqb (firstn (length tag) (tag_of key iv c)) tag
  then Some (gctr key (inc32 (j0 (hash_subkey key) iv) 1) c)
  else None.

End Gcm.

(** ** The relational store (database/schema.sql)

    Only the columns the modelled statements read or write.  String
    comparison in the store is exact (a binary collation). *)

Module Schema.

Record UserRow := {
  U_Id : jsstring;
  U_DisplayName : option jsstring;
  U_AvatarUrl : option jsstring
}.

Record ConversationRow := {
  C_Id : jsstring;
  C_UpdatedAt : Z;
  C_LastMessageId : option jsstring;
  C_LastMessageAt : option Z
}.

Record ParticipantRow := {
  P_ConversationId : jsstring;
  P_UserId : jsstring;
  P_LeftAt : option Z          (* NULL: still an active participant *)
}.

Record MessageRow := {
  M_Id : jsstring;
  M_ConversationId : jsstring;
  M_SenderId : jsstring;
  M_Ciphertext : jsstring;
  M_IV : jsstring;
  M_CreatedAt : Z;
  M_EditedAt : option Z;
  M_DeletedAt : option Z;
  M_ReplyToMessageId : option jsstring
}.

Record Database := {
  Users : list UserRow;
  Conversations : list ConversationRow;
  ConversationParticipants : list ParticipantRow;
  Messages : list MessageRow
}.

Definition is_null {A} (o : option A) : bool :=
  match o with None => true | Some _ => false end.

(** FK_ConversationParticipants_Conversation and
    FK_ConversationParticipants_User: every participant row names a
    conversation and a user that exist. *)
Definition foreign_keys_hold (d : Database) : bool :=
  forallb (fun p =>
             existsb (fun c => str_eqb (C_Id c) (P_ConversationId p)) (Conversations d)
             && existsb (fun u => str_eqb (U_Id u) (P_UserId p)) (Users d))
          (ConversationParticipants d).

End Schema.
Import Schema.

(** ** The process: environment, entropy, clock, store, and a ghost
       trace of the operations performed *)

Module Runtime.

Inductive Event : Type :=
| EvDeriveKey (conversationId : jsstring)            (* keyService.getConversationKey *)
| EvEncrypt (plaintext : jsstring)                   (* encryptMessage *)
| EvAuthCheck (conversationId userId : jsstring) (authorized : bool).
                                                     (* the participant lookup *)

Record World := {
  env : string -> option jsstring;   (* process.env *)
  entropy : nat -> byte;             (* the bytes crypto.randomBytes will hand out *)
  entropy_pos : nat;
  now : Z;                           (* the store's clock, GETUTCDATE() *)
  db : Database;
  trace : list Event
}.

Definition M (A : Type) : Type := World -> Result A * World.

Definition ret {A} (a : A) : M A := fun w => (Ok a, w).

Definition bind {A B} (c : M A) (k : A -> M B) : M B :=
  fun w =>
    match c w with
    | (Ok a, w') => k a w'
    | (Throw e, w') => (Throw e, w')
    end.

Definition throw {A} (e : Error) : M A := fun w => (Throw e, w).

(** [try { c } catch (error) { handler(error) }] *)
Definition try_catch {A} (c : M A) (handler : Error -> M A) : M A :=
  fun w =>
    match c w with
    | (Ok a, w') => (Ok a, w')
    | (Throw e, w') => handler e w'
    end.

(** A call of a function that throws but has no other effect. *)
Definition lift {A} (r : Result A) : M A := fun w => (r, w).

Definition set_db (d : Database) (w : World) : World :=
  {| env := env w; entropy := entropy w; entropy_pos := entropy_pos w;
     now := now w; db := d; trace := trace w |}.

Definition add_event (ev : Event) (w : World) : World :=
  {| env := env w; entropy := entropy w; entropy_pos := entropy_pos w;
     now := now w; db := db w; trace := trace w ++ [ev] |}.

Definition advance_entropy (n : nat) (w : World) : World :=
  {| env := env w; entropy := entropy w; entropy_pos := entropy_pos w + n;
     now := now w; db := db w; trace := trace w |}.

Definition get_db : M Database := fun w => (Ok (db w), w).

Definition put_db (d : Database) : M unit := fun w => (Ok tt, set_db d w).

Definition log (ev : Event) : M unit := fun w => (Ok tt, add_event ev w).

Definition getenv (name : string) : M (option jsstring) :=
  fun w => (Ok (env w name), w).

Definition GETUTCDATE : M Z := fun w => (Ok (now w), w).

(** [crypto.randomBytes(n)] *)
Definition randomBytes (n : nat) : M Buffer :=
  fun w => (Ok (map (entropy w) (seq (entropy_pos w) n)), advance_entropy n w).

End Runtime.
Import Runtime.

Declare Scope monad_scope.
Delimit Scope monad_scope with monad.
Notation "x <- c ;; k" := (bind c (fun x => k))
  (at level 61, c at next level, right associativity) : monad_scope.
Notation "c ;; k" := (bind c (fun _ => k))
  (at level 61, right associativity) : monad_scope.
Local Open Scope monad_scope.

(** ** [node:crypto]: the AES-256-GCM cipher objects

    [createCipheriv('aes-256-gcm', key, iv)], [update], [final] and
    [getAuthTag] taken together, and likewise [createDecipheriv],
    [setAuthTag], [update] and [final]. *)

Module NodeCrypto.

Definition invalid_key_length : Error := Error_new (js "Invalid key length").
Definition invalid_iv : Error := TypeError (js "Invalid initialization vector").
Definition invalid_auth_tag_length (n : nat) : Error :=
  TypeError (js "Invalid authentication tag length: " ++ number_to_string n).
Definition unable_to_authenticate : Error :=
  Error_new (js "Unsupported state or unable to authenticate data").

(** GCM takes an initialization vector of any length but zero. *)
Definition cipher_aes_256_gcm (key iv plaintext : Buffer) : Result (Buffer * Buffer) :=
  if negb (length key =? 32)%nat then Throw invalid_key_length
  else if (length iv =? 0)%nat then Throw invalid_iv
  else Ok (Gcm.encrypt key iv plaintext).

Definition valid_gcm_tag_length (n : nat) : bool :=
  (n =? 4)%nat || (n =? 8)%nat || ((12 <=? n)%nat && (n <=? 16)%nat).

Definition decipher_aes_256_gcm (key iv ciphertext authTag : Buffer) : Result Buffer :=
  if negb (length key =? 32)%nat then Throw invalid_key_length
  else if (length iv =? 0)%nat then Throw invalid_iv
  else if negb (valid_gcm_tag_length (length authTag))
  then Throw (invalid_auth_tag_length (length authTag))
  else match Gcm.decrypt key iv ciphertext authTag with
       | Some plaintext => Ok plaintext
       | None => Throw unable_to_authenticate
       end.

(** [crypto.randomUUID()]: a version 4 UUID from 16 random bytes. *)
Definition hex_digit (n : Z) : Z := nth (Z.to_nat n) (js "0123456789abcdef") 0.

Definition hex_of_bytes (bs : Buffer) : jsstring :=
  flat_map (fun b => [hex_digit (byte_to_Z b / 16); hex_digit (byte_to_Z b mod 16)]) bs.

Definition uuid_of_bytes (bs : Buffer) : jsstring :=
  let b6 := byte_of_Z (Z.lor (Z.land (byte_to_Z (nth 6 bs x00)) 0x0F) 0x40) in
  let b8 := byte_of_Z (Z.lor (Z.land (byte_to_Z (nth 8 bs x00)) 0x3F) 0x80) in
  hex_of_bytes (firstn 4 bs) ++ js "-"
    ++ hex_of_bytes (firstn 2 (skipn 4 bs)) ++ js "-"
    ++ hex_of_bytes (b6 :: firstn 1 (skipn 7 bs)) ++ js "-"
    ++ hex_of_bytes (b8 :: firstn 1 (skipn 9 bs)) ++ js "-"
    ++ hex_of_bytes (firstn 6 (skipn 10 bs)).

Definition randomUUID : M jsstring :=
  bs <- randomBytes 16 ;;
  ret (uuid_of_bytes bs).

End NodeCrypto.
Import NodeCrypto.

(** ** src/utils/encryption.ts *)

Module Encryption.

Definition KEY_LENGTH : nat := 32.
Definition IV_LENGTH : nat := 12.
Definition TAG_LENGTH : nat := 16.

(** [new Error(`Invalid key length. Expected ${KEY_LENGTH} bytes, got ${key.length}`)] *)
Definition InvalidKeyLength (got : nat) : Error :=
  Error_new (js "Invalid key length. Expected " ++ number_to_string KEY_LENGTH
               ++ js " bytes, got " ++ number_to_string got).

Record Encrypted := {
  ciphertext : jsstring;
  iv : jsstring
}.

Definition encryptMessage (plaintext keyBase64 : jsstring) : M Encrypted :=
  log (EvEncrypt plaintext) ;;
  let key := base64_decode keyBase64 in
  if negb (length key =? KEY_LENGTH)%nat then throw (InvalidKeyLength (length key))
  else
    iv <- randomBytes IV_LENGTH ;;
    out <- lift (cipher_aes_256_gcm key iv (utf8_encode plaintext)) ;;
    (* cipher.update(plaintext, 'utf8', 'base64') + cipher.final('base64') *)
    let ciphertext := base64_encode (fst out) in
    let authTag := snd out in
    let combined := base64_encode (base64_decode ciphertext ++ authTag) in
    ret {| ciphertext := combined; iv := base64_encode iv |}.

Definition decryptMessage (ciphertextBase64 ivBase64 keyBase64 : jsstring)
  : Result jsstring :=
  let key := base64_decode keyBase64 in
  let iv := base64_decode ivBase64 in
  if negb (length key =? KEY_LENGTH)%nat then Throw (InvalidKeyLength (length key))
  else
    let combined := base64_decode ciphertextBase64 in
    let ciphertext := slice_but_last TAG_LENGTH combined in
    let authTag := slice_last TAG_LENGTH combined in
    match decipher_aes_256_gcm key iv ciphertext authTag with
    | Ok plaintext => Ok (utf8_decode plaintext)
    | Throw e => Throw e
    end.

Definition deriveConversationKey (masterKey conversationId : jsstring) : jsstring :=
  base64_encode
    (Sha256.hmac_sha256 (base64_decode masterKey) (utf8_encode conversationId)).

End Encryption.
Import Encryption.

(** ** src/services/keyService.ts *)

Module KeyService.

Definition getConversationKey (conversationId : jsstring) : M jsstring :=
  log (EvDeriveKey conversationId) ;;
  masterKey <- getenv "MASTER_ENCRYPTION_KEY" ;;
  let fallback :=
    substring0 44
      (base64_encode
         (Sha256.sha256 (utf8_encode (js "conversation-key-" ++ conversationId)))) in
  match masterKey with
  | Some masterKey =>
      if truthy masterKey then ret (deriveConversationKey masterKey conversationId)
      else ret fallback
  | None => ret fallback
  end.

End KeyService.
Import KeyService.

(** ** src/types/index.ts *)

Module Types.

(** A message as the API returns it; timestamps are held as instants
    ([toISOString] renders them). *)
Record Message := {
  id : jsstring;
  conversationId : jsstring;
  senderId : jsstring;
  text : jsstring;
  createdAt : Z;
  editedAt : option Z;
  deletedAt : option Z;
  replyToMessageId : option jsstring;
  senderName : option jsstring;
  senderAvatar : option jsstring
}.

(** [createdAt] is held as the instant [new Date(payload.createdAt)]
    denotes, [None] when that is an Invalid Date. *)
Record CreateMessagePayload := {
  payload_conversationId : jsstring;
  payload_text : jsstring;
  payload_createdAt : option Z
}.

Record MessageQueryParams := {
  limit : option Z;
  offset : option Z;
  before : option jsstring;
  after : option jsstring
}.

Record PaginatedResponse := {
  data : list Message;
  total : Z;
  hasMore : bool
}.

End Types.
Import Types.

(** ** src/services/messageService.ts

    Each SQL statement of the source is a function of the database, named
    after what it selects or changes.  The store is taken to be reachable
    ([getDbPool] succeeds). *)

Module MessageService.

(** [x || d] on an optional number: [undefined] and [0] are falsy. *)
Definition number_or (x : option Z) (d : Z) : Z :=
  match x with
  | Some v => if v =? 0 then d else v
  | None => d
  end.

(** [s || null] on a nullable string column. *)
Definition string_or_null (x : option jsstring) : option jsstring :=
  match x with
  | Some s => if truthy s then Some s else None
  | None => None
  end.

(** SELECT CASE WHEN EXISTS (SELECT 1 FROM dbo.ConversationParticipants
    WHERE ConversationId = @ConversationId AND UserId = @UserId
    AND LeftAt IS NULL) THEN 1 ELSE 0 END *)
Definition is_active_participant (d : Database) (ConversationId UserId : jsstring) : bool :=
  existsb (fun p => str_eqb (P_ConversationId p) ConversationId
                    && str_eqb (P_UserId p) UserId
                    && is_null (P_LeftAt p))
          (ConversationParticipants d).

Definition isUserAuthorized (conversationId userId : jsstring) : M bool :=
  d <- get_db ;;
  let IsAuthorized := is_active_participant d conversationId userId in
  log (EvAuthCheck conversationId userId IsAuthorized) ;;
  ret IsAuthorized.

(** SELECT CreatedAt FROM dbo.Messages WHERE Id = @MessageId *)
Definition select_CreatedAt (d : Database) (MessageId : jsstring) : list Z :=
  map M_CreatedAt (filter (fun m => str_eqb (M_Id m) MessageId) (Messages d)).

Inductive Boundary : Type :=
| NoBoundary
| BeforeCreatedAt (t : Z)
| AfterCreatedAt (t : Z).

Definition within (b : Boundary) (CreatedAt : Z) : bool :=
  match b with
  | NoBoundary => true
  | BeforeCreatedAt t => CreatedAt <? t
  | AfterCreatedAt t => t <? CreatedAt
  end.

(** FROM dbo.Messages m INNER JOIN dbo.Users u ON m.SenderId = u.Id *)
Definition messages_join_users (d : Database) : list (MessageRow * UserRow) :=
  flat_map (fun m => map (pair m)
                         (filter (fun u => str_eqb (M_SenderId m) (U_Id u)) (Users d)))
           (Messages d).

(** ... WHERE m.ConversationId = @ConversationId AND m.DeletedAt IS NULL
    [AND m.CreatedAt < @BeforeCreatedAt | AND m.CreatedAt > @AfterCreatedAt]
    ORDER BY m.CreatedAt ASC *)
Definition visible_rows (d : Database) (ConversationId : jsstring) (b : Boundary)
  : list (MessageRow * UserRow) :=
  sort_by (fun r => M_CreatedAt (fst r))
    (filter (fun r => str_eqb (M_ConversationId (fst r)) ConversationId
                      && is_null (M_DeletedAt (fst r))
                      && within b (M_CreatedAt (fst r)))
            (messages_join_users d)).

Definition sql_int (v : Z) : bool := (-2147483648 <=? v) && (v <=? 2147483647).

Definition validation_failed (parameter reason : string) : Error :=
  RequestError 0 (js "Validation failed for parameter '" ++ js parameter ++ js "'. "
                    ++ js reason).

(** ... OFFSET @Offset ROWS FETCH NEXT @Limit ROWS ONLY, with both
    parameters bound as [sql.Int]: the driver refuses a value outside
    32 bits, the store a negative offset or a row count below one. *)
Definition select_page (d : Database) (ConversationId : jsstring) (b : Boundary)
    (Offset Limit : Z) : Result (list (MessageRow * UserRow)) :=
  if negb (sql_int Offset) then
    Throw (validation_failed "Offset"
             "Value must be between -2147483648 and 2147483647, inclusive.")
  else if negb (sql_int Limit) then
    Throw (validation_failed "Limit"
             "Value must be between -2147483648 and 2147483647, inclusive.")
  else if Offset <? 0 then
    Throw (RequestError 10742
             (js "The offset specified in a OFFSET clause may not be negative."))
  else if Limit <? 1 then
    Throw (RequestError 10744
             (js "The number of rows provided for a FETCH clause must be greater then zero."))
  else
    Ok (firstn (Z.to_nat Limit) (skipn (Z.to_nat Offset) (visible_rows d ConversationId b))).

(** SELECT COUNT( * ) AS Total FROM dbo.Messages
    WHERE ConversationId = @ConversationId AND DeletedAt IS NULL *)
Definition count_messages (d : Database) (ConversationId : jsstring) : Z :=
  Z.of_nat (length (filter (fun m => str_eqb (M_ConversationId m) ConversationId
                                     && is_null (M_DeletedAt m))
                           (Messages d))).

Definition COULD_NOT_DECRYPT : jsstring := js "[Could not decrypt message]".

(** The body of the [map] over the fetched rows, with its [try]/[catch]. *)
Definition decrypt_row (encryptionKey : jsstring) (row : MessageRow * UserRow) : Message :=
  let m := fst row in
  let u := snd row in
  let text :=
    match decryptMessage (M_Ciphertext m) (M_IV m) encryptionKey with
    | Ok text => text
    | Throw _ => COULD_NOT_DECRYPT
    end in
  {| id := M_Id m;
     conversationId := M_ConversationId m;
     senderId := M_SenderId m;
     text := text;
     createdAt := M_CreatedAt m;
     editedAt := M_EditedAt m;
     deletedAt := M_DeletedAt m;
     replyToMessageId := string_or_null (M_ReplyToMessageId m);
     senderName := string_or_null (U_DisplayName u);
     senderAvatar := string_or_null (U_AvatarUrl u) |}.

(** The timestamp boundary of a request: [before] wins over [after], and
    a message id that is not found sets no boundary. *)
Definition boundary_of (d : Database) (params : MessageQueryParams) : Boundary :=
  match before params, after params with
  | Some b, a =>
      if truthy b then
        match select_CreatedAt d b with
        | t :: _ => BeforeCreatedAt t
        | [] => NoBoundary
        end
      else
        match a with
        | Some a =>
            if truthy a then
              match select_CreatedAt d a with
              | t :: _ => AfterCreatedAt t
              | [] => NoBoundary
              end
            else NoBoundary
        | None => NoBoundary
        end
  | None, Some a =>
      if truthy a then
        match select_CreatedAt d a with
        | t :: _ => AfterCreatedAt t
        | [] => NoBoundary
        end
      else NoBoundary
  | None, None => NoBoundary
  end.

(** [error.message.includes('Not authorized')]: how the sources tell the
    NotAuthorized error from every other one. *)
Definition is_not_authorized (error : Error) : bool :=
  includes (message error) (js "Not authorized").

Definition NOT_AUTHORIZED_TO_VIEW : jsstring :=
  js "Not authorized to view this conversation".

Definition getMessages (conversationId userId : jsstring) (params : MessageQueryParams)
  : M PaginatedResponse :=
  let limit := Z.min (number_or (limit params) 50) 100 in
  let offset := number_or (offset params) 0 in
  isAuthorized <- isUserAuthorized conversationId userId ;;
  if negb isAuthorized then throw (Error_new NOT_AUTHORIZED_TO_VIEW)
  else
    d <- get_db ;;
    result <- lift (select_page d conversationId (boundary_of d params) offset limit) ;;
    let total := count_messages d conversationId in
    let hasMore := offset + Z.of_nat (length result) <? total in
    encryptionKey <- getConversationKey conversationId ;;
    let decryptedMessages := map (decrypt_row encryptionKey) result in
    ret {| data := decryptedMessages; total := total; hasMore := hasMore |}.

(** *** The batch of [createMessage] *)

Definition primary_key_violation (Id : jsstring) : Error :=
  RequestError 2627
    (js "Violation of PRIMARY KEY constraint. Cannot insert duplicate key in object "
       ++ js "'dbo.Messages'. The duplicate key value is (" ++ Id ++ js ").").

Definition foreign_key_violation (constraint : string) : Error :=
  RequestError 547
    (js "The INSERT statement conflicted with the FOREIGN KEY constraint "
       ++ js constraint ++ js ".").

(** INSERT INTO dbo.Messages (Id, ConversationId, SenderId, Ciphertext, IV,
    CreatedAt) VALUES (...), under the primary key and the foreign keys of
    the table. *)
Definition insert_message (row : MessageRow) (d : Database) : Result Database :=
  if existsb (fun m => str_eqb (M_Id m) (M_Id row)) (Messages d) then
    Throw (primary_key_violation (M_Id row))
  else if negb (existsb (fun c => str_eqb (C_Id c) (M_ConversationId row)) (Conversations d))
  then Throw (foreign_key_violation "FK_Messages_Conversation")
  else if negb (existsb (fun u => str_eqb (U_Id u) (M_SenderId row)) (Users d))
  then Throw (foreign_key_violation "FK_Messages_Sender")
  else
    Ok {| Users := Users d;
          Conversations := Conversations d;
          ConversationParticipants := ConversationParticipants d;
          Messages := Messages d ++ [row] |}.

(** UPDATE dbo.Conversations SET LastMessageId = @Id,
    LastMessageAt = @CreatedAt, UpdatedAt = GETUTCDATE()
    WHERE Id = @ConversationId *)
Definition update_conversation (ConversationId Id : jsstring) (CreatedAt utcnow : Z)
    (d : Database) : Database :=
  {| Users := Users d;
     Conversations :=
       map (fun c =>
              if str_eqb (C_Id c) ConversationId
              then {| C_Id := C_Id c;
                      C_UpdatedAt := utcnow;
                      C_LastMessageId := Some Id;
                      C_LastMessageAt := Some CreatedAt |}
              else c)
           (Conversations d);
     ConversationParticipants := ConversationParticipants d;
     Messages := Messages d |}.

Definition NOT_AUTHORIZED_TO_SEND : jsstring :=
  js "Not authorized to send messages to this conversation".

(** [sql.DateTime2]: the driver takes a date of the years 1 to 9999 (UTC)
    only, from 0001-01-01T00:00:00.000Z to 9999-12-31T23:59:59.999Z. *)
Definition datetime2_in_range (t : Z) : bool :=
  (-62135596800000 <=? t) && (t <=? 253402300799999).

(** The batch, from BEGIN TRANSACTION to COMMIT TRANSACTION.  An invalid
    date never reaches the store, nor does a date the column cannot
    hold: the driver refuses the parameter before it sends the batch.  The
    connection does not set XACT_ABORT, so a constraint violation ends the
    INSERT alone and the batch runs on; the request still fails with that
    error. *)
Definition send_batch (Id ConversationId SenderId Ciphertext IV : jsstring)
    (CreatedAt : option Z) : M unit :=
  match CreatedAt with
  | None => throw (validation_failed "CreatedAt" "Invalid date.")
  | Some CreatedAt =>
      if negb (datetime2_in_range CreatedAt) then
        throw (validation_failed "CreatedAt" "Out of range.")
      else
        d <- get_db ;;
        let IsAuthorized := is_active_participant d ConversationId SenderId in
        log (EvAuthCheck ConversationId SenderId IsAuthorized) ;;
        if negb IsAuthorized then
          (* ROLLBACK TRANSACTION; THROW 50000, <message>, 1 *)
          throw (RequestError 50000 NOT_AUTHORIZED_TO_SEND)
        else
          let row := {| M_Id := Id; M_ConversationId := ConversationId;
                        M_SenderId := SenderId; M_Ciphertext := Ciphertext;
                        M_IV := IV; M_CreatedAt := CreatedAt; M_EditedAt := None;
                        M_DeletedAt := None; M_ReplyToMessageId := None |} in
          utcnow <- GETUTCDATE ;;
          match insert_message row d with
          | Ok d' =>
              put_db (update_conversation ConversationId Id CreatedAt utcnow d')
          | Throw e =>
              put_db (update_conversation ConversationId Id CreatedAt utcnow d) ;;
              throw e
          end
  end.

(** SELECT m.Id, m.ConversationId, m.SenderId, m.CreatedAt, u.DisplayName,
    u.AvatarUrl FROM dbo.Messages m INNER JOIN dbo.Users u
    ON m.SenderId = u.Id WHERE m.Id = @Id *)
Definition select_created (d : Database) (Id : jsstring) : list (MessageRow * UserRow) :=
  filter (fun r => str_eqb (M_Id (fst r)) Id) (messages_join_users d).

Definition createMessage (messageId conversationId senderId : jsstring)
    (payload : CreateMessagePayload) : M Message :=
  encryptionKey <- getConversationKey conversationId ;;
  enc <- encryptMessage (payload_text payload) encryptionKey ;;
  try_catch
    (send_batch messageId conversationId senderId (ciphertext enc) (iv enc)
                (payload_createdAt payload) ;;
     d <- get_db ;;
     match select_created d messageId with
     | row :: _ =>
         ret {| id := M_Id (fst row);
                conversationId := M_ConversationId (fst row);
                senderId := M_SenderId (fst row);
                text := payload_text payload;
                createdAt := M_CreatedAt (fst row);
                editedAt := None;
                deletedAt := None;
                replyToMessageId := None;
                senderName := string_or_null (U_DisplayName (snd row));
                senderAvatar := string_or_null (U_AvatarUrl (snd row)) |}
     | [] => throw (TypeError (js "Cannot read properties of undefined (reading 'Id')"))
     end)
    (fun error =>
       if is_not_authorized error
       then throw (Error_new NOT_AUTHORIZED_TO_SEND)
       else throw error).

End MessageService.
Import MessageService.

(** ** src/routes/messages.ts: POST /api/messages *)

Module MessagesRoute.

(** [req.body], parsed JSON: any field may be missing.  [createdAt] is
    held as the instant it denotes, [None] when it is missing or no date. *)
Record Body := {
  body_senderId : option jsstring;
  body_conversationId : option jsstring;
  body_text : option jsstring;
  body_createdAt : option Z
}.

Record Request := {
  user_id : option jsstring;       (* req.user?.id, set by optionalAuth *)
  x_user_id : option jsstring;     (* req.headers['x-user-id'] *)
  body : Body
}.

Inductive Json : Type :=
| JsonMessage (m : Message)
| JsonError (error : jsstring) (required : list jsstring).

Record Response := {
  status : Z;
  json : Json
}.

(** [a ?? b] *)
Definition nullish {A} (a b : option A) : option A :=
  match a with
  | Some x => Some x
  | None => b
  end.

Definition post (req : Request) : M Response :=
  try_catch
    (let senderId :=
       match nullish (user_id req) (nullish (body_senderId (body req)) (x_user_id req)) with
       | Some s => s
       | None => js "user-123"
       end in
     match body_conversationId (body req), body_text (body req) with
     | Some conversationId, Some text =>
         if negb (truthy conversationId) || negb (truthy text) then
           ret {| status := 400;
                  json := JsonError (js "Invalid message format")
                                    [js "conversationId"; js "text"] |}
         else
           messageId <- randomUUID ;;
           message <- createMessage messageId conversationId senderId
                        {| payload_conversationId := conversationId;
                           payload_text := text;
                           payload_createdAt := body_createdAt (body req) |} ;;
           ret {| status := 201; json := JsonMessage message |}
     | _, _ =>
         ret {| status := 400;
                json := JsonError (js "Invalid message format")
                                  [js "conversationId"; js "text"] |}
     end)
    (fun error =>
       if is_not_authorized error
       then ret {| status := 403; json := JsonError (message error) [] |}
       else ret {| status := 500; json := JsonError (js "Internal server error") [] |}).

End MessagesRoute.

(** ** MessagingPanel.tsx: the message list of the chat panel

    Each [setMessages(prev => ...)] of the component is a function from
    the previous list to the next one. *)

Module MessagingPanel.

Record Message := {
  id : jsstring;
  conversationId : jsstring;
  senderId : jsstring;
  text : jsstring;
  createdAt : Z;                      (* new Date(createdAt).getTime() *)
  senderName : option jsstring;
  senderAvatar : option jsstring
}.

(** [list.sort((a, b) => new Date(a.createdAt).getTime()
                          - new Date(b.createdAt).getTime())] *)
Definition sort_chronologically (l : list Message) : list Message :=
  sort_by createdAt l.

(** The callback handed to [onSubscribeNewMessage]: a message observed by
    polling. *)
Definition onNewMessage (msg : Message) (prev : list Message) : list Message :=
  if existsb (fun m => str_eqb (id m) (id msg)) prev then prev
  else
    let isDuplicate :=
      existsb (fun m => str_eqb (conversationId m) (conversationId msg)
                        && str_eqb (senderId m) (senderId msg)
                        && str_eqb (text m) (text msg)
                        && (Z.abs (createdAt m - createdAt msg) <? 5000))
              prev in
    if isDuplicate then prev
    else sort_chronologically (prev ++ [msg]).

(** [handleSend]: the optimistic insert. *)
Definition addOptimistic (tempId conversationId currentUserId text : jsstring)
    (createdAt : Z) (prev : list Message) : list Message :=
  let local := {| id := tempId; conversationId := conversationId;
                  senderId := currentUserId; text := text; createdAt := createdAt;
                  senderName := None; senderAvatar := None |} in
  sort_chronologically (prev ++ [local]).

(** [handleSend]: what follows once [onSend] has resolved with
    [createdMessage] ([None]: it resolved with nothing). *)
Definition confirmSend (tempId : jsstring) (createdMessage : option Message)
    (prev : list Message) : list Message :=
  match createdMessage with
  | Some created =>
      if truthy (id created) then
        sort_chronologically
          (map (fun msg => if str_eqb (id msg) tempId then created else msg) prev)
      else prev
  | None => prev
  end.

(** [handleSend]: the [catch] branch. *)
Definition removeOptimistic (tempId : jsstring) (prev : list Message) : list Message :=
  filter (fun msg => negb (str_eqb (id msg) tempId)) prev.

End MessagingPanel.

(** ** The 32 bytes behind a conversation key

    What [getConversationKey] encodes in base64: the HMAC of the
    conversation id under the master secret, or the plain hash of the
    prefixed id when no master secret is set. *)

Module KeyDigest.

Definition conversation_digest (masterKey : option jsstring) (conversationId : jsstring)
  : Buffer :=
  match masterKey with
  | Some (c :: m) =>
      Sha256.hmac_sha256 (base64_decode (c :: m)) (utf8_encode conversationId)
  | _ => Sha256.sha256 (utf8_encode (js "conversation-key-" ++ conversationId))
  end.

(** The key itself, as a function of the master secret and the id. *)
Definition conversation_key (masterKey : option jsstring) (conversationId : jsstring)
  : jsstring :=
  match masterKey with
  | Some (c :: m) => deriveConversationKey (c :: m) conversationId
  | _ =>
      substring0 44
        (base64_encode
           (Sha256.sha256 (utf8_encode (js "conversation-key-" ++ conversationId))))
  end.

End KeyDigest.
Import KeyDigest.

(** ** Sample data for the concrete runs *)

Module Samples.

Definition alice : UserRow :=
  {| U_Id := js "alice"; U_DisplayName := Some (js "Alice"); U_AvatarUrl := None |}.
Definition bob : UserRow :=
  {| U_Id := js "bob"; U_DisplayName := None; U_AvatarUrl := None |}.

(** Alice is an active participant of conversation [c1]; Bob has left. *)
Definition database : Database :=
  {| Users := [alice; bob];
     Conversations :=
       [{| C_Id := js "c1"; C_UpdatedAt := 0;
           C_LastMessageId := None; C_LastMessageAt := None |}];
     ConversationParticipants :=
       [{| P_ConversationId := js "c1"; P_UserId := js "alice"; P_LeftAt := None |};
        {| P_ConversationId := js "c1"; P_UserId := js "bob"; P_LeftAt := Some 5 |}];
     Messages := [] |}.

(** A process with no master secret configured. *)
Definition world : World :=
  {| env := fun _ => None;
     entropy := fun n => byte_of_Z (Z.of_nat n * 7 + 3);
     entropy_pos := 0;
     now := 1000;
     db := database;
     trace := [] |}.

(** The same process with a master secret, the base64 text of the bytes
    0 .. 31. *)
Definition world_with_master_key : World :=
  {| env := fun name =>
              if String.eqb name "MASTER_ENCRYPTION_KEY"
              then Some (js "AAECAwQFBgcICQoLDA0ODxAREhMUFRYXGBkaGxwdHh8=")
              else None;
     entropy := entropy world;
     entropy_pos := 0;
     now := 1000;
     db := database;
     trace := [] |}.

(** A 32-byte key: the fallback key of conversation [c1]. *)
Definition key : jsstring := js "xGbwQ7ptN6a6yGsSyjxDC9oYT7FvmyPdAraF/3mOV5Q=".

Definition no_params : MessageQueryParams :=
  {| limit := None; offset := None; before := None; after := None |}.

(** Two stored messages of [c1]: the first is what [encryptMessage] made
    of "hello" in [world]; the second is the same envelope with its last
    character changed. *)
Definition message_1 : MessageRow :=
  {| M_Id := js "m1"; M_ConversationId := js "c1"; M_SenderId := js "alice";
     M_Ciphertext := js "BGYl0goxTWgf3KGyGB8tDtuwMrnc"; M_IV := js "AwoRGB8mLTQ7QklQ";
     M_CreatedAt := 42; M_EditedAt := None; M_DeletedAt := None;
     M_ReplyToMessageId := None |}.

Definition message_2 : MessageRow :=
  {| M_Id := js "m2"; M_ConversationId := js "c1"; M_SenderId := js "alice";
     M_Ciphertext := js "BGYl0goxTWgf3KGyGB8tDtuwMrnd"; M_IV := js "AwoRGB8mLTQ7QklQ";
     M_CreatedAt := 50; M_EditedAt := None; M_DeletedAt := None;
     M_ReplyToMessageId := None |}.

Definition world_with_messages : World :=
  set_db {| Users := Users database;
            Conversations := Conversations database;
            ConversationParticipants := ConversationParticipants database;
            Messages := [message_2; message_1] |}
         world.

Definition hello : CreateMessagePayload :=
  {| payload_conversationId := js "c1"; payload_text := js "hello";
     payload_createdAt := Some 42 |}.

End Samples.

(** ** What the reconciliation layer is to guarantee, in the spec's words *)

Module ReconciliationSpec.
Import MessagingPanel.

(** An entry with the same id as the incoming message. *)
Definition same_id (msg m : Message) : Prop := id m = id msg.

(** An entry of the same conversation, sender and text whose creation
    time is within 5000 ms (strictly less than 5000 ms away) of the
    incoming one. *)
Definition near_duplicate (msg m : Message) : Prop :=
  conversationId m = conversationId msg
  /\ senderId m = senderId msg
  /\ text m = text msg
  /\ Z.abs (createdAt m - createdAt msg) < 5000.

Definition rejected (msg : Message) (prev : list Message) : Prop :=
  exists m, In m prev /\ (same_id msg m \/ near_duplicate msg m).

(** Ascending by creation time. *)
Definition chronological (l : list Message) : Prop :=
  StronglySorted (fun a b => createdAt a <= createdAt b) l.

(** The number of entries of the list that carry a given id. *)
Definition count_id (x : jsstring) (l : list Message) : nat :=
  length (filter (fun m => str_eqb (id m) x) l).

(** Sample messages: the reply of the server to a send of "hi", and an
    unrelated message. *)
Definition server_hi : Message :=
  {| id := js "srv-1"; conversationId := js "c1"; senderId := js "alice";
     text := js "hi"; createdAt := 1200; senderName := Some (js "Alice");
     senderAvatar := None |}.

Definition other : Message :=
  {| id := js "srv-0"; conversationId := js "c1"; senderId := js "bob";
     text := js "yo"; createdAt := 900; senderName := None; senderAvatar := None |}.

End ReconciliationSpec.

(** ** Hexadecimal notation for the known-answer tests *)

Module Hex.

Definition hex_value (c : Z) : Z :=
  if between 48 57 c then c - 48
  else if between 97 102 c then c - 87
  else c - 55.

(** [Buffer.from(s, 'hex')] on a string of hex digits. *)
Fixpoint hex_decode (s : jsstring) : Buffer :=
  match s with
  | hi :: lo :: r => byte_of_Z (hex_value hi * 16 + hex_value lo) :: hex_decode r
  | _ => []
  end.

Definition unhex (s : string) : Buffer := hex_decode (js s).

Definition hex (b : Buffer) : jsstring := hex_of_bytes b.

End Hex.

(** ** src/utils/encryption.ts: [generateConversationKey] *)

Module KeyGeneration.

Definition generateConversationKey : M jsstring :=
  bytes <- randomBytes KEY_LENGTH ;;
  ret (base64_encode bytes).

End KeyGeneration.

(** ** White space in base64 text: space, tab, line feed, carriage return *)

Module Base64WhiteSpace.

Definition is_base64_white_space (c : Z) : bool :=
  (c =? 9) || (c =? 10) || (c =? 13) || (c =? 32).

End Base64WhiteSpace.

(** ** What the tables are to satisfy

    The keys the schema declares on the tables of the model, and the one
    reference it does not declare: [Conversations.LastMessageId]. *)

Module Integrity.

(** PK of dbo.Users *)
Definition unique_user_ids (d : Database) : Prop := NoDup (map U_Id (Users d)).

(** PK of dbo.Messages *)
Definition unique_message_ids (d : Database) : Prop := NoDup (map M_Id (Messages d)).

(** FK_Messages_Conversation and FK_Messages_Sender *)
Definition message_keys_hold (d : Database) : bool :=
  forallb (fun m =>
             existsb (fun c => str_eqb (C_Id c) (M_ConversationId m)) (Conversations d)
             && existsb (fun u => str_eqb (U_Id u) (M_SenderId m)) (Users d))
          (Messages d).

(** Every last-message pointer names a stored message. *)
Definition last_message_exists (d : Database) : bool :=
  forallb (fun c =>
             match C_LastMessageId c with
             | Some i => existsb (fun m => str_eqb (M_Id m) i) (Messages d)
             | None => true
             end)
          (Conversations d).

(** No two messages of a conversation were created at the same instant:
    ORDER BY CreatedAt then leaves the store no choice. *)
Definition distinct_creation_times (d : Database) (ConversationId : jsstring) : Prop :=
  NoDup (map M_CreatedAt
             (filter (fun m => str_eqb (M_ConversationId m) ConversationId) (Messages d))).

End Integrity.

(** ** src/routes/messages.ts: GET /conversations/:conversationId/messages *)

Module MessagesRouteGet.

(** [parseInt(s)] with no radix: leading white space is dropped, then an
    optional sign, then a [0x] or [0X] prefix selects base 16; the longest
    run of digits is read and the rest ignored.  [None] is [NaN].  The
    number is held as the integer the digits denote; the double the
    engine returns differs from it above 2^53 only, far beyond the bounds
    the handler and the store compare it with. *)
Definition is_white_space (c : Z) : bool :=
  (c =? 0x09) || (c =? 0x0A) || (c =? 0x0B) || (c =? 0x0C) || (c =? 0x0D)
  || (c =? 0x20) || (c =? 0xA0) || (c =? 0x1680)
  || ((0x2000 <=? c) && (c <=? 0x200A))
  || (c =? 0x2028) || (c =? 0x2029) || (c =? 0x202F) || (c =? 0x205F)
  || (c =? 0x3000) || (c =? 0xFEFF).

Fixpoint trim_start (s : jsstring) : jsstring :=
  match s with
  | c :: r => if is_white_space c then trim_start r else s
  | [] => []
  end.

Definition digit_value (c : Z) : option Z :=
  if between 48 57 c then Some (c - 48)
  else if between 97 122 c then Some (c - 87)
  else if between 65 90 c then Some (c - 55)
  else None.

Fixpoint parse_digits (radix : Z) (s : jsstring) (acc : option Z) : option Z :=
  match s with
  | c :: r =>
      match digit_value c with
      | Some v =>
          if v <? radix
          then parse_digits radix r
                 (Some (match acc with Some a => a * radix + v | None => v end))
          else acc
      | None => acc
      end
  | [] => acc
  end.

Definition parseInt (s : jsstring) : option Z :=
  let s := trim_start s in
  let signed :=
    match s with
    | 45 :: r => (-1, r)
    | 43 :: r => (1, r)
    | _ => (1, s)
    end in
  let based :=
    match snd signed with
    | 48 :: 120 :: r => (16, r)
    | 48 :: 88 :: r => (16, r)
    | _ => (10, snd signed)
    end in
  match parse_digits (fst based) (snd based) None with
  | Some n => Some (fst signed * n)
  | None => None
  end.

(** [req.query]: each field a string or missing. *)
Record Query := {
  query_userId : option jsstring;
  query_limit : option jsstring;
  query_offset : option jsstring;
  query_before : option jsstring;
  query_after : option jsstring
}.

Record Request := {
  user_id : option jsstring;          (* req.user?.id, set by optionalAuth *)
  x_user_id : option jsstring;        (* req.headers['x-user-id'] *)
  params_conversationId : jsstring;   (* req.params.conversationId *)
  query : Query
}.

Inductive Json : Type :=
| JsonMessages (messages : list Message) (hasMore : bool) (total : Z)
| JsonError (error : jsstring).

Record Response := {
  status : Z;
  json : Json
}.

Definition get (req : Request) : M Response :=
  try_catch
    (let userId :=
       match MessagesRoute.nullish (user_id req)
               (MessagesRoute.nullish (query_userId (query req)) (x_user_id req)) with
       | Some s => s
       | None => js "user-123"
       end in
     let conversationId := params_conversationId req in
     let queryParams :=
       {| limit := match query_limit (query req) with
                   | Some s => if truthy s then parseInt s else Some 50
                   | None => Some 50
                   end;
          offset := match query_offset (query req) with
                    | Some s => if truthy s then parseInt s else Some 0
                    | None => Some 0
                    end;
          before := query_before (query req);
          after := query_after (query req) |} in
     result <- getMessages conversationId userId queryParams ;;
     ret {| status := 200;
            json := JsonMessages (data result) (hasMore result) (total result) |})
    (fun error =>
       if is_not_authorized error
       then ret {| status := 403; json := JsonError (message error) |}
       else ret {| status := 500; json := JsonError (js "Internal server error") |}).

End MessagesRouteGet.

(** ** Who a request acts for

    [authReq.user?.id ?? req.body.senderId ?? hUserId ?? 'user-123'] of
    the POST handler and
    [authReq.user?.id ?? qUserId ?? hUserId ?? 'user-123'] of the GET
    handler. *)

Module RequestIdentity.

Definition senderId (req : MessagesRoute.Request) : jsstring :=
  match MessagesRoute.nullish (MessagesRoute.user_id req)
          (MessagesRoute.nullish
             (MessagesRoute.body_senderId (MessagesRoute.body req))
             (MessagesRoute.x_user_id req)) with
  | Some s => s
  | None => js "user-123"
  end.

Definition userId (req : MessagesRouteGet.Request) : jsstring :=
  match MessagesRoute.nullish (MessagesRouteGet.user_id req)
          (MessagesRoute.nullish
             (MessagesRouteGet.query_userId (MessagesRouteGet.query req))
             (MessagesRouteGet.x_user_id req)) with
  | Some s => s
  | None => js "user-123"
  end.

(** The paging parameters the GET handler builds from the query string. *)
Definition queryParams (req : MessagesRouteGet.Request) : MessageQueryParams :=
  {| limit := match MessagesRouteGet.query_limit (MessagesRouteGet.query req) with
              | Some s => if truthy s then MessagesRouteGet.parseInt s else Some 50
              | None => Some 50
              end;
     offset := match MessagesRouteGet.query_offset (MessagesRouteGet.query req) with
               | Some s => if truthy s then MessagesRouteGet.parseInt s else Some 0
               | None => Some 0
               end;
     before := MessagesRouteGet.query_before (MessagesRouteGet.query req);
     after := MessagesRouteGet.query_after (MessagesRouteGet.query req) |}.

End RequestIdentity.

(** ** src/middleware/auth.ts: [optionalAuth], and the messages router
       behind it

    [jwt.verify] of the jsonwebtoken package is a parameter: it returns
    the decoded payload or throws. *)

Module Auth.

(** The payload of a token, read as [{ userId, username }]: either field
    may be missing. *)
Record Decoded := {
  userId : option jsstring;
  username : option jsstring
}.

(** [req.user] *)
Record User := {
  id : option jsstring;
  user_username : option jsstring
}.

(** [s.split(sep)] for a separator of one code unit; [cur] is the piece
    being read, last code unit first. *)
Fixpoint split_on (sep : Z) (s cur : jsstring) : list jsstring :=
  match s with
  | [] => [rev cur]
  | c :: r => if c =? sep then rev cur :: split_on sep r [] else split_on sep r (c :: cur)
  end.

(** [authHeader && authHeader.split(' ')[1]] *)
Definition token_of (authHeader : option jsstring) : option jsstring :=
  match authHeader with
  | Some h => if truthy h then nth_error (split_on 32 h []) 1 else Some h
  | None => None
  end.

Section Jwt.
Variable jwt_verify : jsstring -> jsstring -> Result Decoded.

Definition optionalAuth (authorization : option jsstring) : M (option User) :=
  user <-
    match token_of authorization with
    | Some token =>
        if truthy token then
          JWT_SECRET <- getenv "JWT_SECRET" ;;
          let secret :=
            match JWT_SECRET with
            | Some s => if truthy s then s else js "your-secret-key"
            | None => js "your-secret-key"
            end in
          match jwt_verify token secret with
          | Ok decoded =>
              ret (Some {| id := userId decoded; user_username := username decoded |})
          | Throw _ => ret None      (* an invalid token is ignored *)
          end
        else ret None
    | None => ret None
    end ;;
  NODE_ENV <- getenv "NODE_ENV" ;;
  let development :=
    match NODE_ENV with
    | Some s => str_eqb s (js "development")
    | None => false
    end in
  match user with
  | None => if development then ret (Some {| id := Some (js "user-123");
                                             user_username := None |})
            else ret None
  | Some u => ret (Some u)
  end.

(** [router.use(optionalAuth)] followed by the handler: [req.user?.id] is
    what the middleware has left. *)
Definition router_post (authorization x_user_id : option jsstring)
    (body : MessagesRoute.Body) : M MessagesRoute.Response :=
  user <- optionalAuth authorization ;;
  MessagesRoute.post
    {| MessagesRoute.user_id := match user with Some u => id u | None => None end;
       MessagesRoute.x_user_id := x_user_id;
       MessagesRoute.body := body |}.

Definition router_get (authorization x_user_id : option jsstring)
    (conversationId : jsstring) (query : MessagesRouteGet.Query)
  : M MessagesRouteGet.Response :=
  user <- optionalAuth authorization ;;
  MessagesRouteGet.get
    {| MessagesRouteGet.user_id := match user with Some u => id u | None => None end;
       MessagesRouteGet.x_user_id := x_user_id;
       MessagesRouteGet.params_conversationId := conversationId;
       MessagesRouteGet.query := query |}.

End Jwt.

(** [process.env.NODE_ENV === 'development'] *)
Definition development (w : World) : bool :=
  match env w "NODE_ENV"%string with
  | Some s => str_eqb s (js "development")
  | None => false
  end.

(** [process.env.JWT_SECRET || 'your-secret-key'] *)
Definition jwt_secret (w : World) : jsstring :=
  match env w "JWT_SECRET"%string with
  | Some s => if truthy s then s else js "your-secret-key"
  | None => js "your-secret-key"
  end.

End Auth.

(** ** What the message list of the panel is to satisfy *)

Module PanelInvariants.

(** No two entries carry the same id. *)
Definition unique_ids (l : list MessagingPanel.Message) : Prop :=
  NoDup (map MessagingPanel.id l).

End PanelInvariants.

(** ** More sample data *)

Module MoreSamples.

(** The process of [Samples.world_with_master_key], its secret read from
    a file that ends with a line feed. *)
Definition world_with_master_key_line : World :=
  {| env := fun name =>
              if String.eqb name "MASTER_ENCRYPTION_KEY"
              then Some (js "AAECAwQFBgcICQoLDA0ODxAREhMUFRYXGBkaGxwdHh8=" ++ [10] ++ [])
              else None;
     entropy := entropy Samples.world;
     entropy_pos := 0;
     now := 1000;
     db := Samples.database;
     trace := [] |}.

(** Two requests without a verified token: the header names one user,
    the body another. *)
Definition post_as_bob : MessagesRoute.Request :=
  {| MessagesRoute.user_id := None;
     MessagesRoute.x_user_id := Some (js "alice");
     MessagesRoute.body :=
       {| MessagesRoute.body_senderId := Some (js "bob");
          MessagesRoute.body_conversationId := Some (js "c1");
          MessagesRoute.body_text := Some (js "hello");
          MessagesRoute.body_createdAt := Some 42 |} |}.

Definition post_as_alice : MessagesRoute.Request :=
  {| MessagesRoute.user_id := None;
     MessagesRoute.x_user_id := Some (js "bob");
     MessagesRoute.body :=
       {| MessagesRoute.body_senderId := Some (js "alice");
          MessagesRoute.body_conversationId := Some (js "c1");
          MessagesRoute.body_text := Some (js "hello");
          MessagesRoute.body_createdAt := Some 42 |} |}.

(** The process of [Samples.world], run with NODE_ENV=development. *)
Definition world_in_development : World :=
  {| env := fun name =>
              if String.eqb name "NODE_ENV" then Some (js "development") else None;
     entropy := entropy Samples.world;
     entropy_pos := 0;
     now := 1000;
     db := Samples.database;
     trace := [] |}.

(** A [jwt.verify] that accepts no token. *)
Definition jwt_reject (token secret : jsstring) : Result Auth.Decoded :=
  Throw (Error_new (js "jwt malformed")).

End MoreSamples.

(** ** Proof automation *)

(** Linear arithmetic with division and remainder by constants. *)
Ltac zdm := Z.div_mod_to_equations; lia.

(* ================================================================== *)
(** * Part II. Lemmas and theorems                                     *)
(* ================================================================== *)

(** ** Sorting *)

Module SortingFacts.

Section SortBy.
Context {A : Type} (key : A -> Z).

Lemma insert_by_perm (x : A) (l : list A) : Permutation (insert_by key x l) (x :: l).
Proof.
  induction l as [|y l IH]; cbn [insert_by]; [reflexivity|].
  destruct (key x <=? key y); [reflexivity|].
  rewrite IH. apply perm_swap.
Qed.

Lemma sort_by_perm (l : list A) : Permutation (sort_by key l) l.
Proof.
  induction l as [|x l IH]; cbn [sort_by fold_right]; [reflexivity|].
  fold (sort_by key l). rewrite insert_by_perm. now apply perm_skip.
Qed.

Lemma insert_by_Forall (P : A -> Prop) (x : A) (l : list A) :
  P x -> Forall P l -> Forall P (insert_by key x l).
Proof.
  intros Hx Hl. eapply Permutation_Forall.
  - symmetry. apply insert_by_perm.
  - now constructor.
Qed.

Lemma insert_by_sorted (x : A) (l : list A) :
  StronglySorted (fun a b => key a <= key b) l ->
  StronglySorted (fun a b => key a <= key b) (insert_by key x l).
Proof.
  induction l as [|y l IH]; intros Hs; cbn [insert_by].
  - repeat constructor.
  - inversion Hs as [|? ? Hl Hy]; subst.
    destruct (Z.leb_spec (key x) (key y)) as [Hxy|Hxy].
    + constructor; [exact Hs|]. constructor; [exact Hxy|].
      eapply Forall_impl; [|exact Hy]. cbv beta. intros z Hz. lia.
    + constructor; [now apply IH|].
      apply insert_by_Forall; [lia | exact Hy].
Qed.

Lemma sort_by_sorted (l : list A) :
  StronglySorted (fun a b => key a <= key b) (sort_by key l).
Proof.
  induction l as [|x l IH]; cbn [sort_by fold_right]; [constructor|].
  now apply insert_by_sorted.
Qed.

Lemma sort_by_length (l : list A) : length (sort_by key l) = length l.
Proof. apply Permutation_length, sort_by_perm. Qed.

Lemma sort_by_In (x : A) (l : list A) : In x (sort_by key l) <-> In x l.
Proof.
  split; apply Permutation_in; [apply sort_by_perm | symmetry; apply sort_by_perm].
Qed.

End SortBy.

Lemma in_firstn {A : Type} (x : A) (n : nat) (l : list A) :
  In x (firstn n l) -> In x l.
Proof.
  revert l. induction n as [|n IH]; intros [|y l] H; cbn [firstn] in H;
    try contradiction.
  destruct H as [->|H]; [now left | right; now apply IH].
Qed.

Lemma in_skipn {A : Type} (x : A) (n : nat) (l : list A) :
  In x (skipn n l) -> In x l.
Proof.
  revert l. induction n as [|n IH]; intros [|y l] H; cbn [skipn] in H;
    try contradiction; auto.
  right. now apply IH.
Qed.

Lemma StronglySorted_skipn {A : Type} (R : A -> A -> Prop) (n : nat) (l : list A) :
  StronglySorted R l -> StronglySorted R (skipn n l).
Proof.
  revert l. induction n as [|n IH]; intros l Hs; [exact Hs|].
  destruct l as [|x l]; [constructor|]. cbn [skipn]. apply IH.
  now inversion Hs.
Qed.

Lemma StronglySorted_firstn {A : Type} (R : A -> A -> Prop) (n : nat) (l : list A) :
  StronglySorted R l -> StronglySorted R (firstn n l).
Proof.
  revert l. induction n as [|n IH]; intros l Hs; [constructor|].
  destruct l as [|x l]; [constructor|]. cbn [firstn].
  inversion Hs as [|? ? Hl Hx]; subst. constructor; [now apply IH|].
  rewrite Forall_forall in *. intros y Hy. apply Hx.
  eapply in_firstn. exact Hy.
Qed.

Lemma StronglySorted_map {A B : Type} (R : A -> A -> Prop) (S : B -> B -> Prop)
    (f : A -> B) (l : list A) :
  (forall a b, R a b -> S (f a) (f b)) ->
  StronglySorted R l -> StronglySorted S (map f l).
Proof.
  intros Hf. induction 1 as [|x l Hl IH Hx]; cbn [map]; constructor; [exact IH|].
  rewrite Forall_forall in *. intros y Hy. apply in_map_iff in Hy.
  destruct Hy as [a [<- Ha]]. auto.
Qed.

End SortingFacts.
(** ** Bytes and strings *)

Module BufferFacts.

Lemma byte_to_Z_range (b : byte) : 0 <= byte_to_Z b < 256.
Proof.
  unfold byte_to_Z. pose proof (Byte.to_N_bounded b) as H.
  split; [apply N2Z.is_nonneg|].
  change 256 with (Z.of_N 256). apply N2Z.inj_lt. lia.
Qed.

Lemma byte_of_to_Z (b : byte) : byte_of_Z (byte_to_Z b) = b.
Proof.
  unfold byte_of_Z. rewrite Z.mod_small by apply byte_to_Z_range.
  unfold byte_to_Z. rewrite N2Z.id, Byte.of_to_N. reflexivity.
Qed.

Lemma byte_to_of_Z (z : Z) : 0 <= z < 256 -> byte_to_Z (byte_of_Z z) = z.
Proof.
  intros Hz. unfold byte_of_Z, byte_to_Z. rewrite Z.mod_small by exact Hz.
  destruct (Byte.of_N (Z.to_N z)) as [b|] eqn:E.
  - apply Byte.to_of_N in E. rewrite E. apply Z2N.id. lia.
  - apply Byte.of_N_None_iff in E. lia.
Qed.

Lemma Ok_inj {A : Type} (a b : A) : Ok a = Ok b -> a = b.
Proof. intros H. injection H as H. exact H. Qed.

Lemma str_eqb_refl (s : jsstring) : str_eqb s s = true.
Proof. induction s as [|c s IH]; simpl; [reflexivity|]. now rewrite Z.eqb_refl. Qed.

Lemma str_eqb_eq (a b : jsstring) : str_eqb a b = true <-> a = b.
Proof.
  split.
  - revert b. induction a as [|x a IH]; intros [|y b] H; simpl in H; try discriminate.
    + reflexivity.
    + apply andb_true_iff in H. destruct H as [Hxy Hab].
      apply Z.eqb_eq in Hxy. apply IH in Hab. now subst.
  - intros ->. apply str_eqb_refl.
Qed.

Lemma str_eqb_neq (a b : jsstring) : str_eqb a b = false <-> a <> b.
Proof.
  rewrite <- str_eqb_eq. destruct (str_eqb a b); split; intro H; congruence.
Qed.

(** *** base64 *)

Lemma unbase64_base64_char (s : Z) :
  0 <= s < 64 ->
  unbase64 (base64_char s) = Some s /\ (base64_char s =? pad_char) = false
  /\ base64_char s mod 256 = base64_char s.
Proof.
  intros Hs.
  assert (Hall : forallb (fun n => match unbase64 (base64_char (Z.of_nat n)) with
                                   | Some v => (v =? Z.of_nat n)
                                               && (negb (base64_char (Z.of_nat n) =? pad_char)
                                                   && (base64_char (Z.of_nat n) mod 256
                                                       =? base64_char (Z.of_nat n)))
                                   | None => false
                                   end) (seq 0 64) = true) by (vm_compute; reflexivity).
  rewrite forallb_forall in Hall.
  specialize (Hall (Z.to_nat s)).
  rewrite Z2Nat.id in Hall by lia.
  assert (Hin : In (Z.to_nat s) (seq 0 64)) by (apply in_seq; lia).
  specialize (Hall Hin).
  destruct (unbase64 (base64_char s)) as [v|]; [|discriminate].
  apply andb_true_iff in Hall. destruct Hall as [Hv Hp].
  apply andb_true_iff in Hp. destruct Hp as [Hp Hm].
  apply Z.eqb_eq in Hv. apply negb_true_iff in Hp. apply Z.eqb_eq in Hm. now subst.
Qed.

Lemma base64_sextets_cons (s : Z) (r : jsstring) :
  0 <= s < 64 -> base64_sextets (base64_char s :: r) = s :: base64_sextets r.
Proof.
  intros Hs. destruct (unbase64_base64_char s Hs) as [Hu [Hp Hm]].
  cbn [base64_sextets]. cbv zeta. now rewrite Hm, Hp, Hu.
Qed.

Lemma base64_sextets_pad (r : jsstring) : base64_sextets (pad_char :: r) = [].
Proof. reflexivity. Qed.

(** Induction three bytes at a time. *)
Lemma buffer_ind3 (P : Buffer -> Prop) :
  P [] -> (forall a, P [a]) -> (forall a b, P [a; b]) ->
  (forall a b c r, P r -> P (a :: b :: c :: r)) ->
  forall bs, P bs.
Proof.
  intros H0 H1 H2 H3 bs.
  assert (Hn : forall n (l : Buffer), (length l <= n)%nat -> P l).
  { induction n as [|n IH]; intros l Hl.
    - destruct l; [exact H0 | simpl in Hl; lia].
    - destruct l as [|a [|b [|c r]]]; auto.
      apply H3. apply IH. simpl in Hl. lia. }
  exact (Hn (length bs) bs (le_n _)).
Qed.

Lemma byte_of_Z_inj_small (z : Z) (b : byte) :
  z = byte_to_Z b -> byte_of_Z z = b.
Proof. intros ->. apply byte_of_to_Z. Qed.

Lemma base64_decode_encode (bs : Buffer) : base64_decode (base64_encode bs) = bs.
Proof.
  unfold base64_decode.
  induction bs as [|a|a b|a b c r IH] using buffer_ind3.
  - reflexivity.
  - cbn [base64_encode]. pose proof (byte_to_Z_range a).
    rewrite !base64_sextets_cons, base64_sextets_pad by (split; zdm).
    cbn [base64_pack]. f_equal. apply byte_of_Z_inj_small.
    zdm.
  - cbn [base64_encode]. pose proof (byte_to_Z_range a). pose proof (byte_to_Z_range b).
    rewrite !base64_sextets_cons, base64_sextets_pad by (split; zdm).
    cbn [base64_pack]. f_equal; [|f_equal]; apply byte_of_Z_inj_small; zdm.
  - cbn [base64_encode].
    pose proof (byte_to_Z_range a). pose proof (byte_to_Z_range b).
    pose proof (byte_to_Z_range c).
    rewrite !base64_sextets_cons by (split; zdm).
    cbn [base64_pack]. rewrite IH.
    f_equal; [|f_equal; [|f_equal]]; apply byte_of_Z_inj_small; zdm.
Qed.

Lemma base64_encode_length (bs : Buffer) :
  length (base64_encode bs) = (4 * ((length bs + 2) / 3))%nat.
Proof.
  induction bs as [|a|a b|a b c r IH] using buffer_ind3; try reflexivity.
  cbn [base64_encode length]. rewrite IH.
  replace (S (S (S (length r))) + 2)%nat with (length r + 2 + 1 * 3)%nat by lia.
  rewrite Nat.div_add by lia. lia.
Qed.

End BufferFacts.
Module Utf8Facts.
Import BufferFacts.

Lemma between_true (lo hi x : Z) : between lo hi x = true <-> lo <= x <= hi.
Proof. unfold between. rewrite andb_true_iff, !Z.leb_le. tauto. Qed.

Lemma between_false (lo hi x : Z) : between lo hi x = false <-> x < lo \/ hi < x.
Proof. unfold between. rewrite andb_false_iff, !Z.leb_gt. tauto. Qed.

Lemma ltb_false (a b : Z) : b <= a -> (a <? b) = false.
Proof. intros. now apply Z.ltb_ge. Qed.

Lemma ltb_true (a b : Z) : a < b -> (a <? b) = true.
Proof. intros. now apply Z.ltb_lt. Qed.

Lemma utf8_decode_1 (x : Z) (r : Buffer) :
  0 <= x < 0x80 -> utf8_decode (byte_of_Z x :: r) = x :: utf8_decode r.
Proof.
  intros Hx. cbn [utf8_decode]. rewrite byte_to_of_Z by lia.
  now rewrite ltb_true by lia.
Qed.

Lemma utf8_decode_2 (x0 x1 : Z) (r : Buffer) :
  0xC2 <= x0 <= 0xDF -> 0x80 <= x1 <= 0xBF ->
  utf8_decode (byte_of_Z x0 :: byte_of_Z x1 :: r)
  = ((x0 - 0xC0) * 64 + (x1 - 0x80)) :: utf8_decode r.
Proof.
  intros H0 H1. remember (byte_of_Z x1 :: r) as r0 eqn:E0.
  cbn [utf8_decode]. rewrite byte_to_of_Z by lia.
  rewrite ltb_false by lia.
  rewrite (proj2 (between_true 0xC2 0xDF x0)) by lia.
  subst r0. rewrite byte_to_of_Z by lia.
  now rewrite (proj2 (between_true 0x80 0xBF x1)) by lia.
Qed.

Lemma utf8_decode_3 (x0 x1 x2 : Z) (r : Buffer) :
  0xE0 <= x0 <= 0xEF -> second_lo x0 <= x1 <= second_hi x0 -> 0x80 <= x1 <= 0xBF ->
  0x80 <= x2 <= 0xBF ->
  utf8_decode (byte_of_Z x0 :: byte_of_Z x1 :: byte_of_Z x2 :: r)
  = ((x0 - 0xE0) * 4096 + (x1 - 0x80) * 64 + (x2 - 0x80)) :: utf8_decode r.
Proof.
  intros H0 H1 H1' H2. remember (byte_of_Z x1 :: byte_of_Z x2 :: r) as r0 eqn:E0.
  cbn [utf8_decode]. rewrite byte_to_of_Z by lia.
  rewrite ltb_false by lia.
  rewrite (proj2 (between_false 0xC2 0xDF x0)) by lia.
  rewrite (proj2 (between_true 0xE0 0xEF x0)) by lia.
  subst r0. rewrite byte_to_of_Z by lia.
  rewrite (proj2 (between_true _ _ x1)) by lia.
  rewrite byte_to_of_Z by lia.
  now rewrite (proj2 (between_true 0x80 0xBF x2)) by lia.
Qed.

Lemma utf8_decode_4 (x0 x1 x2 x3 : Z) (r : Buffer) :
  0xF0 <= x0 <= 0xF4 -> second_lo x0 <= x1 <= second_hi x0 -> 0x80 <= x1 <= 0xBF ->
  0x80 <= x2 <= 0xBF -> 0x80 <= x3 <= 0xBF ->
  utf8_decode (byte_of_Z x0 :: byte_of_Z x1 :: byte_of_Z x2 :: byte_of_Z x3 :: r)
  = utf16_of_code_point
      ((x0 - 0xF0) * 262144 + (x1 - 0x80) * 4096 + (x2 - 0x80) * 64 + (x3 - 0x80))
      ++ utf8_decode r.
Proof.
  intros H0 H1 H1' H2 H3.
  remember (byte_of_Z x1 :: byte_of_Z x2 :: byte_of_Z x3 :: r) as r0 eqn:E0.
  cbn [utf8_decode]. rewrite byte_to_of_Z by lia.
  rewrite ltb_false by lia.
  rewrite (proj2 (between_false 0xC2 0xDF x0)) by lia.
  rewrite (proj2 (between_false 0xE0 0xEF x0)) by lia.
  rewrite (proj2 (between_true 0xF0 0xF4 x0)) by lia.
  subst r0. rewrite byte_to_of_Z by lia.
  rewrite (proj2 (between_true _ _ x1)) by lia.
  rewrite byte_to_of_Z by lia.
  rewrite (proj2 (between_true 0x80 0xBF x2)) by lia.
  rewrite byte_to_of_Z by lia.
  now rewrite (proj2 (between_true 0x80 0xBF x3)) by lia.
Qed.

Lemma second_bounds_3 (cp : Z) :
  0x800 <= cp < 0x10000 -> cp < 0xD800 \/ 0xE000 <= cp ->
  second_lo (0xE0 + cp / 4096) <= 0x80 + (cp / 64) mod 64 <= second_hi (0xE0 + cp / 4096).
Proof.
  intros Hr Hs. unfold second_lo, second_hi.
  repeat match goal with
         | |- context [?a =? ?b] => destruct (Z.eqb_spec a b)
         end; zdm.
Qed.

Lemma second_bounds_4 (cp : Z) :
  0x10000 <= cp < 0x110000 ->
  second_lo (0xF0 + cp / 262144) <= 0x80 + (cp / 4096) mod 64 <= second_hi (0xF0 + cp / 262144).
Proof.
  intros Hr. unfold second_lo, second_hi.
  repeat match goal with
         | |- context [?a =? ?b] => destruct (Z.eqb_spec a b)
         end; zdm.
Qed.

Lemma utf8_decode_code_point (cp : Z) (r : Buffer) :
  scalar_value cp ->
  utf8_decode (utf8_of_code_point cp ++ r) = utf16_of_code_point cp ++ utf8_decode r.
Proof.
  intros Hs. unfold scalar_value in Hs. unfold utf8_of_code_point.
  destruct (Z.ltb_spec cp 0x80) as [H1|H1].
  { cbn [app]. rewrite utf8_decode_1 by lia.
    unfold utf16_of_code_point. now rewrite ltb_true by lia. }
  destruct (Z.ltb_spec cp 0x800) as [H2|H2].
  { cbn [app]. rewrite utf8_decode_2 by zdm.
    unfold utf16_of_code_point. rewrite ltb_true by lia.
    cbn [app]. f_equal. zdm. }
  destruct (Z.ltb_spec cp 0x10000) as [H3|H3].
  { cbn [app]. rewrite utf8_decode_3; [| zdm | apply second_bounds_3; lia | zdm | zdm].
    unfold utf16_of_code_point. rewrite ltb_true by lia.
    cbn [app]. f_equal. zdm. }
  cbn [app]. rewrite utf8_decode_4; [| zdm | apply second_bounds_4; lia | zdm | zdm | zdm].
  f_equal. f_equal. zdm.
Qed.

Lemma utf16_of_pair (hi lo : Z) :
  is_high_surrogate hi = true -> is_low_surrogate lo = true ->
  utf16_of_code_point (code_point_of_pair hi lo) = [hi; lo].
Proof.
  unfold is_high_surrogate, is_low_surrogate, code_point_of_pair, utf16_of_code_point.
  rewrite !andb_true_iff, !Z.leb_le. intros [H1 H2] [H3 H4].
  rewrite ltb_false by lia. f_equal; [|f_equal]; zdm.
Qed.

(** Writing a well-formed string as UTF-8 and reading it back gives the
    string. *)
Lemma utf8_decode_encode (s : jsstring) :
  isWellFormed s = true -> utf8_decode (utf8_encode s) = s.
Proof.
  assert (Hn : forall n (l : jsstring), (length l <= n)%nat ->
                 isWellFormed l = true -> utf8_decode (utf8_encode l) = l).
  { induction n as [|n IH]; intros l Hl Hwf.
    - destruct l; [reflexivity | simpl in Hl; lia].
    - destruct l as [|c r]; [reflexivity|].
      cbn [isWellFormed utf8_encode] in *.
      destruct (is_high_surrogate c) eqn:Hh.
      + destruct r as [|d r']; [discriminate|].
        apply andb_true_iff in Hwf. destruct Hwf as [Hd Hwf].
        rewrite Hd. rewrite utf8_decode_code_point.
        * rewrite utf16_of_pair by assumption. cbn [app].
          rewrite IH; [reflexivity | simpl in Hl; lia | exact Hwf].
        * unfold scalar_value, code_point_of_pair.
          unfold is_high_surrogate, is_low_surrogate in Hh, Hd.
          rewrite !andb_true_iff, !Z.leb_le in Hh, Hd. lia.
      + apply andb_true_iff in Hwf. destruct Hwf as [Hc Hwf].
        apply andb_true_iff in Hc. destruct Hc as [Hc Hl'].
        apply negb_true_iff in Hl'. rewrite Hl'.
        rewrite utf8_decode_code_point.
        * unfold utf16_of_code_point.
          unfold is_code_unit in Hc. rewrite andb_true_iff, Z.leb_le, Z.ltb_lt in Hc.
          rewrite ltb_true by lia. cbn [app].
          rewrite IH; [reflexivity | simpl in Hl; lia | exact Hwf].
        * unfold scalar_value.
          unfold is_code_unit in Hc. rewrite andb_true_iff, Z.leb_le, Z.ltb_lt in Hc.
          unfold is_high_surrogate in Hh. unfold is_low_surrogate in Hl'.
          rewrite andb_false_iff, !Z.leb_gt in Hh, Hl'. lia. }
  intros Hwf. exact (Hn (length s) s (le_n _) Hwf).
Qed.

End Utf8Facts.
(** ** Hashes and the cipher *)

Module CryptoFacts.
Import BufferFacts.

Lemma bytes_of_word_length (w : Z) : length (Sha256.bytes_of_word w) = 4%nat.
Proof. reflexivity. Qed.

Lemma digest_of_state_length (s : Sha256.state) :
  length (Sha256.digest_of_state s) = 32%nat.
Proof. destruct s as [[[[[[[a b] c] d] e] f] g] h]. reflexivity. Qed.

Lemma sha256_length (msg : Buffer) : length (Sha256.sha256 msg) = 32%nat.
Proof. unfold Sha256.sha256. apply digest_of_state_length. Qed.

Lemma hmac_sha256_length (key msg : Buffer) :
  length (Sha256.hmac_sha256 key msg) = 32%nat.
Proof. unfold Sha256.hmac_sha256. apply sha256_length. Qed.

Lemma xor_bytes_length (x ks : Buffer) : length (xor_bytes x ks) = length x.
Proof.
  revert ks. induction x as [|b x IH]; intros ks; simpl; [reflexivity|].
  now rewrite IH.
Qed.

Lemma lxor_byte_range (a b : Z) :
  0 <= a < 256 -> 0 <= b < 256 -> 0 <= Z.lxor a b < 256.
Proof.
  intros Ha Hb. split.
  - apply Z.lxor_nonneg. lia.
  - destruct (Z.eq_dec (Z.lxor a b) 0) as [E|E]; [lia|].
    assert (Hpos : 0 < Z.lxor a b).
    { assert (0 <= Z.lxor a b) by (apply Z.lxor_nonneg; lia). lia. }
    apply Z.log2_lt_pow2 with (b := 8) in Hpos. apply Hpos.
    eapply Z.le_lt_trans; [apply Z.log2_lxor; lia|].
    apply Z.max_lub_lt.
    + destruct (Z.eq_dec a 0) as [->|]; [simpl; lia|]. apply Z.log2_lt_pow2; lia.
    + destruct (Z.eq_dec b 0) as [->|]; [simpl; lia|]. apply Z.log2_lt_pow2; lia.
Qed.

Lemma xor_byte_involutive (a k : byte) : xor_byte (xor_byte a k) k = a.
Proof.
  unfold xor_byte.
  rewrite byte_to_of_Z by (apply lxor_byte_range; apply byte_to_Z_range).
  rewrite Z.lxor_assoc, Z.lxor_nilpotent, Z.lxor_0_r. apply byte_of_to_Z.
Qed.

Lemma xor_bytes_involutive (x ks : Buffer) : xor_bytes (xor_bytes x ks) ks = x.
Proof.
  revert ks. induction x as [|b x IH]; intros ks; simpl; [reflexivity|].
  now rewrite xor_byte_involutive, IH.
Qed.

Lemma bytes_eqb_refl (a : Buffer) : Gcm.bytes_eqb a a = true.
Proof.
  induction a as [|x a IH]; simpl; [reflexivity|].
  rewrite IH, andb_true_r. now apply Byte.byte_dec_lb.
Qed.

Lemma bytes_of_Z_length (n : nat) (z : Z) : length (bytes_of_Z n z) = n.
Proof. unfold bytes_of_Z. now rewrite length_map, length_seq. Qed.

Lemma gctr_length (key icb x : Buffer) : length (Gcm.gctr key icb x) = length x.
Proof. apply xor_bytes_length. Qed.

Lemma gctr_involutive (key icb x : Buffer) :
  Gcm.gctr key icb (Gcm.gctr key icb x) = x.
Proof.
  unfold Gcm.gctr at 1. rewrite gctr_length. unfold Gcm.gctr.
  apply xor_bytes_involutive.
Qed.

Lemma tag_of_length (key iv c : Buffer) : length (Gcm.tag_of key iv c) = 16%nat.
Proof. unfold Gcm.tag_of. rewrite xor_bytes_length. apply bytes_of_Z_length. Qed.

Lemma encrypt_tag_length (key iv p : Buffer) :
  length (snd (Gcm.encrypt key iv p)) = 16%nat.
Proof. apply tag_of_length. Qed.

Lemma encrypt_ciphertext_length (key iv p : Buffer) :
  length (fst (Gcm.encrypt key iv p)) = length p.
Proof. apply gctr_length. Qed.

(** GCM decryption undoes GCM encryption under the same key and
    initialization vector. *)
Lemma decrypt_encrypt (key iv p : Buffer) :
  Gcm.decrypt key iv (fst (Gcm.encrypt key iv p)) (snd (Gcm.encrypt key iv p)) = Some p.
Proof.
  unfold Gcm.decrypt, Gcm.encrypt. cbn [fst snd].
  rewrite tag_of_length.
  replace (firstn 16 (Gcm.tag_of key iv _)) with
    (Gcm.tag_of key iv (Gcm.gctr key (Gcm.inc32 (Gcm.j0 (Gcm.hash_subkey key) iv) 1) p)).
  2:{ symmetry. apply firstn_all2. rewrite tag_of_length. lia. }
  rewrite bytes_eqb_refl. now rewrite gctr_involutive.
Qed.

Lemma slice_but_last_app (a t : Buffer) (n : nat) :
  length t = n -> slice_but_last n (a ++ t) = a.
Proof.
  intros Ht. unfold slice_but_last. rewrite length_app, Ht.
  replace (length a + n - n)%nat with (length a + 0)%nat by lia.
  rewrite firstn_app_2. cbn [firstn]. apply app_nil_r.
Qed.

Lemma slice_last_app (a t : Buffer) (n : nat) :
  length t = n -> slice_last n (a ++ t) = t.
Proof.
  intros Ht. unfold slice_last. rewrite length_app, Ht.
  replace (length a + n - n)%nat with (length a) by lia.
  rewrite skipn_app, skipn_all, Nat.sub_diag. reflexivity.
Qed.

End CryptoFacts.
(** ** src/utils/encryption.ts and src/services/keyService.ts *)

Module EncryptionFacts.
Import BufferFacts Utf8Facts CryptoFacts.

Lemma randomBytes_length (n : nat) (w : World) (b : Buffer) (w' : World) :
  randomBytes n w = (Ok b, w') -> length b = n.
Proof.
  unfold randomBytes. intros H. injection H as <- _.
  now rewrite length_map, length_seq.
Qed.

(** With a 32-byte key [encryptMessage] returns, and what it returns is
    the base64 text of ciphertext-then-tag and of the 12 bytes drawn. *)
Lemma encryptMessage_ok (p k : jsstring) (w : World) :
  length (base64_decode k) = KEY_LENGTH ->
  let ivb := map (entropy w) (seq (entropy_pos w) IV_LENGTH) in
  let out := Gcm.encrypt (base64_decode k) ivb (utf8_encode p) in
  fst (encryptMessage p k w)
  = Ok {| ciphertext := base64_encode (fst out ++ snd out); iv := base64_encode ivb |}.
Proof.
  intros Hk ivb out.
  unfold encryptMessage, bind, log, throw, randomBytes, lift, ret. cbn [fst snd].
  rewrite Hk. cbn [Nat.eqb KEY_LENGTH negb add_event entropy entropy_pos].
  unfold cipher_aes_256_gcm. rewrite Hk.
  cbn [Nat.eqb KEY_LENGTH negb].
  rewrite length_map, length_seq. cbn [IV_LENGTH Nat.eqb fst snd].
  rewrite base64_decode_encode. reflexivity.
Qed.

Lemma decryptMessage_of_encrypted (p k : jsstring) (ivb : Buffer) :
  length (base64_decode k) = KEY_LENGTH ->
  length ivb = IV_LENGTH ->
  let out := Gcm.encrypt (base64_decode k) ivb (utf8_encode p) in
  decryptMessage (base64_encode (fst out ++ snd out)) (base64_encode ivb) k
  = Ok (utf8_decode (utf8_encode p)).
Proof.
  intros Hk Hiv out. unfold decryptMessage.
  rewrite Hk. cbn [Nat.eqb KEY_LENGTH negb].
  rewrite !base64_decode_encode.
  rewrite slice_but_last_app, slice_last_app by apply encrypt_tag_length.
  unfold decipher_aes_256_gcm.
  rewrite Hk, Hiv. cbn [Nat.eqb KEY_LENGTH IV_LENGTH negb].
  subst out. rewrite encrypt_tag_length. cbn [valid_gcm_tag_length Nat.eqb Nat.leb orb andb negb].
  rewrite decrypt_encrypt. reflexivity.
Qed.

(** What decrypting the output of [encryptMessage] gives, for any
    plaintext. *)
Lemma decrypt_encrypt_message (p k : jsstring) (w : World) :
  length (base64_decode k) = KEY_LENGTH ->
  exists e, fst (encryptMessage p k w) = Ok e
            /\ decryptMessage (ciphertext e) (iv e) k = Ok (utf8_decode (utf8_encode p)).
Proof.
  intros Hk. eexists. split.
  - apply encryptMessage_ok. exact Hk.
  - cbn [ciphertext iv]. apply decryptMessage_of_encrypted; [exact Hk|].
    now rewrite length_map, length_seq.
Qed.

(** C1 (amended). For every well-formed plaintext string [p] (one with no
    unpaired surrogate) and every base64 key [k] that decodes to exactly
    32 bytes, [encryptMessage p k] returns, and [decryptMessage] of its
    ciphertext and iv under the same key returns [p]. *)
Theorem encrypt_decrypt_roundtrip (p k : jsstring) (w : World) :
  isWellFormed p = true ->
  length (base64_decode k) = KEY_LENGTH ->
  exists e, fst (encryptMessage p k w) = Ok e
            /\ decryptMessage (ciphertext e) (iv e) k = Ok p.
Proof.
  intros Hwf Hk. destruct (decrypt_encrypt_message p k w Hk) as [e [He Hd]].
  exists e. split; [exact He|]. rewrite Hd. now rewrite utf8_decode_encode.
Qed.

Lemma InvalidKeyLength_message (n : nat) :
  exists rest, InvalidKeyLength n = Error_new (73 :: rest).
Proof. eexists. reflexivity. Qed.

Lemma decipher_not_InvalidKeyLength (key ivb c t : Buffer) (n : nat) :
  length key = KEY_LENGTH ->
  decipher_aes_256_gcm key ivb c t <> Throw (InvalidKeyLength n).
Proof.
  intros Hk. unfold decipher_aes_256_gcm. rewrite Hk. cbn [KEY_LENGTH Nat.eqb negb].
  destruct (InvalidKeyLength_message n) as [rest ->].
  destruct (length ivb =? 0)%nat; [discriminate|].
  destruct (valid_gcm_tag_length (length t)); cbn [negb]; [|discriminate].
  destruct (Gcm.decrypt key ivb c t); discriminate.
Qed.

Lemma encryptMessage_InvalidKeyLength (p k : jsstring) (w : World) :
  (exists n, fst (encryptMessage p k w) = Throw (InvalidKeyLength n))
  <-> length (base64_decode k) <> KEY_LENGTH.
Proof.
  split.
  - intros [n H] Hk. rewrite encryptMessage_ok in H by exact Hk. discriminate.
  - intros Hk. exists (length (base64_decode k)).
    unfold encryptMessage, bind, log, throw. cbn [fst].
    apply Nat.eqb_neq in Hk. now rewrite Hk.
Qed.

Lemma decryptMessage_InvalidKeyLength (c i k : jsstring) :
  (exists n, decryptMessage c i k = Throw (InvalidKeyLength n))
  <-> length (base64_decode k) <> KEY_LENGTH.
Proof.
  split.
  - intros [n H] Hk. unfold decryptMessage in H.
    rewrite Hk in H. cbn [KEY_LENGTH Nat.eqb negb] in H.
    destruct (decipher_aes_256_gcm _ _ _ _) as [pl|e] eqn:E; [discriminate|].
    injection H as ->. revert E. now apply decipher_not_InvalidKeyLength.
  - intros Hk. exists (length (base64_decode k)). unfold decryptMessage.
    apply Nat.eqb_neq in Hk. now rewrite Hk.
Qed.

(** C7. [encryptMessage] throws the invalid-key-length error exactly when
    the base64-decoded key is not 32 bytes long, and so does
    [decryptMessage]. *)
Theorem invalid_key_length_iff (p k c i : jsstring) (w : World) :
  ((exists n, fst (encryptMessage p k w) = Throw (InvalidKeyLength n))
   <-> length (base64_decode k) <> KEY_LENGTH)
  /\ ((exists n, decryptMessage c i k = Throw (InvalidKeyLength n))
      <-> length (base64_decode k) <> KEY_LENGTH).
Proof.
  split.
  - apply encryptMessage_InvalidKeyLength.
  - apply decryptMessage_InvalidKeyLength.
Qed.

Lemma base64_32_bytes (d : Buffer) :
  length d = 32%nat -> length (base64_decode (substring0 44 (base64_encode d))) = 32%nat.
Proof.
  intros Hd. unfold substring0. rewrite firstn_all2.
  - now rewrite base64_decode_encode.
  - rewrite base64_encode_length, Hd. vm_compute. lia.
Qed.

Lemma getConversationKey_run (conversationId : jsstring) (w : World) :
  getConversationKey conversationId w
  = (Ok (conversation_key (env w "MASTER_ENCRYPTION_KEY"%string) conversationId),
     add_event (EvDeriveKey conversationId) w).
Proof.
  unfold getConversationKey, bind, log, getenv, ret, conversation_key.
  cbn [env add_event].
  destruct (env w "MASTER_ENCRYPTION_KEY"%string) as [[|c m]|]; reflexivity.
Qed.

Lemma conversation_key_length (masterKey : option jsstring) (conversationId : jsstring) :
  length (base64_decode (conversation_key masterKey conversationId)) = KEY_LENGTH.
Proof.
  unfold conversation_key. destruct masterKey as [[|c m]|].
  - apply base64_32_bytes, sha256_length.
  - unfold deriveConversationKey. rewrite base64_decode_encode.
    apply hmac_sha256_length.
  - apply base64_32_bytes, sha256_length.
Qed.

Lemma conversation_key_digest (masterKey : option jsstring) (conversationId : jsstring) :
  base64_decode (conversation_key masterKey conversationId)
  = conversation_digest masterKey conversationId.
Proof.
  unfold conversation_key, conversation_digest.
  destruct masterKey as [[|c m]|].
  - unfold substring0. rewrite firstn_all2.
    + apply base64_decode_encode.
    + rewrite base64_encode_length, sha256_length. vm_compute. lia.
  - unfold deriveConversationKey. apply base64_decode_encode.
  - unfold substring0. rewrite firstn_all2.
    + apply base64_decode_encode.
    + rewrite base64_encode_length, sha256_length. vm_compute. lia.
Qed.

Lemma conversation_key_of_digest (masterKey : option jsstring) (id1 id2 : jsstring) :
  conversation_digest masterKey id1 = conversation_digest masterKey id2 ->
  conversation_key masterKey id1 = conversation_key masterKey id2.
Proof.
  unfold conversation_digest, conversation_key, deriveConversationKey.
  destruct masterKey as [[|c m]|]; now intros ->.
Qed.

(** C10. [getConversationKey] returns on the HMAC path and on the SHA-256
    fallback path alike, the key it returns decodes to exactly 32 bytes,
    and neither [encryptMessage] nor [decryptMessage] throws the
    invalid-key-length error under that key. *)
Theorem conversation_key_decodes_to_32_bytes (conversationId : jsstring) (w : World) :
  exists k,
    fst (getConversationKey conversationId w) = Ok k
    /\ length (base64_decode k) = KEY_LENGTH
    /\ (forall p w' n, fst (encryptMessage p k w') <> Throw (InvalidKeyLength n))
    /\ (forall c i n, decryptMessage c i k <> Throw (InvalidKeyLength n)).
Proof.
  rewrite getConversationKey_run. cbn [fst].
  eexists. split; [reflexivity|].
  pose proof (conversation_key_length (env w "MASTER_ENCRYPTION_KEY"%string)
                conversationId) as Hk.
  split; [exact Hk|]. split.
  - intros p w' n H.
    apply (proj1 (encryptMessage_InvalidKeyLength p _ w') (ex_intro _ n H) Hk).
  - intros c i n H.
    apply (proj1 (decryptMessage_InvalidKeyLength c i _) (ex_intro _ n H) Hk).
Qed.

Lemma sample_key_length : length (base64_decode Samples.key) = KEY_LENGTH.
Proof. vm_compute. reflexivity. Qed.

Lemma encrypt_decrypt_roundtrip_witness :
  exists e, fst (encryptMessage (js "hi") Samples.key Samples.world) = Ok e
            /\ decryptMessage (ciphertext e) (iv e) Samples.key = Ok (js "hi").
Proof.
  apply (encrypt_decrypt_roundtrip (js "hi") Samples.key Samples.world).
  - vm_compute. reflexivity.
  - vm_compute. reflexivity.
Defined.

(** C1 as stated fails: a plaintext that holds a lone surrogate comes
    back with U+FFFD in its place. *)
Lemma lone_surrogate_not_restored :
  exists e, fst (encryptMessage [0xD800] Samples.key Samples.world) = Ok e
            /\ decryptMessage (ciphertext e) (iv e) Samples.key = Ok [0xFFFD]
            /\ [0xFFFD] <> [0xD800].
Proof.
  destruct (decrypt_encrypt_message [0xD800] Samples.key Samples.world sample_key_length)
    as [e [He Hd]].
  exists e. split; [exact He|]. split; [exact Hd | discriminate].
Qed.

(** C2 (amended). [getConversationKey] is a function of the master secret
    and the conversation id alone: calls made in any two states of the
    process that hold the same master secret return the same key for the
    same id, and the call changes nothing a later call reads.  For two ids
    the keys are equal exactly when the underlying digests (HMAC-SHA256,
    or SHA-256 on the fallback path, of the UTF-8 encoded id) are equal:
    the base64 rendering merges no two digests. *)
Theorem conversation_key_function_of_secret_and_id (id1 id2 : jsstring) (w1 w2 : World) :
  env w1 "MASTER_ENCRYPTION_KEY"%string = env w2 "MASTER_ENCRYPTION_KEY"%string ->
  fst (getConversationKey id1 w1) = fst (getConversationKey id1 w2)
  /\ env (snd (getConversationKey id1 w1)) = env w1
  /\ (fst (getConversationKey id1 w1) = fst (getConversationKey id2 w2)
      <-> conversation_digest (env w1 "MASTER_ENCRYPTION_KEY"%string) id1
          = conversation_digest (env w1 "MASTER_ENCRYPTION_KEY"%string) id2).
Proof.
  intros Henv. rewrite !getConversationKey_run. cbn [fst snd add_event env].
  rewrite <- Henv. split; [reflexivity|]. split; [reflexivity|]. split.
  - intros Hk. apply Ok_inj in Hk.
    rewrite <- !conversation_key_digest. now rewrite Hk.
  - intros Hd. rewrite (conversation_key_of_digest _ _ _ Hd). reflexivity.
Qed.

Lemma conversation_key_function_of_secret_and_id_witness :
  fst (getConversationKey (js "c1") Samples.world_with_master_key)
  = fst (getConversationKey (js "c1")
           (snd (getConversationKey (js "c2") Samples.world_with_master_key)))
  /\ env (snd (getConversationKey (js "c1") Samples.world_with_master_key))
     = env Samples.world_with_master_key
  /\ (fst (getConversationKey (js "c1") Samples.world_with_master_key)
      = fst (getConversationKey (js "c2")
               (snd (getConversationKey (js "c2") Samples.world_with_master_key)))
      <-> conversation_digest
            (env Samples.world_with_master_key "MASTER_ENCRYPTION_KEY"%string) (js "c1")
          = conversation_digest
              (env Samples.world_with_master_key "MASTER_ENCRYPTION_KEY"%string) (js "c2")).
Proof.
  apply (conversation_key_function_of_secret_and_id (js "c1") (js "c2")
           Samples.world_with_master_key
           (snd (getConversationKey (js "c2") Samples.world_with_master_key))).
  reflexivity.
Defined.

Lemma lone_surrogate_digest (masterKey : option jsstring) :
  conversation_digest masterKey [0xD800] = conversation_digest masterKey [0xFFFD].
Proof.
  unfold conversation_digest.
  replace (utf8_encode [0xD800]) with (utf8_encode [0xFFFD]) by (vm_compute; reflexivity).
  replace (utf8_encode (js "conversation-key-" ++ [0xD800]))
    with (utf8_encode (js "conversation-key-" ++ [0xFFFD])) by (vm_compute; reflexivity).
  reflexivity.
Qed.

(** C2 as stated fails: two ids that differ in a lone surrogate have the
    same UTF-8 form and so the same key, with or without a master
    secret. *)
Lemma distinct_ids_same_key :
  [0xD800] <> [0xFFFD]
  /\ fst (getConversationKey [0xD800] Samples.world_with_master_key)
     = fst (getConversationKey [0xFFFD] Samples.world_with_master_key)
  /\ fst (getConversationKey [0xD800] Samples.world)
     = fst (getConversationKey [0xFFFD] Samples.world).
Proof.
  split; [discriminate|]. split.
  - rewrite !getConversationKey_run. cbn [fst].
    rewrite (conversation_key_of_digest _ _ _ (lone_surrogate_digest _)). reflexivity.
  - rewrite !getConversationKey_run. cbn [fst].
    rewrite (conversation_key_of_digest _ _ _ (lone_surrogate_digest _)). reflexivity.
Qed.

End EncryptionFacts.
(** ** src/services/messageService.ts *)

Module ServiceFacts.
Import BufferFacts Utf8Facts CryptoFacts EncryptionFacts SortingFacts.

Lemma encryptMessage_run (p k : jsstring) (w : World) :
  length (base64_decode k) = KEY_LENGTH ->
  let ivb := map (entropy w) (seq (entropy_pos w) IV_LENGTH) in
  let out := Gcm.encrypt (base64_decode k) ivb (utf8_encode p) in
  encryptMessage p k w
  = (Ok {| ciphertext := base64_encode (fst out ++ snd out); iv := base64_encode ivb |},
     advance_entropy IV_LENGTH (add_event (EvEncrypt p) w)).
Proof.
  intros Hk ivb out.
  unfold encryptMessage, bind, log, throw, randomBytes, lift, ret.
  rewrite Hk. cbn [Nat.eqb KEY_LENGTH negb add_event entropy entropy_pos].
  unfold cipher_aes_256_gcm. rewrite Hk.
  cbn [Nat.eqb KEY_LENGTH negb].
  rewrite length_map, length_seq. cbn [IV_LENGTH Nat.eqb fst snd].
  rewrite base64_decode_encode. reflexivity.
Qed.

Lemma not_authorized_to_send (number : Z) :
  is_not_authorized (RequestError number NOT_AUTHORIZED_TO_SEND) = true
  /\ is_not_authorized (Error_new NOT_AUTHORIZED_TO_SEND) = true.
Proof. split; vm_compute; reflexivity. Qed.

Lemma not_authorized_to_view :
  is_not_authorized (Error_new NOT_AUTHORIZED_TO_VIEW) = true.
Proof. vm_compute. reflexivity. Qed.

(** The state in which the batch of [createMessage] starts. *)
Lemma createMessage_prefix (messageId c u : jsstring) (payload : CreateMessagePayload)
    (w : World) :
  exists enc,
    createMessage messageId c u payload w
    = try_catch
        (send_batch messageId c u (ciphertext enc) (iv enc) (payload_createdAt payload) ;;
         d <- get_db ;;
         match select_created d messageId with
         | row :: _ =>
             ret {| id := M_Id (fst row);
                    conversationId := M_ConversationId (fst row);
                    senderId := M_SenderId (fst row);
                    text := payload_text payload;
                    createdAt := M_CreatedAt (fst row);
                    editedAt := None;
                    deletedAt := None;
                    replyToMessageId := None;
                    senderName := string_or_null (U_DisplayName (snd row));
                    senderAvatar := string_or_null (U_AvatarUrl (snd row)) |}
         | [] => throw (TypeError (js "Cannot read properties of undefined (reading 'Id')"))
         end)
        (fun error =>
           if is_not_authorized error
           then throw (Error_new NOT_AUTHORIZED_TO_SEND)
           else throw error)
        (advance_entropy IV_LENGTH
           (add_event (EvEncrypt (payload_text payload)) (add_event (EvDeriveKey c) w))).
Proof.
  eexists. unfold createMessage. unfold bind at 1. rewrite getConversationKey_run.
  unfold bind at 1. rewrite encryptMessage_run by apply conversation_key_length.
  reflexivity.
Qed.

Lemma createMessage_unauthorized (messageId c u : jsstring) (payload : CreateMessagePayload)
    (t : Z) (w : World) :
  payload_createdAt payload = Some t ->
  datetime2_in_range t = true ->
  is_active_participant (db w) c u = false ->
  createMessage messageId c u payload w
  = (Throw (Error_new NOT_AUTHORIZED_TO_SEND),
     add_event (EvAuthCheck c u false)
       (advance_entropy IV_LENGTH
          (add_event (EvEncrypt (payload_text payload)) (add_event (EvDeriveKey c) w)))).
Proof.
  intros Ht Hr Hauth. destruct (createMessage_prefix messageId c u payload w) as [enc ->].
  unfold try_catch, send_batch, bind, get_db, log, throw. rewrite Ht, Hr.
  cbn [negb db advance_entropy add_event]. rewrite Hauth. cbn [negb].
  now rewrite (proj1 (not_authorized_to_send 50000)).
Qed.

Lemma createMessage_invalid_date (messageId c u : jsstring) (payload : CreateMessagePayload)
    (w : World) :
  payload_createdAt payload = None ->
  createMessage messageId c u payload w
  = (Throw (validation_failed "CreatedAt" "Invalid date."),
     advance_entropy IV_LENGTH
       (add_event (EvEncrypt (payload_text payload)) (add_event (EvDeriveKey c) w))).
Proof.
  intros Ht. destruct (createMessage_prefix messageId c u payload w) as [enc ->].
  unfold try_catch, send_batch, bind, throw. rewrite Ht.
  replace (is_not_authorized (validation_failed "CreatedAt" "Invalid date."))
    with false by (vm_compute; reflexivity).
  reflexivity.
Qed.

(** A date the column cannot hold is refused likewise, before the batch
    is sent. *)
Lemma createMessage_out_of_range (messageId c u : jsstring) (payload : CreateMessagePayload)
    (t : Z) (w : World) :
  payload_createdAt payload = Some t ->
  datetime2_in_range t = false ->
  createMessage messageId c u payload w
  = (Throw (validation_failed "CreatedAt" "Out of range."),
     advance_entropy IV_LENGTH
       (add_event (EvEncrypt (payload_text payload)) (add_event (EvDeriveKey c) w))).
Proof.
  intros Ht Hr. destruct (createMessage_prefix messageId c u payload w) as [enc ->].
  unfold try_catch, send_batch, bind, throw. rewrite Ht, Hr. cbn [negb].
  replace (is_not_authorized (validation_failed "CreatedAt" "Out of range."))
    with false by (vm_compute; reflexivity).
  reflexivity.
Qed.


Lemma existsb_str_eqb {A : Type} (key : A -> jsstring) (k : jsstring) (l : list A) :
  existsb (fun x => str_eqb (key x) k) l = true <-> exists x, In x l /\ key x = k.
Proof.
  rewrite existsb_exists. split; intros [x [Hin Hx]]; exists x; split; auto;
    now apply str_eqb_eq.
Qed.

Lemma active_participant_row (d : Database) (c u : jsstring) :
  is_active_participant d c u = true <->
  exists p, In p (ConversationParticipants d)
            /\ P_ConversationId p = c /\ P_UserId p = u /\ P_LeftAt p = None.
Proof.
  unfold is_active_participant. rewrite existsb_exists.
  split; intros [p [Hin Hp]]; exists p; split; auto.
  - rewrite !andb_true_iff, !str_eqb_eq in Hp. destruct Hp as [[Hc Hu] Hl].
    destruct (P_LeftAt p); [discriminate | auto].
  - destruct Hp as [-> [-> ->]]. now rewrite !str_eqb_refl.
Qed.

Lemma active_participant_references (d : Database) (c u : jsstring) :
  foreign_keys_hold d = true ->
  is_active_participant d c u = true ->
  existsb (fun x => str_eqb (C_Id x) c) (Conversations d) = true
  /\ existsb (fun x => str_eqb (U_Id x) u) (Users d) = true.
Proof.
  intros Hfk Hact. apply active_participant_row in Hact.
  destruct Hact as [p [Hin [Hc [Hu _]]]].
  unfold foreign_keys_hold in Hfk. rewrite forallb_forall in Hfk.
  specialize (Hfk p Hin). apply andb_true_iff in Hfk. now subst.
Qed.

Lemma filter_none {A : Type} (f : A -> bool) (l : list A) :
  (forall x, In x l -> f x = false) -> filter f l = [].
Proof.
  induction l as [|a l IH]; intros H; [reflexivity|].
  cbn [filter]. rewrite (H a (or_introl eq_refl)). apply IH.
  intros x Hx. apply H. now right.
Qed.

Lemma filter_all {A : Type} (f : A -> bool) (l : list A) :
  (forall x, In x l -> f x = true) -> filter f l = l.
Proof.
  induction l as [|a l IH]; intros H; [reflexivity|].
  cbn [filter]. rewrite (H a (or_introl eq_refl)). f_equal. apply IH.
  intros x Hx. apply H. now right.
Qed.

Lemma in_messages_join_users (d : Database) (r : MessageRow * UserRow) :
  In r (messages_join_users d) <->
  In (fst r) (Messages d) /\ In (snd r) (Users d) /\ M_SenderId (fst r) = U_Id (snd r).
Proof.
  unfold messages_join_users. rewrite in_flat_map. split.
  - intros [m [Hm Hr]]. apply in_map_iff in Hr. destruct Hr as [x [<- Hx]].
    apply filter_In in Hx. destruct Hx as [Hx He]. apply str_eqb_eq in He.
    cbn [fst snd]. auto.
  - intros [Hm [Hu He]]. exists (fst r). split; [exact Hm|].
    apply in_map_iff. exists (snd r). split; [now destruct r|].
    apply filter_In. split; [exact Hu|]. now apply str_eqb_eq.
Qed.

(** The row a successful batch has inserted is the one the final SELECT
    of [createMessage] reads back. *)
Lemma select_created_inserted (d : Database) (row : MessageRow) :
  existsb (fun m => str_eqb (M_Id m) (M_Id row)) (Messages d) = false ->
  existsb (fun x => str_eqb (U_Id x) (M_SenderId row)) (Users d) = true ->
  exists x rest,
    U_Id x = M_SenderId row
    /\ forall d', Users d' = Users d -> Messages d' = Messages d ++ [row] ->
                  select_created d' (M_Id row) = (row, x) :: rest.
Proof.
  intros Hfresh Huser.
  destruct (filter (fun x => str_eqb (M_SenderId row) (U_Id x)) (Users d))
    as [|x us] eqn:Hf.
  { exfalso. apply existsb_str_eqb in Huser. destruct Huser as [x [Hin Hx]].
    assert (Hx' : In x (filter (fun x => str_eqb (M_SenderId row) (U_Id x)) (Users d))).
    { apply filter_In. split; [exact Hin|]. now apply str_eqb_eq. }
    rewrite Hf in Hx'. destruct Hx'. }
  exists x, (map (pair row) us). split.
  { assert (Hx : In x (filter (fun x => str_eqb (M_SenderId row) (U_Id x)) (Users d)))
      by (rewrite Hf; now left).
    apply filter_In in Hx. destruct Hx as [_ Hx]. apply str_eqb_eq in Hx. now symmetry. }
  intros d' HU HM. unfold select_created, messages_join_users.
  rewrite HM, HU, flat_map_app, filter_app.
  rewrite filter_none.
  - cbn [flat_map app]. rewrite app_nil_r, Hf. rewrite filter_all; [reflexivity|].
    intros r Hr. apply in_map_iff in Hr. destruct Hr as [y [<- _]].
    cbn [fst]. apply str_eqb_refl.
  - intros r Hr. apply in_flat_map in Hr. destruct Hr as [m [Hm Hr]].
    apply in_map_iff in Hr. destruct Hr as [y [<- _]]. cbn [fst].
    destruct (str_eqb (M_Id m) (M_Id row)) eqn:E; [|reflexivity].
    exfalso. apply str_eqb_eq in E.
    assert (Hex : existsb (fun m => str_eqb (M_Id m) (M_Id row)) (Messages d) = true).
    { apply existsb_exists. exists m. split; [exact Hm|]. now apply str_eqb_eq. }
    congruence.
Qed.


(** A send by an active participant, with a date, a fresh message id and
    a database whose foreign keys hold, inserts the row, moves the
    conversation pointer and returns the message with its plaintext. *)
Lemma createMessage_authorized (messageId c u : jsstring) (payload : CreateMessagePayload)
    (t : Z) (w : World) :
  payload_createdAt payload = Some t ->
  datetime2_in_range t = true ->
  is_active_participant (db w) c u = true ->
  foreign_keys_hold (db w) = true ->
  existsb (fun m => str_eqb (M_Id m) messageId) (Messages (db w)) = false ->
  exists m w' enc,
    createMessage messageId c u payload w = (Ok m, w')
    /\ id m = messageId /\ conversationId m = c /\ senderId m = u
    /\ text m = payload_text payload /\ createdAt m = t
    /\ fst (encryptMessage (payload_text payload)
              (conversation_key (env w "MASTER_ENCRYPTION_KEY"%string) c)
              (add_event (EvDeriveKey c) w)) = Ok enc
    /\ db w' = update_conversation c messageId t (now w)
                 {| Users := Users (db w);
                    Conversations := Conversations (db w);
                    ConversationParticipants := ConversationParticipants (db w);
                    Messages :=
                      Messages (db w)
                        ++ [{| M_Id := messageId; M_ConversationId := c; M_SenderId := u;
                               M_Ciphertext := ciphertext enc; M_IV := iv enc;
                               M_CreatedAt := t; M_EditedAt := None;
                               M_DeletedAt := None; M_ReplyToMessageId := None |}] |}.
Proof.
  intros Ht Hr Hauth Hfk Hfresh.
  destruct (active_participant_references _ _ _ Hfk Hauth) as [Hconv Huser].
  unfold createMessage. unfold bind at 1. rewrite getConversationKey_run.
  unfold bind at 1.
  pose proof (encryptMessage_run (payload_text payload)
                (conversation_key (env w "MASTER_ENCRYPTION_KEY"%string) c)
                (add_event (EvDeriveKey c) w)
                (conversation_key_length _ _)) as Hrun.
  cbv zeta in Hrun. rewrite Hrun. clear Hrun.
  match goal with
  | |- context [(Ok ?e, advance_entropy _ _)] => set (enc := e)
  end.
  set (row := {| M_Id := messageId; M_ConversationId := c; M_SenderId := u;
                 M_Ciphertext := ciphertext enc; M_IV := iv enc;
                 M_CreatedAt := t; M_EditedAt := None;
                 M_DeletedAt := None; M_ReplyToMessageId := None |}).
  destruct (select_created_inserted (db w) row Hfresh Huser) as [x [rest [Hx Hsel]]].
  unfold try_catch, send_batch, bind, get_db, log, GETUTCDATE, put_db, throw, ret.
  rewrite Ht, Hr. cbn [negb db advance_entropy add_event now set_db].
  rewrite Hauth. cbn [negb].
  fold row. unfold insert_message. cbn [M_Id M_ConversationId M_SenderId row].
  rewrite Hfresh, Hconv, Huser. cbn [negb db advance_entropy add_event now set_db].
  change (M_Id row) with messageId in Hsel.
  rewrite (Hsel (update_conversation c messageId t (now w) _)) by reflexivity.
  eexists. eexists. exists enc.
  split; [reflexivity|]. cbn [id conversationId senderId text createdAt fst snd row
                                M_Id M_ConversationId M_SenderId M_CreatedAt db].
  repeat split; reflexivity.
Qed.

Lemma getMessages_unauthorized (c u : jsstring) (params : MessageQueryParams) (w : World) :
  is_active_participant (db w) c u = false ->
  getMessages c u params w
  = (Throw (Error_new NOT_AUTHORIZED_TO_VIEW), add_event (EvAuthCheck c u false) w).
Proof.
  intros Hauth. unfold getMessages, isUserAuthorized, bind, get_db, log, ret, throw.
  now rewrite Hauth.
Qed.

Lemma getMessages_authorized (c u : jsstring) (params : MessageQueryParams) (w : World) :
  is_active_participant (db w) c u = true ->
  getMessages c u params w
  = match select_page (db w) c (boundary_of (db w) params)
            (number_or (offset params) 0) (Z.min (number_or (limit params) 50) 100) with
    | Ok result =>
        (Ok {| data := map (decrypt_row
                              (conversation_key (env w "MASTER_ENCRYPTION_KEY"%string) c))
                           result;
               total := count_messages (db w) c;
               hasMore := number_or (offset params) 0 + Z.of_nat (length result)
                          <? count_messages (db w) c |},
         add_event (EvDeriveKey c) (add_event (EvAuthCheck c u true) w))
    | Throw e => (Throw e, add_event (EvAuthCheck c u true) w)
    end.
Proof.
  intros Hauth. unfold getMessages, isUserAuthorized, bind, get_db, log, ret, throw, lift.
  rewrite Hauth. cbn [negb db add_event].
  destruct (select_page _ _ _ _ _) as [result|e]; [|reflexivity].
  rewrite getConversationKey_run. reflexivity.
Qed.

Lemma number_or_limit_positive (x : option Z) : 0 <= number_or x 50 -> 1 <= number_or x 50.
Proof.
  unfold number_or. destruct x as [v|]; [|lia].
  destruct (Z.eqb_spec v 0); lia.
Qed.

Lemma select_page_accepted (d : Database) (c : jsstring) (b : Boundary) (off lim : Z) :
  0 <= off <= 2147483647 -> 1 <= lim <= 100 ->
  select_page d c b off lim
  = Ok (firstn (Z.to_nat lim) (skipn (Z.to_nat off) (visible_rows d c b))).
Proof.
  intros Hoff Hlim. unfold select_page, sql_int.
  replace (-2147483648 <=? off) with true by (symmetry; apply Z.leb_le; lia).
  replace (off <=? 2147483647) with true by (symmetry; apply Z.leb_le; lia).
  replace (-2147483648 <=? lim) with true by (symmetry; apply Z.leb_le; lia).
  replace (lim <=? 2147483647) with true by (symmetry; apply Z.leb_le; lia).
  replace (off <? 0) with false by (symmetry; apply Z.ltb_ge; lia).
  replace (lim <? 1) with false by (symmetry; apply Z.ltb_ge; lia).
  reflexivity.
Qed.

Lemma getMessages_accepted (c u : jsstring) (params : MessageQueryParams) (w : World) :
  is_active_participant (db w) c u = true ->
  0 <= number_or (offset params) 0 <= 2147483647 ->
  0 <= number_or (limit params) 50 ->
  let rows :=
    firstn (Z.to_nat (Z.min (number_or (limit params) 50) 100))
      (skipn (Z.to_nat (number_or (offset params) 0))
         (visible_rows (db w) c (boundary_of (db w) params))) in
  getMessages c u params w
  = (Ok {| data := map (decrypt_row
                          (conversation_key (env w "MASTER_ENCRYPTION_KEY"%string) c))
                       rows;
           total := count_messages (db w) c;
           hasMore := number_or (offset params) 0 + Z.of_nat (length rows)
                      <? count_messages (db w) c |},
     add_event (EvDeriveKey c) (add_event (EvAuthCheck c u true) w)).
Proof.
  intros Hauth Hoff Hlim rows. rewrite getMessages_authorized by exact Hauth.
  apply number_or_limit_positive in Hlim.
  rewrite select_page_accepted by lia. reflexivity.
Qed.


(** C3 (amended). A user with no active participant row gets the
    NotAuthorized error from [getMessages], and from [createMessage]
    whenever the send carries a date the store can hold (an instant of
    the years 1 to 9999); the database is left as it was: no message row
    is written and no conversation pointer moves.  For a user with an
    active row both calls return: [getMessages] for every paging the
    store accepts, [createMessage] for such a date, a fresh message id
    and a database whose foreign keys hold.  A send whose [createdAt] is
    no date, or a date outside those years, is refused by the driver for
    every sender, participant or not, with a validation error that is not
    the NotAuthorized error, and nothing is written. *)
Theorem authorization_gate (c u : jsstring) (w : World) :
  (is_active_participant (db w) c u = false ->
   (forall params, exists e w',
       getMessages c u params w = (Throw e, w')
       /\ e = Error_new NOT_AUTHORIZED_TO_VIEW /\ is_not_authorized e = true
       /\ db w' = db w)
   /\ (forall messageId payload t,
         payload_createdAt payload = Some t ->
         datetime2_in_range t = true ->
         exists e w',
           createMessage messageId c u payload w = (Throw e, w')
           /\ e = Error_new NOT_AUTHORIZED_TO_SEND /\ is_not_authorized e = true
           /\ db w' = db w))
  /\ (is_active_participant (db w) c u = true ->
      (forall params,
          0 <= number_or (offset params) 0 <= 2147483647 ->
          0 <= number_or (limit params) 50 ->
          exists page, fst (getMessages c u params w) = Ok page)
      /\ (forall messageId payload t,
            payload_createdAt payload = Some t ->
            datetime2_in_range t = true ->
            foreign_keys_hold (db w) = true ->
            existsb (fun m => str_eqb (M_Id m) messageId) (Messages (db w)) = false ->
            exists m, fst (createMessage messageId c u payload w) = Ok m
                      /\ id m = messageId /\ text m = payload_text payload))
  /\ (forall messageId payload,
         match payload_createdAt payload with
         | Some t => datetime2_in_range t = false
         | None => True
         end ->
         exists e w',
           createMessage messageId c u payload w = (Throw e, w')
           /\ e = validation_failed "CreatedAt"
                    match payload_createdAt payload with
                    | Some _ => "Out of range."
                    | None => "Invalid date."
                    end
           /\ is_not_authorized e = false
           /\ db w' = db w).
Proof.
  split; [|split]; [intros Hauth; split | intros Hauth; split |].
  - intros params. eexists. eexists.
    split; [now apply getMessages_unauthorized|].
    split; [reflexivity|]. split; [apply not_authorized_to_view | reflexivity].
  - intros messageId payload t Ht Hr. eexists. eexists.
    split; [now apply (createMessage_unauthorized messageId c u payload t)|].
    split; [reflexivity|].
    split; [apply (not_authorized_to_send 0) | reflexivity].
  - intros params Hoff Hlim. eexists.
    rewrite getMessages_accepted by assumption. reflexivity.
  - intros messageId payload t Ht Hr Hfk Hfresh.
    destruct (createMessage_authorized messageId c u payload t w Ht Hr Hauth Hfk Hfresh)
      as [m [w' [enc [Hrun [Hid [_ [_ [Htext _]]]]]]]].
    exists m. rewrite Hrun. auto.
  - intros messageId payload Hdate.
    destruct (payload_createdAt payload) as [t|] eqn:Ht.
    + eexists. eexists.
      split; [now apply (createMessage_out_of_range messageId c u payload t)|].
      split; [reflexivity|]. split; [vm_compute; reflexivity | reflexivity].
    + eexists. eexists.
      split; [now apply createMessage_invalid_date|].
      split; [reflexivity|]. split; [vm_compute; reflexivity | reflexivity].
Qed.

Lemma authorization_gate_witness :
  (exists e w',
      getMessages (js "c1") (js "bob") Samples.no_params Samples.world = (Throw e, w')
      /\ e = Error_new NOT_AUTHORIZED_TO_VIEW /\ is_not_authorized e = true
      /\ db w' = db Samples.world)
  /\ (exists e w',
         createMessage (js "m1") (js "c1") (js "bob") Samples.hello Samples.world
         = (Throw e, w')
         /\ e = Error_new NOT_AUTHORIZED_TO_SEND /\ is_not_authorized e = true
         /\ db w' = db Samples.world)
  /\ (exists page,
         fst (getMessages (js "c1") (js "alice") Samples.no_params Samples.world) = Ok page)
  /\ (exists m,
         fst (createMessage (js "m1") (js "c1") (js "alice") Samples.hello Samples.world)
         = Ok m
         /\ id m = js "m1" /\ text m = payload_text Samples.hello)
  /\ (exists e w',
         createMessage (js "m1") (js "c1") (js "alice")
           {| payload_conversationId := js "c1"; payload_text := js "hello";
              payload_createdAt := Some 253402300800000 |} Samples.world
         = (Throw e, w')
         /\ e = validation_failed "CreatedAt" "Out of range."
         /\ is_not_authorized e = false
         /\ db w' = db Samples.world).
Proof.
  pose proof (proj1 (authorization_gate (js "c1") (js "bob") Samples.world)
                ltac:(vm_compute; reflexivity)) as [Hview Hsend].
  pose proof (proj1 (proj2 (authorization_gate (js "c1") (js "alice") Samples.world))
                ltac:(vm_compute; reflexivity)) as [Hget Hcreate].
  pose proof (proj2 (proj2 (authorization_gate (js "c1") (js "alice") Samples.world)))
    as Hrefused.
  split; [apply Hview|]. split.
  - apply (Hsend (js "m1") Samples.hello 42); reflexivity.
  - split.
    + apply Hget; [vm_compute; split; discriminate | vm_compute; discriminate].
    + split.
      * apply (Hcreate (js "m1") Samples.hello 42); vm_compute; reflexivity.
      * apply (Hrefused (js "m1")
                 {| payload_conversationId := js "c1"; payload_text := js "hello";
                    payload_createdAt := Some 253402300800000 |}).
        reflexivity.
Defined.

(** C3 as stated fails on a send whose date the driver refuses: a user
    with no active row gets a validation error, not the NotAuthorized
    error, when [createdAt] is no date; and the send of an active
    participant does not succeed when the date lies after the year
    9999. *)
Lemma refused_date_precedes_authorization :
  is_active_participant (db Samples.world) (js "c1") (js "bob") = false
  /\ fst (createMessage (js "m1") (js "c1") (js "bob")
            {| payload_conversationId := js "c1"; payload_text := js "hello";
               payload_createdAt := None |} Samples.world)
     = Throw (validation_failed "CreatedAt" "Invalid date.")
  /\ is_not_authorized (validation_failed "CreatedAt" "Invalid date.") = false
  /\ is_active_participant (db Samples.world) (js "c1") (js "alice") = true
  /\ foreign_keys_hold (db Samples.world) = true
  /\ fst (createMessage (js "m1") (js "c1") (js "alice")
            {| payload_conversationId := js "c1"; payload_text := js "hello";
               payload_createdAt := Some 253402300800000 |} Samples.world)
     = Throw (validation_failed "CreatedAt" "Out of range.").
Proof. repeat split; vm_compute; reflexivity. Qed.

(** The rows a page is cut from: the join of [Messages] with [Users],
    restricted to the conversation, to the rows not deleted and to the
    timestamp boundary. *)
Lemma visible_rows_spec (d : Database) (c : jsstring) (b : Boundary) :
  Permutation (visible_rows d c b)
    (filter (fun r => str_eqb (M_ConversationId (fst r)) c
                      && is_null (M_DeletedAt (fst r))
                      && within b (M_CreatedAt (fst r)))
            (messages_join_users d))
  /\ StronglySorted (fun a b => M_CreatedAt (fst a) <= M_CreatedAt (fst b))
                    (visible_rows d c b).
Proof.
  unfold visible_rows. split; [apply sort_by_perm|].
  apply (sort_by_sorted (fun r => M_CreatedAt (fst r))).
Qed.

Lemma visible_row_in (d : Database) (c : jsstring) (b : Boundary) (r : MessageRow * UserRow) :
  In r (visible_rows d c b) ->
  In (fst r) (Messages d) /\ M_ConversationId (fst r) = c /\ M_DeletedAt (fst r) = None.
Proof.
  unfold visible_rows. rewrite sort_by_In, filter_In, in_messages_join_users.
  rewrite !andb_true_iff, str_eqb_eq. intros [[Hm _] [[Hc Hd] _]].
  destruct (M_DeletedAt (fst r)); [discriminate | auto].
Qed.

(** C4 (amended). An authorized [getMessages] call with a paging the
    store accepts returns a page cut from the conversation's non-deleted
    rows in ascending order of creation time: the messages are the rows
    that follow the first [offset] ones, at most [min(limit, 100)] of
    them, where a missing or zero limit counts as 50; and [hasMore] says
    whether offset plus the number returned is below the conversation's
    count of non-deleted messages. *)
Theorem getMessages_page (c u : jsstring) (params : MessageQueryParams) (w : World) :
  is_active_participant (db w) c u = true ->
  0 <= number_or (offset params) 0 <= 2147483647 ->
  0 <= number_or (limit params) 50 ->
  exists page rows,
    fst (getMessages c u params w) = Ok page
    /\ Permutation rows
         (filter (fun r => str_eqb (M_ConversationId (fst r)) c
                           && is_null (M_DeletedAt (fst r))
                           && within (boundary_of (db w) params) (M_CreatedAt (fst r)))
                 (messages_join_users (db w)))
    /\ StronglySorted (fun a b => M_CreatedAt (fst a) <= M_CreatedAt (fst b)) rows
    /\ map id (data page)
       = map (fun r => M_Id (fst r))
             (firstn (Z.to_nat (Z.min (number_or (limit params) 50) 100))
                     (skipn (Z.to_nat (number_or (offset params) 0)) rows))
    /\ (forall m, In m (data page) ->
                  exists row, In row (Messages (db w))
                              /\ M_Id row = id m /\ M_CreatedAt row = createdAt m
                              /\ M_ConversationId row = c /\ M_DeletedAt row = None)
    /\ StronglySorted (fun a b => createdAt a <= createdAt b) (data page)
    /\ Z.of_nat (length (data page)) <= Z.min (number_or (limit params) 50) 100
    /\ total page = count_messages (db w) c
    /\ hasMore page
       = (number_or (offset params) 0 + Z.of_nat (length (data page)) <? total page).
Proof.
  intros Hauth Hoff Hlim.
  destruct (visible_rows_spec (db w) c (boundary_of (db w) params)) as [Hperm Hsorted].
  eexists. exists (visible_rows (db w) c (boundary_of (db w) params)).
  rewrite getMessages_accepted by assumption. cbn [fst].
  split; [reflexivity|]. cbn [data total hasMore].
  split; [exact Hperm|]. split; [exact Hsorted|].
  set (rows := firstn _ (skipn _ _)).
  split; [now rewrite map_map|]. split; [|split; [|split; [|split]]].
  - intros m Hm. apply in_map_iff in Hm. destruct Hm as [r [<- Hr]].
    subst rows. apply in_firstn, in_skipn, visible_row_in in Hr.
    destruct Hr as [Hin [Hc Hd]]. exists (fst r). cbn [id createdAt decrypt_row]. auto.
  - apply StronglySorted_map
      with (R := fun a b => M_CreatedAt (fst a) <= M_CreatedAt (fst b)); [auto|].
    subst rows. now apply StronglySorted_firstn, StronglySorted_skipn.
  - rewrite length_map. subst rows. rewrite length_firstn.
    apply number_or_limit_positive in Hlim. lia.
  - reflexivity.
  - now rewrite length_map.
Qed.

Lemma getMessages_page_witness :
  exists page rows,
    fst (getMessages (js "c1") (js "alice")
           {| limit := Some 1; offset := Some 1; before := None; after := None |}
           Samples.world_with_messages) = Ok page
    /\ Permutation rows [(Samples.message_2, Samples.alice); (Samples.message_1, Samples.alice)]
    /\ StronglySorted (fun a b => M_CreatedAt (fst a) <= M_CreatedAt (fst b)) rows
    /\ map id (data page) = map (fun r => M_Id (fst r)) (firstn 1 (skipn 1 rows))
    /\ (forall m, In m (data page) ->
                  exists row, In row [Samples.message_2; Samples.message_1]
                              /\ M_Id row = id m /\ M_CreatedAt row = createdAt m
                              /\ M_ConversationId row = js "c1" /\ M_DeletedAt row = None)
    /\ StronglySorted (fun a b => createdAt a <= createdAt b) (data page)
    /\ Z.of_nat (length (data page)) <= 1
    /\ total page = 2
    /\ hasMore page = (1 + Z.of_nat (length (data page)) <? total page).
Proof.
  apply (getMessages_page (js "c1") (js "alice")
           {| limit := Some 1; offset := Some 1; before := None; after := None |}
           Samples.world_with_messages).
  - vm_compute. reflexivity.
  - vm_compute. split; discriminate.
  - vm_compute. discriminate.
Defined.

(** C4 as stated fails: with [limit = 0] the page is not empty. *)
Lemma zero_limit_returns_rows :
  exists page,
    fst (getMessages (js "c1") (js "alice")
           {| limit := Some 0; offset := None; before := None; after := None |}
           Samples.world_with_messages) = Ok page
    /\ map id (data page) = [js "m1"; js "m2"]
    /\ Z.min 0 100 < Z.of_nat (length (data page)).
Proof.
  eexists. split; [vm_compute; reflexivity|]. split; vm_compute; reflexivity.
Qed.

(** C5. Whatever decryption does on the rows, an authorized [getMessages]
    call the store accepts returns: it hands back one message per fetched
    row, in order; a row whose decryption throws carries the placeholder
    text, and every row whose decryption succeeds carries its plaintext. *)
Theorem decryption_failure_is_row_scoped (c u : jsstring) (params : MessageQueryParams)
    (w : World) :
  is_active_participant (db w) c u = true ->
  0 <= number_or (offset params) 0 <= 2147483647 ->
  0 <= number_or (limit params) 50 ->
  exists page rows key,
    fst (getMessages c u params w) = Ok page
    /\ select_page (db w) c (boundary_of (db w) params)
         (number_or (offset params) 0) (Z.min (number_or (limit params) 50) 100) = Ok rows
    /\ fst (getConversationKey c w) = Ok key
    /\ Forall2 (fun row m =>
                  id m = M_Id (fst row)
                  /\ (forall e, decryptMessage (M_Ciphertext (fst row)) (M_IV (fst row)) key
                                = Throw e -> text m = COULD_NOT_DECRYPT)
                  /\ (forall plaintext,
                         decryptMessage (M_Ciphertext (fst row)) (M_IV (fst row)) key
                         = Ok plaintext -> text m = plaintext))
               rows (data page).
Proof.
  intros Hauth Hoff Hlim. eexists. eexists. eexists.
  rewrite getMessages_accepted by assumption.
  rewrite select_page_accepted by (apply number_or_limit_positive in Hlim; lia).
  rewrite getConversationKey_run. cbn [fst].
  split; [reflexivity|]. split; [reflexivity|]. split; [reflexivity|].
  cbn [data].
  induction (firstn _ _) as [|row rows IH]; cbn [map]; constructor; [|exact IH].
  cbn [id text decrypt_row]. split; [reflexivity|].
  split; [intros e -> | intros plaintext ->]; reflexivity.
Qed.

Lemma decryption_failure_is_row_scoped_witness :
  exists page rows key,
    fst (getMessages (js "c1") (js "alice") Samples.no_params Samples.world_with_messages)
    = Ok page
    /\ select_page (db Samples.world_with_messages) (js "c1")
         (boundary_of (db Samples.world_with_messages) Samples.no_params)
         (number_or (offset Samples.no_params) 0)
         (Z.min (number_or (limit Samples.no_params) 50) 100) = Ok rows
    /\ fst (getConversationKey (js "c1") Samples.world_with_messages) = Ok key
    /\ Forall2 (fun row m =>
                  id m = M_Id (fst row)
                  /\ (forall e, decryptMessage (M_Ciphertext (fst row)) (M_IV (fst row)) key
                                = Throw e -> text m = COULD_NOT_DECRYPT)
                  /\ (forall plaintext,
                         decryptMessage (M_Ciphertext (fst row)) (M_IV (fst row)) key
                         = Ok plaintext -> text m = plaintext))
               rows (data page).
Proof.
  apply (decryption_failure_is_row_scoped (js "c1") (js "alice") Samples.no_params
           Samples.world_with_messages).
  - vm_compute. reflexivity.
  - vm_compute. split; discriminate.
  - vm_compute. discriminate.
Defined.

(** A concrete run: the first stored envelope opens, the damaged one
    degrades to the placeholder, and the call returns both. *)
Example getMessages_sample_texts :
  exists page,
    fst (getMessages (js "c1") (js "alice") Samples.no_params Samples.world_with_messages)
    = Ok page
    /\ map text (data page) = [js "hello"; COULD_NOT_DECRYPT]
    /\ hasMore page = false /\ total page = 2.
Proof.
  eexists. split; [vm_compute; reflexivity|].
  repeat split; vm_compute; reflexivity.
Qed.

End ServiceFacts.
Module OrderFacts.
Import BufferFacts EncryptionFacts ServiceFacts.

(** C8 (amended). [createMessage] derives the conversation key and
    encrypts the plaintext first; the check that the sender is an active
    participant follows, inside the batch that writes the row, and is not
    made at all when the driver refuses the date (no date, or one outside
    the years 1 to 9999).  For a sender who is not an active participant
    the key has been derived and the plaintext encrypted, and the
    database is left as it was. *)
Theorem createMessage_order (messageId c u : jsstring) (payload : CreateMessagePayload)
    (w : World) :
  trace (snd (createMessage messageId c u payload w))
  = trace w ++ [EvDeriveKey c; EvEncrypt (payload_text payload)]
      ++ match payload_createdAt payload with
         | Some t =>
             if datetime2_in_range t
             then [EvAuthCheck c u (is_active_participant (db w) c u)]
             else []
         | None => []
         end
  /\ (is_active_participant (db w) c u = false ->
      db (snd (createMessage messageId c u payload w)) = db w).
Proof.
  destruct (payload_createdAt payload) as [t|] eqn:Ht.
  2:{ rewrite createMessage_invalid_date by exact Ht.
      cbn [snd trace db advance_entropy add_event]. rewrite <- !app_assoc. auto. }
  destruct (datetime2_in_range t) eqn:Hr.
  2:{ rewrite (createMessage_out_of_range messageId c u payload t) by assumption.
      cbn [snd trace db advance_entropy add_event]. rewrite <- !app_assoc. auto. }
  destruct (is_active_participant (db w) c u) eqn:Hauth.
  2:{ rewrite (createMessage_unauthorized messageId c u payload t) by assumption.
      cbn [snd trace db advance_entropy add_event]. rewrite <- !app_assoc. auto. }
  split; [|discriminate].
  destruct (createMessage_prefix messageId c u payload w) as [enc ->].
  unfold try_catch, send_batch, bind, get_db, log, GETUTCDATE, put_db, throw, ret.
  rewrite Ht, Hr. cbn [negb db advance_entropy add_event now set_db].
  rewrite Hauth. cbn [negb].
  destruct (insert_message _ _) as [d'|e].
  - cbn [db set_db]. destruct (select_created _ _) as [|row rest];
      try destruct (is_not_authorized _);
      cbn [snd trace set_db add_event advance_entropy];
      rewrite <- ?app_assoc; reflexivity.
  - destruct (is_not_authorized e);
      cbn [snd trace set_db add_event advance_entropy];
      rewrite <- ?app_assoc; reflexivity.
Qed.

Lemma createMessage_order_witness :
  db (snd (createMessage (js "m1") (js "c1") (js "bob") Samples.hello Samples.world))
  = db Samples.world.
Proof.
  apply (proj2 (createMessage_order (js "m1") (js "c1") (js "bob") Samples.hello
                  Samples.world)).
  vm_compute. reflexivity.
Defined.

(** C8 as stated fails: for a sender who has left the conversation the
    key is derived and the plaintext encrypted before the check is made. *)
Lemma unauthorized_send_derives_and_encrypts :
  is_active_participant (db Samples.world) (js "c1") (js "bob") = false
  /\ trace (snd (createMessage (js "m1") (js "c1") (js "bob") Samples.hello Samples.world))
     = [EvDeriveKey (js "c1"); EvEncrypt (js "hello");
        EvAuthCheck (js "c1") (js "bob") false].
Proof. split; vm_compute; reflexivity. Qed.

End OrderFacts.

(** ** src/routes/messages.ts *)

Module RouteFacts.
Import BufferFacts EncryptionFacts ServiceFacts MessagesRoute.

Lemma post_invalid (req : Request) (w : World) :
  truthy_opt (body_conversationId (body req)) && truthy_opt (body_text (body req)) = false ->
  post req w
  = (Ok {| status := 400;
           json := JsonError (js "Invalid message format") [js "conversationId"; js "text"] |},
     w).
Proof.
  intros H. unfold post, try_catch, ret.
  destruct (body_conversationId (body req)) as [conversationId|];
    destruct (body_text (body req)) as [text|]; try reflexivity.
  cbn [truthy_opt] in H. apply andb_false_iff in H.
  destruct H as [H|H]; rewrite H; cbn [negb orb]; [reflexivity|].
  now rewrite orb_true_r.
Qed.

Lemma post_valid (req : Request) (w : World) :
  truthy_opt (body_conversationId (body req)) && truthy_opt (body_text (body req)) = true ->
  exists r w', post req w = (Ok r, w') /\ (status r = 201 \/ status r = 403 \/ status r = 500).
Proof.
  intros H. unfold post, try_catch.
  destruct (body_conversationId (body req)) as [conversationId|]; [|discriminate].
  destruct (body_text (body req)) as [text|];
    [|cbn [truthy_opt] in H; rewrite andb_false_r in H; discriminate].
  cbn [truthy_opt] in H. apply andb_true_iff in H. destruct H as [Hc Ht].
  rewrite Hc, Ht. cbn [negb orb].
  unfold bind at 1. unfold randomUUID at 1. unfold bind at 1, randomBytes, ret at 1.
  unfold bind at 1.
  destruct (createMessage _ _ _ _ _) as [[m|e] w'].
  - eexists. eexists. split; [reflexivity|]. cbn [status]. auto.
  - destruct (is_not_authorized e); eexists; eexists; (split; [reflexivity|]);
      cbn [status]; auto.
Qed.

(** C9 (amended). POST /messages answers every request; the status is 400
    exactly when [conversationId] or [text] is missing (or empty), and
    then nothing has happened: no message is created.  A missing
    [createdAt] alone does not give 400. *)
Theorem post_status_400 (req : Request) (w : World) :
  exists r w',
    post req w = (Ok r, w')
    /\ (status r = 400
        <-> truthy_opt (body_conversationId (body req))
            && truthy_opt (body_text (body req)) = false)
    /\ (status r = 400 -> w' = w).
Proof.
  destruct (truthy_opt (body_conversationId (body req))
            && truthy_opt (body_text (body req))) eqn:H.
  - destruct (post_valid req w H) as [r [w' [Hrun Hs]]].
    exists r, w'. split; [exact Hrun|]. split; [split|]; intros; lia || discriminate.
  - exists {| status := 400;
              json := JsonError (js "Invalid message format")
                                [js "conversationId"; js "text"] |}, w.
    split; [now apply post_invalid|]. cbn [status]. split; [split|]; auto.
Qed.

(** C9 as stated fails: a request that lacks [createdAt] only is answered
    with 500 (the driver refuses the date), not 400. *)
Lemma missing_createdAt_gives_500 :
  exists r w',
    post {| user_id := None; x_user_id := Some (js "alice");
            body := {| body_senderId := None; body_conversationId := Some (js "c1");
                       body_text := Some (js "hello"); body_createdAt := None |} |}
         Samples.world = (Ok r, w')
    /\ status r = 500 /\ db w' = db Samples.world.
Proof.
  eexists. eexists. split; [vm_compute; reflexivity|]. split; reflexivity.
Qed.

End RouteFacts.
(** ** MessagingPanel.tsx *)

Module ClientFacts.
Import BufferFacts SortingFacts MessagingPanel ReconciliationSpec.

Lemma count_id_app (x : jsstring) (l1 l2 : list Message) :
  count_id x (l1 ++ l2) = (count_id x l1 + count_id x l2)%nat.
Proof. unfold count_id. now rewrite filter_app, length_app. Qed.

Lemma count_id_perm (x : jsstring) (l1 l2 : list Message) :
  Permutation l1 l2 -> count_id x l1 = count_id x l2.
Proof.
  unfold count_id. induction 1 as [|m l l' _ IH|m m' l|l l' l'' _ IH1 _ IH2].
  - reflexivity.
  - cbn [filter]. destruct (str_eqb (id m) x); cbn [length]; now rewrite IH.
  - cbn [filter]. destruct (str_eqb (id m) x), (str_eqb (id m') x); reflexivity.
  - now rewrite IH1.
Qed.

Lemma count_id_sort (x : jsstring) (l : list Message) :
  count_id x (sort_chronologically l) = count_id x l.
Proof. apply count_id_perm, sort_by_perm. Qed.

Lemma count_id_positive (x : jsstring) (l : list Message) :
  (0 < count_id x l)%nat <-> existsb (fun m => str_eqb (id m) x) l = true.
Proof.
  unfold count_id. induction l as [|m l IH]; cbn [filter existsb length].
  - split; [lia | discriminate].
  - destruct (str_eqb (id m) x); cbn [length orb]; [split; [reflexivity | lia] | exact IH].
Qed.

Lemma onNewMessage_rejected (msg : Message) (prev : list Message) :
  rejected msg prev -> onNewMessage msg prev = prev.
Proof.
  intros [m [Hin Hm]]. unfold onNewMessage.
  destruct (existsb (fun m => str_eqb (id m) (id msg)) prev) eqn:Hid; [reflexivity|].
  destruct Hm as [Hsame | [Hc [Hs [Ht Hd]]]].
  - assert (Hex : existsb (fun m => str_eqb (id m) (id msg)) prev = true).
    { apply existsb_exists. exists m. split; [exact Hin|]. now apply str_eqb_eq. }
    congruence.
  - match goal with |- (if ?b then _ else _) = _ => assert (Hex : b = true) end.
    { apply existsb_exists. exists m. split; [exact Hin|].
      rewrite !andb_true_iff, !str_eqb_eq, Z.ltb_lt. auto. }
    now rewrite Hex.
Qed.

Lemma onNewMessage_accepted (msg : Message) (prev : list Message) :
  ~ rejected msg prev -> onNewMessage msg prev = sort_chronologically (prev ++ [msg]).
Proof.
  intros Hrej. unfold onNewMessage.
  destruct (existsb (fun m => str_eqb (id m) (id msg)) prev) eqn:Hid.
  { exfalso. apply Hrej. apply existsb_exists in Hid. destruct Hid as [m [Hin Hm]].
    exists m. split; [exact Hin|]. left. now apply str_eqb_eq. }
  match goal with |- (if ?b then _ else _) = _ => destruct b eqn:Hdup end; [|reflexivity].
  exfalso. apply Hrej. apply existsb_exists in Hdup. destruct Hdup as [m [Hin Hm]].
  exists m. split; [exact Hin|]. right.
  rewrite !andb_true_iff, !str_eqb_eq, Z.ltb_lt in Hm. unfold near_duplicate. tauto.
Qed.

(** A poll never changes how many entries carry an id that is already
    present. *)
Lemma onNewMessage_count_id (x : jsstring) (msg : Message) (prev : list Message) :
  (0 < count_id x prev)%nat -> count_id x (onNewMessage msg prev) = count_id x prev.
Proof.
  intros Hpos. unfold onNewMessage.
  destruct (existsb (fun m => str_eqb (id m) (id msg)) prev) eqn:Hid; [reflexivity|].
  match goal with |- context [if ?b then _ else _] => destruct b end; [reflexivity|].
  rewrite count_id_sort, count_id_app. unfold count_id at 2. cbn [filter].
  destruct (str_eqb (id msg) x) eqn:E; [|cbn [length]; lia].
  exfalso. apply str_eqb_eq in E. subst x.
  apply count_id_positive in Hpos. congruence.
Qed.

Lemma polls_count_id (x : jsstring) (polls : list Message) (s : list Message) :
  (0 < count_id x s)%nat ->
  count_id x (fold_left (fun s m => onNewMessage m s) polls s) = count_id x s.
Proof.
  revert s. induction polls as [|m polls IH]; intros s Hpos; [reflexivity|].
  cbn [fold_left]. rewrite IH by (rewrite onNewMessage_count_id; assumption).
  now apply onNewMessage_count_id.
Qed.

(** Replacing the optimistic entry: the entries under the new id are
    those that carried the temporary id, and those that carried the new
    id already. *)
Lemma count_id_replace (tempId : jsstring) (created : Message) (l : list Message) :
  count_id tempId l = 1%nat ->
  (str_eqb tempId (id created) = false -> count_id (id created) l = 0%nat) ->
  count_id (id created)
    (map (fun msg => if str_eqb (id msg) tempId then created else msg) l) = 1%nat.
Proof.
  unfold count_id. induction l as [|m l IH]; cbn [map filter length]; [discriminate|].
  intros Htemp Hnew.
  destruct (str_eqb (id m) tempId) eqn:Em.
  - rewrite str_eqb_refl. cbn [length] in *. f_equal.
    apply str_eqb_eq in Em.
    assert (Hl : length (filter (fun m => str_eqb (id m) tempId) l) = 0%nat) by lia.
    clear IH Htemp.
    assert (Hnew' : str_eqb tempId (id created) = false ->
                    length (filter (fun m => str_eqb (id m) (id created)) l) = 0%nat).
    { intros E. specialize (Hnew E). rewrite <- Em in E.
      rewrite E in Hnew. exact Hnew. }
    clear Hnew. induction l as [|m' l IH]; [reflexivity|].
    cbn [map filter length] in *.
    destruct (str_eqb (id m') tempId) eqn:Em'; [cbn [length] in Hl; lia|].
    destruct (str_eqb (id m') (id created)) eqn:Ec.
    + exfalso. destruct (str_eqb tempId (id created)) eqn:Et.
      * apply str_eqb_eq in Et, Ec. rewrite <- Et in Ec.
        apply str_eqb_neq in Em'. contradiction.
      * specialize (Hnew' eq_refl). cbn [length] in Hnew'. lia.
    + apply IH; [exact Hl|]. intros E. specialize (Hnew' E). exact Hnew'.
  - destruct (str_eqb (id m) (id created)) eqn:Ec.
    + exfalso. destruct (str_eqb tempId (id created)) eqn:Et.
      * apply str_eqb_eq in Et, Ec. rewrite <- Et in Ec.
        apply str_eqb_neq in Em. contradiction.
      * specialize (Hnew eq_refl). cbn [length] in Hnew. lia.
    + apply IH; [exact Htemp | exact Hnew].
Qed.

Lemma optimistic_then_confirmed (tempId conv user txt : jsstring) (t : Z)
    (server : Message) (prev : list Message) :
  count_id tempId prev = 0%nat ->
  count_id (id server) prev = 0%nat ->
  id server <> [] ->
  count_id (id server)
    (confirmSend tempId (Some server) (addOptimistic tempId conv user txt t prev)) = 1%nat.
Proof.
  intros Htemp Hsrv Hne. unfold confirmSend, addOptimistic.
  destruct (id server) as [|ch rest] eqn:Eid; [contradiction|]. cbn [truthy].
  rewrite <- Eid in *. rewrite count_id_sort. apply count_id_replace.
  - rewrite count_id_sort, count_id_app, Htemp. unfold count_id. cbn [filter id].
    now rewrite str_eqb_refl.
  - intros E. rewrite count_id_sort, count_id_app, Hsrv. unfold count_id.
    cbn [filter id]. now rewrite E.
Qed.

Lemma replace_absent (tempId : jsstring) (created : Message) (l : list Message) :
  count_id tempId l = 0%nat ->
  map (fun msg => if str_eqb (id msg) tempId then created else msg) l = l.
Proof.
  unfold count_id. induction l as [|m l IH]; cbn [filter map length]; [reflexivity|].
  destruct (str_eqb (id m) tempId); cbn [length]; [lia|].
  intros H. now rewrite IH.
Qed.

(** The confirmed list: the server's message has taken the place of the
    optimistic entry, and every other entry is as before. *)
Lemma confirmed_permutation (tempId conv user txt : jsstring) (t : Z)
    (server : Message) (prev : list Message) :
  count_id tempId prev = 0%nat ->
  id server <> [] ->
  Permutation (confirmSend tempId (Some server) (addOptimistic tempId conv user txt t prev))
              (server :: prev).
Proof.
  intros Htemp Hne. unfold confirmSend, addOptimistic.
  destruct (id server) as [|ch rest] eqn:Eid; [contradiction|]. cbn [truthy].
  unfold sort_chronologically. rewrite sort_by_perm.
  rewrite (Permutation_map _ (sort_by_perm createdAt _)).
  rewrite map_app, (replace_absent _ _ _ Htemp). cbn [map id].
  rewrite str_eqb_refl. rewrite Permutation_app_comm. reflexivity.
Qed.

(** A poll never changes how many entries carry an id other than the
    polled one. *)
Lemma onNewMessage_count_other (x : jsstring) (msg : Message) (prev : list Message) :
  id msg <> x -> count_id x (onNewMessage msg prev) = count_id x prev.
Proof.
  intros Hne. unfold onNewMessage.
  destruct (existsb (fun m => str_eqb (id m) (id msg)) prev); [reflexivity|].
  match goal with |- context [if ?b then _ else _] => destruct b end; [reflexivity|].
  rewrite count_id_sort, count_id_app. unfold count_id at 2. cbn [filter].
  apply str_eqb_neq in Hne. rewrite Hne. cbn [length]. lia.
Qed.

Lemma polls_count_other (x : jsstring) (polls : list Message) (s : list Message) :
  Forall (fun m => id m <> x) polls ->
  count_id x (fold_left (fun s m => onNewMessage m s) polls s) = count_id x s.
Proof.
  intros H. revert s. induction H as [|m polls Hm _ IH]; intros s; [reflexivity|].
  cbn [fold_left]. rewrite IH. now apply onNewMessage_count_other.
Qed.

(** C6. A message delivered by polling leaves the list as it is when an
    entry with the same id exists, or one of the same conversation, sender
    and text created within 5000 ms (strictly less than 5000 ms away);
    any other message is inserted and the list sorted again, ascending by
    creation time.  And once an optimistic send has been confirmed by the
    server, the list holds exactly one entry for that message: it is the
    list before the send with the server's message added, in
    chronological order, the optimistic entry being gone; a poll that
    delivers the server message again leaves it unchanged, and polls that
    deliver it among any other messages leave exactly one entry under its
    id and none under the temporary id. *)
Theorem poll_reconciliation (msg : Message) (prev : list Message) :
  (rejected msg prev -> onNewMessage msg prev = prev)
  /\ (~ rejected msg prev ->
      onNewMessage msg prev = sort_chronologically (prev ++ [msg])
      /\ Permutation (onNewMessage msg prev) (msg :: prev)
      /\ chronological (onNewMessage msg prev))
  /\ (forall tempId conv user txt t,
        count_id tempId prev = 0%nat ->
        count_id (id msg) prev = 0%nat ->
        id msg <> [] ->
        let confirmed :=
          confirmSend tempId (Some msg) (addOptimistic tempId conv user txt t prev) in
        Permutation confirmed (msg :: prev)
        /\ chronological confirmed
        /\ count_id (id msg) confirmed = 1%nat
        /\ (id msg <> tempId -> count_id tempId confirmed = 0%nat)
        /\ onNewMessage msg confirmed = confirmed
        /\ (forall polls,
              count_id (id msg)
                (fold_left (fun s m => onNewMessage m s) (msg :: polls) confirmed) = 1%nat
              /\ (id msg <> tempId ->
                  Forall (fun m => id m <> tempId) polls ->
                  count_id tempId
                    (fold_left (fun s m => onNewMessage m s) (msg :: polls) confirmed)
                  = 0%nat))).
Proof.
  split; [apply onNewMessage_rejected|]. split.
  - intros Hrej. rewrite onNewMessage_accepted by exact Hrej.
    split; [reflexivity|]. split.
    + unfold sort_chronologically. rewrite sort_by_perm.
      rewrite Permutation_app_comm. reflexivity.
    + apply (sort_by_sorted createdAt).
  - intros tempId conv user txt t Htemp Hsrv Hne confirmed.
    pose proof (optimistic_then_confirmed tempId conv user txt t msg prev Htemp Hsrv Hne)
      as Hone.
    pose proof (confirmed_permutation tempId conv user txt t msg prev Htemp Hne) as Hperm.
    fold confirmed in Hone, Hperm.
    assert (Hgone : id msg <> tempId -> count_id tempId confirmed = 0%nat).
    { intros Hneq. rewrite (count_id_perm _ _ _ Hperm).
      unfold count_id in *. cbn [filter].
      apply str_eqb_neq in Hneq. rewrite Hneq. exact Htemp. }
    assert (Hsame : onNewMessage msg confirmed = confirmed).
    { apply onNewMessage_rejected. exists msg. split; [|left; reflexivity].
      apply (Permutation_in msg (Permutation_sym Hperm)). now left. }
    split; [exact Hperm|].
    split.
    { unfold confirmed, confirmSend.
      destruct (id msg) as [|ch rest]; [contradiction|]. cbn [truthy].
      apply (sort_by_sorted createdAt). }
    split; [exact Hone|]. split; [exact Hgone|]. split; [exact Hsame|].
    intros polls. split.
    + rewrite polls_count_id; [exact Hone | lia].
    + intros Hneq Hpolls. rewrite polls_count_other; [now apply Hgone|].
      constructor; assumption.
Qed.

Lemma poll_reconciliation_witness :
  onNewMessage server_hi [other; server_hi] = [other; server_hi]
  /\ (onNewMessage server_hi [other] = sort_chronologically ([other] ++ [server_hi])
      /\ Permutation (onNewMessage server_hi [other]) [server_hi; other]
      /\ chronological (onNewMessage server_hi [other]))
  /\ (let confirmed :=
        confirmSend (js "tmp-1") (Some server_hi)
          (addOptimistic (js "tmp-1") (js "c1") (js "alice") (js "hi") 1000 [other]) in
      Permutation confirmed [server_hi; other]
      /\ chronological confirmed
      /\ count_id (id server_hi) confirmed = 1%nat
      /\ (id server_hi <> js "tmp-1" -> count_id (js "tmp-1") confirmed = 0%nat)
      /\ onNewMessage server_hi confirmed = confirmed
      /\ (forall polls,
            count_id (id server_hi)
              (fold_left (fun s m => onNewMessage m s) (server_hi :: polls) confirmed)
            = 1%nat
            /\ (id server_hi <> js "tmp-1" ->
                Forall (fun m => id m <> js "tmp-1") polls ->
                count_id (js "tmp-1")
                  (fold_left (fun s m => onNewMessage m s) (server_hi :: polls) confirmed)
                = 0%nat))).
Proof.
  split; [|split].
  - apply (proj1 (poll_reconciliation server_hi [other; server_hi])).
    exists server_hi. split; [right; left; reflexivity | left; reflexivity].
  - apply (proj1 (proj2 (poll_reconciliation server_hi [other]))).
    intros [m [[<-|[]] [H|H]]].
    + vm_compute in H. discriminate H.
    + destruct H as [_ [H _]]. vm_compute in H. discriminate H.
  - apply (proj2 (proj2 (poll_reconciliation server_hi [other]))
             (js "tmp-1") (js "c1") (js "alice") (js "hi") 1000).
    + vm_compute. reflexivity.
    + vm_compute. reflexivity.
    + discriminate.
Defined.

(** The scenario of the spec as a run: an optimistic "hi", its
    confirmation under the server id 200 ms later, and a poll that brings
    the confirmed message again. *)
Example reconciliation_scenario :
  fold_left (fun s m => onNewMessage m s) [server_hi]
    (confirmSend (js "tmp-1") (Some server_hi)
       (addOptimistic (js "tmp-1") (js "c1") (js "alice") (js "hi") 1000 [other]))
  = [other; server_hi].
Proof. vm_compute. reflexivity. Qed.

End ClientFacts.
(** ** Known answers

    The encodings, hashes and the cipher above are checked against the
    published test vectors of their standards. *)

Module KnownAnswers.
Import Hex.

Example base64_rfc4648 :
  base64_encode (utf8_encode (js "foobar")) = js "Zm9vYmFy"
  /\ base64_encode (utf8_encode (js "fooba")) = js "Zm9vYmE="
  /\ base64_encode (utf8_encode (js "foob")) = js "Zm9vYg=="
  /\ base64_decode (js "Zm9v YmE=") = utf8_encode (js "fooba")
  /\ base64_decode (js "Zm9vYg") = utf8_encode (js "foob").
Proof. repeat split; vm_compute; reflexivity. Qed.

Example utf8_samples :
  hex (utf8_encode [0x48; 0xE9; 0x20AC; 0xD83D; 0xDE00]) = js "48c3a9e282acf09f9880"
  /\ utf8_decode (unhex "48c3a9e282acf09f9880") = [0x48; 0xE9; 0x20AC; 0xD83D; 0xDE00]
  /\ hex (utf8_encode [0xD800]) = js "efbfbd"
  /\ utf8_decode (unhex "e282") = [0xFFFD].
Proof. repeat split; vm_compute; reflexivity. Qed.

Example sha256_fips180 :
  hex (Sha256.sha256 (utf8_encode (js "abc")))
  = js "ba7816bf8f01cfea414140de5dae2223b00361a396177a9cb410ff61f20015ad"
  /\ hex (Sha256.sha256 [])
     = js "e3b0c44298fc1c149afbf4c8996fb92427ae41e4649b934ca495991b7852b855".
Proof. split; vm_compute; reflexivity. Qed.

Example hmac_sha256_rfc4231 :
  hex (Sha256.hmac_sha256 (utf8_encode (js "Jefe"))
         (utf8_encode (js "what do ya want for nothing?")))
  = js "5bdcc146bf60754e6a042426089575c75a003f089d2739839dec58b964ec3843".
Proof. vm_compute. reflexivity. Qed.

Example aes256_fips197 :
  hex (Aes256.encrypt_block
         (unhex "000102030405060708090a0b0c0d0e0f101112131415161718191a1b1c1d1e1f")
         (unhex "00112233445566778899aabbccddeeff"))
  = js "8ea2b7ca516745bfeafc49904b496089".
Proof. vm_compute. reflexivity. Qed.

(** Test cases 14 and 15 of the GCM specification, and the ciphertext of
    test case 17 (an 8-byte initialization vector). *)
Example gcm_test_cases :
  (let out := Gcm.encrypt (repeat x00 32) (repeat x00 12) (repeat x00 16) in
   hex (fst out) = js "cea7403d4d606b6e074ec5d3baf39d18"
   /\ hex (snd out) = js "d0d1c8a799996bf0265b98b5d48ab919")
  /\ (let out :=
        Gcm.encrypt
          (unhex "feffe9928665731c6d6a8f9467308308feffe9928665731c6d6a8f9467308308")
          (unhex "cafebabefacedbaddecaf888")
          (unhex "d9313225f88406e5a55909c5aff5269a86a7a9531534f7da2e4c303d8a318a721c3c0c95956809532fcf0e2449a6b525b16aedf5aa0de657ba637b391aafd255") in
      hex (fst out) = js "522dc1f099567d07f47f37a32a84427d643a8cdcbfe5c0c97598a2bd2555d1aa8cb08e48590dbb3da7b08b1056828838c5f61e6393ba7a0abcc9f662898015ad"
      /\ hex (snd out) = js "b094dac5d93471bdec1a502270e3cc6c")
  /\ hex (fst (Gcm.encrypt
                 (unhex "feffe9928665731c6d6a8f9467308308feffe9928665731c6d6a8f9467308308")
                 (unhex "cafebabefacedbad")
                 (unhex "d9313225f88406e5a55909c5aff5269a86a7a9531534f7da2e4c303d8a318a721c3c0c95956809532fcf0e2449a6b525b16aedf5aa0de657ba637b39")))
     = js "c3762df1ca787d32ae47c13bf19844cbaf1ae14d0b976afac52ff7d79bba9de0feb582d33934a4f0954cc2363bc73f7862ac430e64abe499f47c9b1f".
Proof. repeat split; vm_compute; reflexivity. Qed.

Example conversation_key_samples :
  fst (getConversationKey (js "c1") Samples.world) = Ok Samples.key
  /\ fst (getConversationKey (js "c1") Samples.world_with_master_key)
     = Ok (js "a/obwjG2NOMdlJmdytX1DPKoTVFAw9kS4UQsoPTBiVU=").
Proof. split; vm_compute; reflexivity. Qed.

Example randomUUID_sample :
  fst (randomUUID Samples.world) = Ok (js "030a1118-1f26-4d34-bb42-4950575e656c").
Proof. vm_compute. reflexivity. Qed.

End KnownAnswers.

(* ================================================================== *)
(** * Part III. Further properties of the code                         *)
(* ================================================================== *)

(** ** Keys and envelopes *)

Module EnvelopeFacts.
Import KeyGeneration Base64WhiteSpace.
Import BufferFacts Utf8Facts CryptoFacts EncryptionFacts ServiceFacts.

Lemma entropy_bytes_length (w : World) (n : nat) :
  length (map (entropy w) (seq (entropy_pos w) n)) = n.
Proof. now rewrite length_map, length_seq. Qed.

Lemma bytes_eqb_eq (a b : Buffer) : Gcm.bytes_eqb a b = true -> a = b.
Proof.
  revert b; induction a as [|x a IH]; intros [|y b]; cbn [Gcm.bytes_eqb]; try discriminate.
  - reflexivity.
  - intros H. apply andb_true_iff in H. destruct H as [H1 H2].
    apply Byte.byte_dec_bl in H1. rewrite H1, (IH b H2). reflexivity.
Qed.

(** X1. A key made by [generateConversationKey] is the base64 text of
    the next 32 bytes of the random source; it decodes to exactly 32
    bytes, so [encryptMessage] accepts it, and a well-formed plaintext
    encrypted under it decrypts to itself. *)
Theorem generated_key_round_trip (p : jsstring) (w w2 : World) :
  isWellFormed p = true ->
  exists k,
    generateConversationKey w = (Ok k, advance_entropy KEY_LENGTH w)
    /\ base64_decode k = map (entropy w) (seq (entropy_pos w) KEY_LENGTH)
    /\ length (base64_decode k) = KEY_LENGTH
    /\ exists e, fst (encryptMessage p k w2) = Ok e
                 /\ decryptMessage (ciphertext e) (iv e) k = Ok p.
Proof.
  intros Hp.
  exists (base64_encode (map (entropy w) (seq (entropy_pos w) KEY_LENGTH))).
  assert (Hlen : length (base64_decode
                           (base64_encode (map (entropy w) (seq (entropy_pos w) KEY_LENGTH))))
                 = KEY_LENGTH).
  { rewrite base64_decode_encode. apply entropy_bytes_length. }
  split; [reflexivity|].
  split; [apply base64_decode_encode|].
  split; [exact Hlen|].
  destruct (decrypt_encrypt_message p _ w2 Hlen) as [e [He Hd]].
  exists e. split; [exact He|].
  rewrite Hd, (utf8_decode_encode p Hp). reflexivity.
Qed.

Lemma generated_key_round_trip_witness :
  exists k,
    generateConversationKey Samples.world = (Ok k, advance_entropy KEY_LENGTH Samples.world)
    /\ base64_decode k
       = map (entropy Samples.world) (seq (entropy_pos Samples.world) KEY_LENGTH)
    /\ length (base64_decode k) = KEY_LENGTH
    /\ exists e, fst (encryptMessage (js "hi") k Samples.world) = Ok e
                 /\ decryptMessage (ciphertext e) (iv e) k = Ok (js "hi").
Proof. apply (generated_key_round_trip (js "hi")). vm_compute. reflexivity. Defined.

(** [decryptMessage] on a body followed by a 16-byte tag, under a valid
    key and a 12-byte iv. *)
Lemma decryptMessage_body_tag (k : jsstring) (ivb body tag : Buffer) :
  length (base64_decode k) = KEY_LENGTH ->
  length ivb = IV_LENGTH ->
  length tag = TAG_LENGTH ->
  decryptMessage (base64_encode (body ++ tag)) (base64_encode ivb) k
  = match Gcm.decrypt (base64_decode k) ivb body tag with
    | Some plaintext => Ok (utf8_decode plaintext)
    | None => Throw unable_to_authenticate
    end.
Proof.
  intros Hk Hiv Ht. unfold decryptMessage.
  rewrite Hk. cbn [Nat.eqb KEY_LENGTH negb].
  rewrite !base64_decode_encode.
  rewrite slice_but_last_app, slice_last_app by exact Ht.
  unfold decipher_aes_256_gcm.
  rewrite Hk, Hiv, Ht.
  cbn [Nat.eqb KEY_LENGTH IV_LENGTH TAG_LENGTH negb valid_gcm_tag_length Nat.leb orb andb].
  destruct (Gcm.decrypt (base64_decode k) ivb body tag); reflexivity.
Qed.

Lemma decrypt_tag (key ivb body tag : Buffer) :
  length tag = 16%nat ->
  Gcm.decrypt key ivb body tag
  = if Gcm.bytes_eqb (Gcm.tag_of key ivb body) tag
    then Some (Gcm.gctr key (Gcm.inc32 (Gcm.j0 (Gcm.hash_subkey key) ivb) 1) body)
    else None.
Proof.
  intros Ht. unfold Gcm.decrypt. rewrite Ht.
  rewrite <- (tag_of_length key ivb body) at 1. rewrite firstn_all. reflexivity.
Qed.

(** X2. Take what [encryptMessage] made under a valid key, keep the
    ciphertext bytes and attach any 16 bytes as the tag: [decryptMessage]
    returns the plaintext exactly when those 16 bytes are the original
    tag, and throws "Unsupported state or unable to authenticate data"
    exactly when they are not. *)
Theorem forged_tag_is_rejected (p k : jsstring) (w : World) (tag : Buffer) :
  length (base64_decode k) = KEY_LENGTH ->
  length tag = TAG_LENGTH ->
  exists e body,
    fst (encryptMessage p k w) = Ok e
    /\ body = slice_but_last TAG_LENGTH (base64_decode (ciphertext e))
    /\ length body = length (utf8_encode p)
    /\ (decryptMessage (base64_encode (body ++ tag)) (iv e) k
        = Throw unable_to_authenticate
        <-> tag <> slice_last TAG_LENGTH (base64_decode (ciphertext e)))
    /\ (decryptMessage (base64_encode (body ++ tag)) (iv e) k
        = Ok (utf8_decode (utf8_encode p))
        <-> tag = slice_last TAG_LENGTH (base64_decode (ciphertext e))).
Proof.
  intros Hk Ht.
  set (ivb := map (entropy w) (seq (entropy_pos w) IV_LENGTH)).
  set (out := Gcm.encrypt (base64_decode k) ivb (utf8_encode p)).
  assert (Hiv : length ivb = IV_LENGTH) by apply entropy_bytes_length.
  exists {| ciphertext := base64_encode (fst out ++ snd out); iv := base64_encode ivb |}.
  exists (fst out).
  split; [apply encryptMessage_ok; exact Hk|].
  cbn [ciphertext iv]. rewrite base64_decode_encode.
  rewrite slice_but_last_app, slice_last_app by apply encrypt_tag_length.
  split; [reflexivity|].
  split; [apply encrypt_ciphertext_length|].
  rewrite (decryptMessage_body_tag k ivb (fst out) tag Hk Hiv Ht).
  rewrite (decrypt_tag _ _ _ _ Ht).
  assert (Hout : snd out = Gcm.tag_of (base64_decode k) ivb (fst out)) by reflexivity.
  assert (Hplain : Gcm.gctr (base64_decode k)
                     (Gcm.inc32 (Gcm.j0 (Gcm.hash_subkey (base64_decode k)) ivb) 1) (fst out)
                   = utf8_encode p) by apply gctr_involutive.
  rewrite Hplain, Hout.
  destruct (Gcm.bytes_eqb (Gcm.tag_of (base64_decode k) ivb (fst out)) tag) eqn:E.
  - apply bytes_eqb_eq in E. split; split; intros H.
    + discriminate H.
    + exfalso. apply H. symmetry. exact E.
    + symmetry. exact E.
    + reflexivity.
  - assert (Hne : tag <> Gcm.tag_of (base64_decode k) ivb (fst out)).
    { intros Heq. rewrite <- Heq in E. rewrite bytes_eqb_refl in E. discriminate E. }
    split; split; intros H.
    + exact Hne.
    + reflexivity.
    + discriminate H.
    + exfalso. exact (Hne H).
Qed.

Lemma forged_tag_is_rejected_witness :
  exists e body,
    fst (encryptMessage (js "hello") Samples.key Samples.world) = Ok e
    /\ body = slice_but_last TAG_LENGTH (base64_decode (ciphertext e))
    /\ length body = length (utf8_encode (js "hello"))
    /\ (decryptMessage (base64_encode (body ++ repeat x00 16)) (iv e) Samples.key
        = Throw unable_to_authenticate
        <-> repeat x00 16 <> slice_last TAG_LENGTH (base64_decode (ciphertext e)))
    /\ (decryptMessage (base64_encode (body ++ repeat x00 16)) (iv e) Samples.key
        = Ok (utf8_decode (utf8_encode (js "hello")))
        <-> repeat x00 16 = slice_last TAG_LENGTH (base64_decode (ciphertext e))).
Proof.
  apply (forged_tag_is_rejected (js "hello") Samples.key Samples.world (repeat x00 16));
    vm_compute; reflexivity.
Defined.

Lemma valid_gcm_tag_length_short (n : nat) :
  (n < 4)%nat -> valid_gcm_tag_length n = false.
Proof.
  intros H. destruct n as [|[|[|[|n]]]]; try reflexivity. lia.
Qed.

(** X3. An envelope that decodes to fewer than 4 bytes (the empty one
    included), or an iv that decodes to no byte at all, makes
    [decryptMessage] throw under every key; [getMessages] then shows the
    row with the text "[Could not decrypt message]". *)
Theorem truncated_envelope_is_rejected (c i k : jsstring) :
  (length (base64_decode c) < 4)%nat \/ base64_decode i = [] ->
  (exists e, decryptMessage c i k = Throw e)
  /\ (forall row, M_Ciphertext (fst row) = c -> M_IV (fst row) = i ->
                  text (decrypt_row k row) = COULD_NOT_DECRYPT).
Proof.
  intros H.
  assert (Hthrow : exists e, decryptMessage c i k = Throw e).
  { unfold decryptMessage.
    destruct (negb (length (base64_decode k) =? KEY_LENGTH)%nat) eqn:Hk;
      [eexists; reflexivity|].
    unfold decipher_aes_256_gcm.
    apply negb_false_iff in Hk. apply Nat.eqb_eq in Hk. rewrite Hk.
    cbn [Nat.eqb KEY_LENGTH negb].
    destruct (length (base64_decode i) =? 0)%nat eqn:Hi; [eexists; reflexivity|].
    destruct H as [H|H]; [|rewrite H in Hi; discriminate Hi].
    rewrite valid_gcm_tag_length_short.
    - cbn [negb]. eexists; reflexivity.
    - unfold slice_last. rewrite length_skipn. unfold TAG_LENGTH. lia. }
  split; [exact Hthrow|].
  intros row Hc Hi. destruct Hthrow as [e He].
  unfold decrypt_row. cbn [text]. rewrite Hc, Hi, He. reflexivity.
Qed.

Lemma truncated_envelope_is_rejected_witness :
  (exists e, decryptMessage (js "AAAA") (js "AwoRGB8mLTQ7QklQ") Samples.key = Throw e)
  /\ (forall row, M_Ciphertext (fst row) = js "AAAA" ->
                  M_IV (fst row) = js "AwoRGB8mLTQ7QklQ" ->
                  text (decrypt_row Samples.key row) = COULD_NOT_DECRYPT).
Proof.
  apply (truncated_envelope_is_rejected (js "AAAA") (js "AwoRGB8mLTQ7QklQ") Samples.key).
  left. vm_compute. lia.
Defined.

(** X4. Under a valid key [encryptMessage] returns; its iv is the base64
    text (16 characters) of the next 12 bytes of the random source, which
    it advances by exactly 12; the envelope decodes to the UTF-8 length of
    the plaintext plus the 16 bytes of the tag; nothing else of the
    process changes but the log of operations. *)
Theorem encryptMessage_envelope (p k : jsstring) (w : World) :
  length (base64_decode k) = KEY_LENGTH ->
  exists e,
    encryptMessage p k w
    = (Ok e, advance_entropy IV_LENGTH (add_event (EvEncrypt p) w))
    /\ base64_decode (iv e) = map (entropy w) (seq (entropy_pos w) IV_LENGTH)
    /\ length (iv e) = 16%nat
    /\ length (base64_decode (ciphertext e)) = (length (utf8_encode p) + TAG_LENGTH)%nat
    /\ length (ciphertext e)
       = (4 * ((length (utf8_encode p) + TAG_LENGTH + 2) / 3))%nat.
Proof.
  intros Hk. eexists. split; [apply (encryptMessage_run p k w Hk)|].
  cbn [ciphertext iv].
  rewrite !base64_decode_encode, !base64_encode_length, length_app,
    encrypt_ciphertext_length, encrypt_tag_length, entropy_bytes_length.
  repeat split; reflexivity.
Qed.

Lemma encryptMessage_envelope_witness :
  exists e,
    encryptMessage (js "hello") Samples.key Samples.world
    = (Ok e, advance_entropy IV_LENGTH (add_event (EvEncrypt (js "hello")) Samples.world))
    /\ base64_decode (iv e)
       = map (entropy Samples.world) (seq (entropy_pos Samples.world) IV_LENGTH)
    /\ length (iv e) = 16%nat
    /\ length (base64_decode (ciphertext e))
       = (length (utf8_encode (js "hello")) + TAG_LENGTH)%nat
    /\ length (ciphertext e)
       = (4 * ((length (utf8_encode (js "hello")) + TAG_LENGTH + 2) / 3))%nat.
Proof.
  apply (encryptMessage_envelope (js "hello") Samples.key Samples.world).
  vm_compute. reflexivity.
Defined.

Lemma base64_sextets_white_space (a ws b : jsstring) :
  forallb is_base64_white_space ws = true ->
  base64_sextets (a ++ ws ++ b) = base64_sextets (a ++ b).
Proof.
  intros Hws. induction a as [|c a IH].
  - cbn [app]. induction ws as [|x ws IHws]; [reflexivity|].
    cbn [forallb] in Hws. apply andb_true_iff in Hws. destruct Hws as [Hx Hws].
    cbn [app base64_sextets].
    unfold is_base64_white_space in Hx.
    assert (Hc : x = 9 \/ x = 10 \/ x = 13 \/ x = 32) by lia.
    destruct Hc as [-> | [-> | [-> | ->]]]; cbn; apply IHws; exact Hws.
  - cbn [app base64_sextets]. rewrite IH. reflexivity.
Qed.

(** X5. White space in MASTER_ENCRYPTION_KEY does not count: a secret
    with spaces, tabs, line feeds or carriage returns anywhere in it, a
    trailing line feed for one, derives the same key for every
    conversation as the secret without them. *)
Theorem master_key_white_space_is_ignored (a ws b conversationId : jsstring)
    (w1 w2 : World) :
  forallb is_base64_white_space ws = true ->
  a ++ b <> [] ->
  env w1 "MASTER_ENCRYPTION_KEY"%string = Some (a ++ ws ++ b) ->
  env w2 "MASTER_ENCRYPTION_KEY"%string = Some (a ++ b) ->
  deriveConversationKey (a ++ ws ++ b) conversationId
  = deriveConversationKey (a ++ b) conversationId
  /\ fst (getConversationKey conversationId w1) = fst (getConversationKey conversationId w2).
Proof.
  intros Hws Hne H1 H2.
  assert (Hd : deriveConversationKey (a ++ ws ++ b) conversationId
               = deriveConversationKey (a ++ b) conversationId).
  { unfold deriveConversationKey, base64_decode.
    rewrite (base64_sextets_white_space a ws b Hws). reflexivity. }
  split; [exact Hd|].
  rewrite !getConversationKey_run. cbn [fst]. rewrite H1, H2.
  unfold conversation_key.
  destruct (a ++ b) as [|x r] eqn:E; [contradiction|].
  destruct (a ++ ws ++ b) as [|y s] eqn:E'.
  - exfalso. destruct a; [|discriminate E'].
    cbn [app] in *. destruct ws; [|discriminate E']. cbn [app] in E'. congruence.
  - rewrite Hd. reflexivity.
Qed.

Lemma master_key_white_space_is_ignored_witness :
  deriveConversationKey
    (js "AAECAwQFBgcICQoLDA0ODxAREhMUFRYXGBkaGxwdHh8=" ++ [10] ++ []) (js "c1")
  = deriveConversationKey (js "AAECAwQFBgcICQoLDA0ODxAREhMUFRYXGBkaGxwdHh8=" ++ []) (js "c1")
  /\ fst (getConversationKey (js "c1") MoreSamples.world_with_master_key_line)
     = fst (getConversationKey (js "c1") Samples.world_with_master_key).
Proof.
  apply (master_key_white_space_is_ignored
           (js "AAECAwQFBgcICQoLDA0ODxAREhMUFRYXGBkaGxwdHh8=") [10] [] (js "c1")
           MoreSamples.world_with_master_key_line Samples.world_with_master_key);
    [vm_compute; reflexivity | vm_compute; discriminate | reflexivity
    | vm_compute; reflexivity].
Defined.

End EnvelopeFacts.

(** ** The message store *)

Module StoreFacts.
Import Integrity.
Import BufferFacts SortingFacts Utf8Facts CryptoFacts EncryptionFacts ServiceFacts.
Import EnvelopeFacts.

(** [createMessage] from the batch on, with the envelope it has made. *)
Lemma createMessage_batch (messageId c u : jsstring) (payload : CreateMessagePayload)
    (w : World) :
  let key := conversation_key (env w "MASTER_ENCRYPTION_KEY"%string) c in
  let ivb := map (entropy w) (seq (entropy_pos w) IV_LENGTH) in
  let out := Gcm.encrypt (base64_decode key) ivb (utf8_encode (payload_text payload)) in
  createMessage messageId c u payload w
  = try_catch
      (send_batch messageId c u (base64_encode (fst out ++ snd out)) (base64_encode ivb)
                  (payload_createdAt payload) ;;
       d <- get_db ;;
       match select_created d messageId with
       | row :: _ =>
           ret {| id := M_Id (fst row);
                  conversationId := M_ConversationId (fst row);
                  senderId := M_SenderId (fst row);
                  text := payload_text payload;
                  createdAt := M_CreatedAt (fst row);
                  editedAt := None;
                  deletedAt := None;
                  replyToMessageId := None;
                  senderName := string_or_null (U_DisplayName (snd row));
                  senderAvatar := string_or_null (U_AvatarUrl (snd row)) |}
       | [] => throw (TypeError (js "Cannot read properties of undefined (reading 'Id')"))
       end)
      (fun error =>
         if is_not_authorized error
         then throw (Error_new NOT_AUTHORIZED_TO_SEND)
         else throw error)
      (advance_entropy IV_LENGTH
         (add_event (EvEncrypt (payload_text payload)) (add_event (EvDeriveKey c) w))).
Proof.
  intros key ivb out.
  unfold createMessage. unfold bind at 1. rewrite getConversationKey_run.
  unfold bind at 1.
  pose proof (encryptMessage_run (payload_text payload) key
                (add_event (EvDeriveKey c) w) (conversation_key_length _ _)) as Hrun.
  cbv zeta in Hrun. fold key. rewrite Hrun. reflexivity.
Qed.

(** What a call of [createMessage] leaves in the store, whatever its
    outcome. *)
Lemma createMessage_store (messageId c u : jsstring) (payload : CreateMessagePayload)
    (w : World) :
  let key := conversation_key (env w "MASTER_ENCRYPTION_KEY"%string) c in
  let ivb := map (entropy w) (seq (entropy_pos w) IV_LENGTH) in
  let out := Gcm.encrypt (base64_decode key) ivb (utf8_encode (payload_text payload)) in
  let w' := snd (createMessage messageId c u payload w) in
  env w' = env w
  /\ db w'
     = match payload_createdAt payload with
       | None => db w
       | Some t =>
           if datetime2_in_range t && is_active_participant (db w) c u then
             let row := {| M_Id := messageId; M_ConversationId := c; M_SenderId := u;
                           M_Ciphertext := base64_encode (fst out ++ snd out);
                           M_IV := base64_encode ivb;
                           M_CreatedAt := t; M_EditedAt := None;
                           M_DeletedAt := None; M_ReplyToMessageId := None |} in
             match insert_message row (db w) with
             | Ok d' => update_conversation c messageId t (now w) d'
             | Throw _ => update_conversation c messageId t (now w) (db w)
             end
           else db w
       end.
Proof.
  intros key ivb out w'. subst w'.
  pose proof (createMessage_batch messageId c u payload w) as Hb. cbv zeta in Hb.
  fold key ivb out in Hb. rewrite Hb. clear Hb.
  unfold try_catch, send_batch, bind, get_db, log, GETUTCDATE, put_db, throw, ret.
  destruct (payload_createdAt payload) as [t|].
  2:{ destruct (is_not_authorized _); cbn [snd env db advance_entropy add_event];
      split; reflexivity. }
  destruct (datetime2_in_range t); cbn [negb andb].
  2:{ destruct (is_not_authorized _); cbn [snd env db advance_entropy add_event];
      split; reflexivity. }
  cbn [db advance_entropy add_event now set_db].
  destruct (is_active_participant (db w) c u); cbn [negb].
  2:{ destruct (is_not_authorized _); cbn [snd env db advance_entropy add_event];
      split; reflexivity. }
  match goal with
  | |- context [insert_message ?r ?d] => destruct (insert_message r d) as [d'|e]
  end.
  - cbn [db set_db].
    match goal with
    | |- context [select_created ?d ?i] => destruct (select_created d i)
    end.
    + destruct (is_not_authorized _);
        cbn [snd env db advance_entropy add_event set_db]; split; reflexivity.
    + cbn [snd env db advance_entropy add_event set_db]; split; reflexivity.
  - destruct (is_not_authorized e);
      cbn [snd env db advance_entropy add_event set_db]; split; reflexivity.
Qed.

(** The outcome of a call that reaches the INSERT: it succeeds exactly
    when the INSERT does. *)
Lemma createMessage_result (messageId c u : jsstring) (payload : CreateMessagePayload)
    (t : Z) (w : World) :
  payload_createdAt payload = Some t ->
  datetime2_in_range t = true ->
  is_active_participant (db w) c u = true ->
  let key := conversation_key (env w "MASTER_ENCRYPTION_KEY"%string) c in
  let ivb := map (entropy w) (seq (entropy_pos w) IV_LENGTH) in
  let out := Gcm.encrypt (base64_decode key) ivb (utf8_encode (payload_text payload)) in
  let row := {| M_Id := messageId; M_ConversationId := c; M_SenderId := u;
                M_Ciphertext := base64_encode (fst out ++ snd out);
                M_IV := base64_encode ivb;
                M_CreatedAt := t; M_EditedAt := None;
                M_DeletedAt := None; M_ReplyToMessageId := None |} in
  match insert_message row (db w) with
  | Ok _ =>
      exists x, In x (Users (db w)) /\ U_Id x = u
                /\ fst (createMessage messageId c u payload w)
                   = Ok {| id := messageId; conversationId := c; senderId := u;
                           text := payload_text payload; createdAt := t;
                           editedAt := None; deletedAt := None;
                           replyToMessageId := None;
                           senderName := string_or_null (U_DisplayName x);
                           senderAvatar := string_or_null (U_AvatarUrl x) |}
  | Throw e => exists e', fst (createMessage messageId c u payload w) = Throw e'
  end.
Proof.
  intros Ht Hr Hauth key ivb out row.
  pose proof (createMessage_batch messageId c u payload w) as Hb. cbv zeta in Hb.
  fold key ivb out in Hb. rewrite Hb. clear Hb.
  unfold try_catch, send_batch, bind, get_db, log, GETUTCDATE, put_db, throw, ret.
  rewrite Ht, Hr. cbn [negb db advance_entropy add_event now set_db].
  rewrite Hauth. cbn [negb].
  fold row.
  destruct (insert_message row (db w)) as [d'|e] eqn:Hins.
  - unfold insert_message in Hins. cbn [M_Id M_ConversationId M_SenderId row] in Hins.
    destruct (existsb (fun m => str_eqb (M_Id m) messageId) (Messages (db w))) eqn:Hfresh;
      [discriminate Hins|].
    destruct (existsb (fun x => str_eqb (C_Id x) c) (Conversations (db w)));
      [|discriminate Hins].
    destruct (existsb (fun x => str_eqb (U_Id x) u) (Users (db w))) eqn:Huser;
      [|discriminate Hins].
    cbn [negb] in Hins. apply Ok_inj in Hins. subst d'.
    destruct (select_created_inserted (db w) row Hfresh Huser) as [x [rest [Hx Hsel]]].
    change (M_Id row) with messageId in Hsel.
    cbn [db set_db].
    rewrite (Hsel (update_conversation c messageId t (now w) _)) by reflexivity.
    cbn [fst snd row M_Id M_ConversationId M_SenderId M_CreatedAt].
    exists x. split; [|split; [exact Hx | reflexivity]].
    specialize (Hsel {| Users := Users (db w); Conversations := [];
                        ConversationParticipants := [];
                        Messages := Messages (db w) ++ [row] |} eq_refl eq_refl).
    assert (Hin : In (row, x) (select_created
                    {| Users := Users (db w); Conversations := [];
                       ConversationParticipants := [];
                       Messages := Messages (db w) ++ [row] |} messageId))
      by (rewrite Hsel; now left).
    unfold select_created in Hin. apply filter_In in Hin. destruct Hin as [Hin _].
    apply in_messages_join_users in Hin. cbn [fst snd Users] in Hin. tauto.
  - destruct (is_not_authorized e); eexists; reflexivity.
Qed.

Lemma existsb_ext_map {A : Type} (f : A -> A) (p : A -> bool) (l : list A) :
  (forall x, p (f x) = p x) -> existsb p (map f l) = existsb p l.
Proof.
  intros H. induction l as [|a l IH]; [reflexivity|].
  cbn [map existsb]. now rewrite H, IH.
Qed.

Lemma forallb_pointwise {A : Type} (f g : A -> bool) (l : list A) :
  (forall x, f x = g x) -> forallb f l = forallb g l.
Proof.
  intros H. induction l as [|a l IH]; [reflexivity|].
  cbn [forallb]. now rewrite H, IH.
Qed.

Lemma update_conversation_ids (c i : jsstring) (t n : Z) (d : Database) (k : jsstring) :
  existsb (fun x => str_eqb (C_Id x) k) (Conversations (update_conversation c i t n d))
  = existsb (fun x => str_eqb (C_Id x) k) (Conversations d).
Proof.
  unfold update_conversation. cbn [Conversations].
  apply existsb_ext_map. intros x. destruct (str_eqb (C_Id x) c); reflexivity.
Qed.

Lemma update_conversation_map_ids (c i : jsstring) (t n : Z) (d : Database) :
  map C_Id (Conversations (update_conversation c i t n d)) = map C_Id (Conversations d).
Proof.
  unfold update_conversation. cbn [Conversations]. rewrite map_map.
  apply map_ext. intros x. destruct (str_eqb (C_Id x) c); reflexivity.
Qed.

Lemma update_conversation_foreign_keys (c i : jsstring) (t n : Z) (d : Database) :
  foreign_keys_hold (update_conversation c i t n d) = foreign_keys_hold d.
Proof.
  unfold foreign_keys_hold.
  change (ConversationParticipants (update_conversation c i t n d))
    with (ConversationParticipants d).
  change (Users (update_conversation c i t n d)) with (Users d).
  apply forallb_pointwise. intros p. now rewrite update_conversation_ids.
Qed.

Lemma update_conversation_message_keys (c i : jsstring) (t n : Z) (d : Database) :
  message_keys_hold (update_conversation c i t n d) = message_keys_hold d.
Proof.
  unfold message_keys_hold.
  change (Messages (update_conversation c i t n d)) with (Messages d).
  change (Users (update_conversation c i t n d)) with (Users d).
  apply forallb_pointwise. intros p. now rewrite update_conversation_ids.
Qed.

(** The pointer the UPDATE writes is valid as soon as the message is
    stored; the pointers it leaves alone stay valid when rows are only
    added. *)
Lemma update_conversation_last_message (c i : jsstring) (t n : Z) (d d0 : Database) :
  last_message_exists d0 = true ->
  Conversations d = Conversations d0 ->
  (forall k, existsb (fun m => str_eqb (M_Id m) k) (Messages d0) = true ->
             existsb (fun m => str_eqb (M_Id m) k) (Messages d) = true) ->
  existsb (fun m => str_eqb (M_Id m) i) (Messages d) = true ->
  last_message_exists (update_conversation c i t n d) = true.
Proof.
  intros H0 Hc Hmono Hi. unfold last_message_exists in *.
  rewrite forallb_forall in H0. apply forallb_forall. intros x Hx.
  unfold update_conversation in Hx. cbn [Conversations] in Hx.
  apply in_map_iff in Hx. destruct Hx as [y [<- Hy]].
  change (Messages (update_conversation c i t n d)) with (Messages d).
  destruct (str_eqb (C_Id y) c).
  - cbn [C_LastMessageId]. exact Hi.
  - rewrite Hc in Hy. specialize (H0 y Hy).
    destruct (C_LastMessageId y) as [k|]; [|reflexivity]. now apply Hmono.
Qed.

Lemma insert_message_cases (row : MessageRow) (d : Database) :
  match insert_message row d with
  | Ok d' =>
      d' = {| Users := Users d; Conversations := Conversations d;
              ConversationParticipants := ConversationParticipants d;
              Messages := Messages d ++ [row] |}
      /\ existsb (fun m => str_eqb (M_Id m) (M_Id row)) (Messages d) = false
      /\ existsb (fun c => str_eqb (C_Id c) (M_ConversationId row)) (Conversations d) = true
      /\ existsb (fun u => str_eqb (U_Id u) (M_SenderId row)) (Users d) = true
  | Throw _ =>
      existsb (fun m => str_eqb (M_Id m) (M_Id row)) (Messages d) = true
      \/ existsb (fun c => str_eqb (C_Id c) (M_ConversationId row)) (Conversations d) = false
      \/ existsb (fun u => str_eqb (U_Id u) (M_SenderId row)) (Users d) = false
  end.
Proof.
  unfold insert_message.
  destruct (existsb (fun m => str_eqb (M_Id m) (M_Id row)) (Messages d)); [now left|].
  destruct (existsb (fun c => str_eqb (C_Id c) (M_ConversationId row)) (Conversations d));
    cbn [negb]; [|right; now left].
  destruct (existsb (fun u => str_eqb (U_Id u) (M_SenderId row)) (Users d));
    cbn [negb]; [|right; now right].
  repeat split.
Qed.

Lemma existsb_app_r {A : Type} (p : A -> bool) (l l' : list A) :
  existsb p l = true -> existsb p (l ++ l') = true.
Proof. intros H. rewrite existsb_app, H. reflexivity. Qed.

Lemma NoDup_map_snoc {A : Type} (key : A -> jsstring) (l : list A) (x : A) :
  NoDup (map key l) ->
  existsb (fun y => str_eqb (key y) (key x)) l = false ->
  NoDup (map key (l ++ [x])).
Proof.
  intros Hnd Hx. rewrite map_app. cbn [map].
  apply NoDup_app; [exact Hnd | repeat constructor; intros [] |].
  intros k Hk [Hk'|[]]. subst k.
  apply in_map_iff in Hk. destruct Hk as [y [Hy Hin]].
  assert (H : existsb (fun y => str_eqb (key y) (key x)) l = true).
  { apply existsb_exists. exists y. split; [exact Hin|]. now apply str_eqb_eq. }
  congruence.
Qed.

(** X6. [createMessage] keeps the store consistent, whatever its
    outcome: users, participants and conversation ids are untouched, the
    keys of the schema keep holding, message ids stay unique, and every
    last-message pointer, which the schema does not guard, still names a
    stored message.  A call that returns has appended exactly one row,
    with the given id, conversation and sender; a call that throws has
    stored no message. *)
Theorem createMessage_keeps_integrity (messageId c u : jsstring)
    (payload : CreateMessagePayload) (w : World) :
  foreign_keys_hold (db w) = true ->
  message_keys_hold (db w) = true ->
  last_message_exists (db w) = true ->
  unique_message_ids (db w) ->
  let r := createMessage messageId c u payload w in
  let d' := db (snd r) in
  foreign_keys_hold d' = true
  /\ message_keys_hold d' = true
  /\ last_message_exists d' = true
  /\ unique_message_ids d'
  /\ Users d' = Users (db w)
  /\ ConversationParticipants d' = ConversationParticipants (db w)
  /\ map C_Id (Conversations d') = map C_Id (Conversations (db w))
  /\ match fst r with
     | Ok m =>
         id m = messageId
         /\ exists row, Messages d' = Messages (db w) ++ [row]
                        /\ M_Id row = messageId /\ M_ConversationId row = c
                        /\ M_SenderId row = u /\ M_DeletedAt row = None
     | Throw _ => Messages d' = Messages (db w)
     end.
Proof.
  intros Hfk Hmk Hlast Huniq r d'.
  destruct (createMessage_store messageId c u payload w) as [_ Hdb].
  fold r in Hdb. fold d' in Hdb.
  destruct (payload_createdAt payload) as [t|] eqn:Ht.
  2:{ assert (Hr : fst r = Throw (validation_failed "CreatedAt" "Invalid date."))
        by (unfold r; now rewrite (createMessage_invalid_date _ _ _ _ _ Ht)).
      rewrite Hr, Hdb. repeat split; assumption. }
  destruct (datetime2_in_range t) eqn:Hrange; cbn [andb] in Hdb.
  2:{ assert (Hr : fst r = Throw (validation_failed "CreatedAt" "Out of range."))
        by (unfold r; now rewrite (createMessage_out_of_range _ _ _ _ _ _ Ht Hrange)).
      rewrite Hr, Hdb. repeat split; assumption. }
  destruct (is_active_participant (db w) c u) eqn:Hauth.
  2:{ assert (Hr : fst r = Throw (Error_new NOT_AUTHORIZED_TO_SEND))
        by (unfold r;
            now rewrite (createMessage_unauthorized _ _ _ _ _ _ Ht Hrange Hauth)).
      rewrite Hr, Hdb. repeat split; assumption. }
  pose proof (createMessage_result messageId c u payload t w Ht Hrange Hauth) as Hres.
  cbv zeta in Hres, Hdb. fold r in Hres.
  match type of Hdb with
  | context [insert_message ?x _] => set (row := x) in *
  end.
  pose proof (insert_message_cases row (db w)) as Hins.
  destruct (active_participant_references _ _ _ Hfk Hauth) as [Hconv Huser].
  destruct (insert_message row (db w)) as [d1|e].
  - destruct Hins as [-> [Hfresh _]]. destruct Hres as [x [_ [_ Hres]]].
    rewrite Hres, Hdb. cbn [id].
    rewrite update_conversation_foreign_keys, update_conversation_message_keys,
      update_conversation_map_ids.
    split; [exact Hfk|].
    split.
    { unfold message_keys_hold. cbn [Messages Users Conversations].
      rewrite forallb_app. unfold message_keys_hold in Hmk. rewrite Hmk.
      cbn [forallb row M_ConversationId M_SenderId]. now rewrite Hconv, Huser. }
    split.
    { apply (update_conversation_last_message c messageId t (now w) _ (db w) Hlast).
      - reflexivity.
      - intros k Hk. cbn [Messages]. now apply existsb_app_r.
      - cbn [Messages]. rewrite existsb_app. cbn [existsb row M_Id].
        rewrite str_eqb_refl. now rewrite orb_true_r. }
    split.
    { unfold unique_message_ids. cbn [update_conversation Messages].
      now apply NoDup_map_snoc. }
    repeat split. exists row. repeat split.
  - destruct Hres as [e' Hres]. rewrite Hres, Hdb.
    rewrite update_conversation_foreign_keys, update_conversation_message_keys,
      update_conversation_map_ids.
    split; [exact Hfk|]. split; [exact Hmk|].
    split.
    { apply (update_conversation_last_message c messageId t (now w) _ (db w) Hlast).
      - reflexivity.
      - auto.
      - cbn [row M_Id M_ConversationId M_SenderId] in Hins.
        destruct Hins as [H|[H|H]]; [exact H | congruence | congruence]. }
    repeat split; assumption.
Qed.

Lemma createMessage_keeps_integrity_witness :
  let r := createMessage (js "m1") (js "c1") (js "alice") Samples.hello Samples.world in
  let d' := db (snd r) in
  foreign_keys_hold d' = true
  /\ message_keys_hold d' = true
  /\ last_message_exists d' = true
  /\ unique_message_ids d'
  /\ Users d' = Users (db Samples.world)
  /\ ConversationParticipants d' = ConversationParticipants (db Samples.world)
  /\ map C_Id (Conversations d') = map C_Id (Conversations (db Samples.world))
  /\ match fst r with
     | Ok m =>
         id m = js "m1"
         /\ exists row, Messages d' = Messages (db Samples.world) ++ [row]
                        /\ M_Id row = js "m1" /\ M_ConversationId row = js "c1"
                        /\ M_SenderId row = js "alice" /\ M_DeletedAt row = None
     | Throw _ => Messages d' = Messages (db Samples.world)
     end.
Proof.
  apply (createMessage_keeps_integrity (js "m1") (js "c1") (js "alice")
           Samples.hello Samples.world);
    [vm_compute; reflexivity | vm_compute; reflexivity | vm_compute; reflexivity
    | vm_compute; constructor].
Defined.

Lemma filter_key_unique {A : Type} (key : A -> jsstring) (k : jsstring) (l : list A) :
  NoDup (map key l) ->
  (length (filter (fun x => str_eqb k (key x)) l) <= 1)%nat.
Proof.
  induction l as [|a l IH]; cbn [map filter length]; intros Hnd; [lia|].
  inversion Hnd as [|? ? Hnotin Hnd']; subst.
  destruct (str_eqb k (key a)) eqn:E; [|now apply IH].
  apply str_eqb_eq in E. subst k.
  rewrite filter_none; [cbn [length]; lia|].
  intros x Hx. apply str_eqb_neq. intros Heq. apply Hnotin.
  rewrite Heq. now apply in_map.
Qed.

Lemma filter_key_present {A : Type} (key : A -> jsstring) (k : jsstring) (l : list A) :
  existsb (fun x => str_eqb (key x) k) l = true ->
  (1 <= length (filter (fun x => str_eqb k (key x)) l))%nat.
Proof.
  induction l as [|a l IH]; cbn [existsb filter length]; [discriminate|].
  intros H. destruct (str_eqb k (key a)) eqn:E; [cbn [length]; lia|].
  apply IH. destruct (str_eqb (key a) k) eqn:E'; [|exact H].
  apply str_eqb_eq in E'. apply str_eqb_neq in E. congruence.
Qed.

Lemma filter_fst_pairs {A B : Type} (f : A -> bool) (a : A) (l : list B) :
  filter (fun r => f (fst r)) (map (pair a) l) = if f a then map (pair a) l else [].
Proof.
  induction l as [|b l IH]; cbn [map filter fst]; [now destruct (f a)|].
  rewrite IH. now destruct (f a).
Qed.

(** With unique user ids the join yields each message at most once. *)
Lemma join_length_le (d : Database) (f : MessageRow -> bool) :
  unique_user_ids d ->
  (length (filter (fun r => f (fst r)) (messages_join_users d))
   <= length (filter f (Messages d)))%nat.
Proof.
  intros Hu. unfold messages_join_users.
  induction (Messages d) as [|m l IH]; cbn [flat_map filter length]; [lia|].
  rewrite filter_app, length_app, filter_fst_pairs.
  pose proof (filter_key_unique U_Id (M_SenderId m) (Users d) Hu) as H1.
  destruct (f m); cbn [length]; [rewrite length_map|]; lia.
Qed.

(** ... and exactly once when every sender is a user. *)
Lemma join_length (d : Database) (f : MessageRow -> bool) :
  unique_user_ids d ->
  message_keys_hold d = true ->
  length (filter (fun r => f (fst r)) (messages_join_users d))
  = length (filter f (Messages d)).
Proof.
  intros Hu Hk. unfold messages_join_users, message_keys_hold in *.
  induction (Messages d) as [|m l IH]; cbn [flat_map filter length]; [reflexivity|].
  cbn [forallb] in Hk. apply andb_true_iff in Hk. destruct Hk as [Hm Hk].
  apply andb_true_iff in Hm. destruct Hm as [_ Hm].
  rewrite filter_app, length_app, filter_fst_pairs, (IH Hk).
  pose proof (filter_key_unique U_Id (M_SenderId m) (Users d) Hu) as H1.
  pose proof (filter_key_present U_Id (M_SenderId m) (Users d) Hm) as H2.
  destruct (f m); cbn [length]; [rewrite length_map|]; lia.
Qed.

Lemma visible_rows_length_le (d : Database) (c : jsstring) (b : Boundary) :
  unique_user_ids d ->
  Z.of_nat (length (visible_rows d c b)) <= count_messages d c.
Proof.
  intros Hu. unfold visible_rows, count_messages. rewrite sort_by_length.
  apply inj_le.
  etransitivity;
    [|apply (join_length_le d (fun m => str_eqb (M_ConversationId m) c
                                        && is_null (M_DeletedAt m)) Hu)].
  clear Hu. induction (messages_join_users d) as [|r l IH]; cbn [filter length]; [lia|].
  destruct (str_eqb (M_ConversationId (fst r)) c && is_null (M_DeletedAt (fst r)));
    cbn [andb]; [|exact IH].
  destruct (within b (M_CreatedAt (fst r))); cbn [length]; lia.
Qed.

Lemma visible_rows_length (d : Database) (c : jsstring) :
  unique_user_ids d ->
  message_keys_hold d = true ->
  Z.of_nat (length (visible_rows d c NoBoundary)) = count_messages d c.
Proof.
  intros Hu Hk. unfold visible_rows, count_messages. rewrite sort_by_length.
  f_equal.
  rewrite <- (join_length d (fun m => str_eqb (M_ConversationId m) c
                                      && is_null (M_DeletedAt m)) Hu Hk).
  f_equal. apply filter_ext. intros r. cbn [within]. now rewrite andb_true_r.
Qed.

Lemma in_visible_rows (d : Database) (c : jsstring) (b : Boundary)
    (r : MessageRow * UserRow) :
  In r (visible_rows d c b) <->
  In (fst r) (Messages d) /\ In (snd r) (Users d) /\ M_SenderId (fst r) = U_Id (snd r)
  /\ M_ConversationId (fst r) = c /\ M_DeletedAt (fst r) = None
  /\ within b (M_CreatedAt (fst r)) = true.
Proof.
  unfold visible_rows. rewrite sort_by_In, filter_In, in_messages_join_users.
  rewrite !andb_true_iff, str_eqb_eq.
  destruct (M_DeletedAt (fst r)); cbn [is_null]; intuition congruence.
Qed.

(** X7. What is sent is read back: after a send by an active
    participant with a well-formed text, a date the store can hold (an
    instant of the years 1 to 9999) and a fresh id, in a conversation of
    fewer than 50 messages, [getMessages] with default paging returns to
    any active participant a message with that id, sender, creation time
    and the very text that was sent; the total has grown by one. *)
Theorem sent_message_is_read_back (messageId c u reader : jsstring)
    (payload : CreateMessagePayload) (t : Z) (w : World) :
  payload_createdAt payload = Some t ->
  datetime2_in_range t = true ->
  isWellFormed (payload_text payload) = true ->
  is_active_participant (db w) c u = true ->
  is_active_participant (db w) c reader = true ->
  foreign_keys_hold (db w) = true ->
  unique_user_ids (db w) ->
  existsb (fun m => str_eqb (M_Id m) messageId) (Messages (db w)) = false ->
  count_messages (db w) c < 50 ->
  exists sent w' page read,
    createMessage messageId c u payload w = (Ok sent, w')
    /\ fst (getMessages c reader
              {| limit := None; offset := None; before := None; after := None |} w')
       = Ok page
    /\ total page = count_messages (db w) c + 1
    /\ In read (data page)
    /\ id read = messageId /\ conversationId read = c /\ senderId read = u
    /\ text read = payload_text payload /\ createdAt read = t
    /\ senderName read = senderName sent.
Proof.
  intros Ht Hrange Hwf Hauth Hreader Hfk Hu Hfresh Hcount.
  destruct (active_participant_references _ _ _ Hfk Hauth) as [Hconv Huser].
  pose proof (createMessage_store messageId c u payload w) as Hst.
  pose proof (createMessage_result messageId c u payload t w Ht Hrange Hauth) as Hres.
  cbv zeta in Hst, Hres. rewrite Ht, Hrange, Hauth in Hst. cbn [andb] in Hst.
  set (key := conversation_key (env w "MASTER_ENCRYPTION_KEY"%string) c) in *.
  set (ivb := map (entropy w) (seq (entropy_pos w) IV_LENGTH)) in *.
  set (out := Gcm.encrypt (base64_decode key) ivb (utf8_encode (payload_text payload))) in *.
  set (row := {| M_Id := messageId; M_ConversationId := c; M_SenderId := u;
                 M_Ciphertext := base64_encode (fst out ++ snd out);
                 M_IV := base64_encode ivb;
                 M_CreatedAt := t; M_EditedAt := None;
                 M_DeletedAt := None; M_ReplyToMessageId := None |}) in *.
  assert (Hins : insert_message row (db w)
                 = Ok {| Users := Users (db w); Conversations := Conversations (db w);
                         ConversationParticipants := ConversationParticipants (db w);
                         Messages := Messages (db w) ++ [row] |}).
  { unfold insert_message. cbn [row M_Id M_ConversationId M_SenderId].
    now rewrite Hfresh, Hconv, Huser. }
  rewrite Hins in Hst, Hres. destruct Hst as [Henv Hdb].
  destruct Hres as [x [Hxin [Hxid Hres]]].
  destruct (createMessage messageId c u payload w) as [r w'] eqn:Hcm.
  cbn [fst snd] in *. subst r.
  assert (Hreader' : is_active_participant (db w') c reader = true)
    by (rewrite Hdb; exact Hreader).
  assert (Hu' : unique_user_ids (db w')) by (rewrite Hdb; exact Hu).
  assert (Hcount' : count_messages (db w') c = count_messages (db w) c + 1).
  { rewrite Hdb. unfold count_messages. cbn [update_conversation Messages].
    rewrite filter_app, length_app. cbn [filter row M_ConversationId M_DeletedAt is_null].
    rewrite str_eqb_refl. cbn [andb length]. lia. }
  pose proof (getMessages_accepted c reader
                {| limit := None; offset := None; before := None; after := None |} w'
                Hreader') as Hget.
  cbn [limit offset number_or boundary_of before after] in Hget.
  specialize (Hget ltac:(lia) ltac:(lia)). cbv zeta in Hget.
  change (Z.to_nat (Z.min 50 100)) with 50%nat in Hget.
  change (Z.to_nat 0) with 0%nat in Hget. cbn [skipn] in Hget.
  rewrite firstn_all2 in Hget
    by (pose proof (visible_rows_length_le (db w') c NoBoundary Hu'); lia).
  rewrite Henv in Hget. fold key in Hget.
  eexists. exists w'. eexists. exists (decrypt_row key (row, x)).
  split; [reflexivity|].
  split; [rewrite Hget; reflexivity|].
  cbn [data total id conversationId senderId text createdAt senderName
       decrypt_row fst snd row M_Id M_ConversationId M_SenderId M_CreatedAt
       M_Ciphertext M_IV].
  split; [exact Hcount'|].
  split.
  { apply (in_map (decrypt_row key)). apply in_visible_rows.
    rewrite Hdb. cbn [fst snd update_conversation Messages Users row M_SenderId
                        M_ConversationId M_DeletedAt M_CreatedAt within].
    repeat split; auto. apply in_or_app. right. now left. }
  pose proof (decryptMessage_of_encrypted (payload_text payload) key ivb
                (conversation_key_length _ _) (entropy_bytes_length w IV_LENGTH)) as Hd.
  cbv zeta in Hd. fold out in Hd. rewrite Hd.
  rewrite (utf8_decode_encode _ Hwf).
  repeat split; reflexivity.
Qed.

Lemma sample_users_unique : unique_user_ids (db Samples.world).
Proof.
  unfold unique_user_ids. vm_compute.
  constructor; [intros [H|[]]; discriminate H|].
  constructor; [intros []|constructor].
Qed.

Lemma sent_message_is_read_back_witness :
  exists sent w' page read,
    createMessage (js "m1") (js "c1") (js "alice") Samples.hello Samples.world
    = (Ok sent, w')
    /\ fst (getMessages (js "c1") (js "alice")
              {| limit := None; offset := None; before := None; after := None |} w')
       = Ok page
    /\ total page = count_messages (db Samples.world) (js "c1") + 1
    /\ In read (data page)
    /\ id read = js "m1" /\ conversationId read = js "c1" /\ senderId read = js "alice"
    /\ text read = payload_text Samples.hello /\ createdAt read = 42
    /\ senderName read = senderName sent.
Proof.
  apply (sent_message_is_read_back (js "m1") (js "c1") (js "alice") (js "alice")
           Samples.hello 42 Samples.world);
    [reflexivity | reflexivity | vm_compute; reflexivity | vm_compute; reflexivity
    | vm_compute; reflexivity | vm_compute; reflexivity | exact sample_users_unique
    | vm_compute; reflexivity | vm_compute; reflexivity].
Defined.

(** X8. [getMessages] only reads: the database, the environment and
    the random source are as before, for every input and outcome.  It
    looks the participant up first, and derives the conversation key only
    when the caller is an active participant and the page query has been
    accepted; a page is returned to active participants only. *)
Theorem getMessages_only_reads (c u : jsstring) (params : MessageQueryParams)
    (w : World) :
  let r := getMessages c u params w in
  db (snd r) = db w
  /\ env (snd r) = env w
  /\ entropy_pos (snd r) = entropy_pos w
  /\ trace (snd r)
     = trace w ++ [EvAuthCheck c u (is_active_participant (db w) c u)]
         ++ (if is_ok (fst r) then [EvDeriveKey c] else [])
  /\ (forall p, fst r = Ok p -> is_active_participant (db w) c u = true).
Proof.
  intros r. subst r.
  destruct (is_active_participant (db w) c u) eqn:Hauth.
  - rewrite (getMessages_authorized c u params w Hauth).
    destruct (select_page (db w) c (boundary_of (db w) params)
                (number_or (offset params) 0) (Z.min (number_or (limit params) 50) 100));
      cbn [fst snd db env entropy_pos trace add_event is_ok];
      rewrite <- ?app_assoc; repeat split; rewrite ?app_nil_r; reflexivity.
  - rewrite (getMessages_unauthorized c u params w Hauth).
    cbn [fst snd db env entropy_pos trace add_event is_ok].
    repeat split; try (rewrite ?app_nil_r; reflexivity).
    intros p Hp. discriminate Hp.
Qed.

End StoreFacts.

(** ** Cursors and pages *)

Module PagingFacts.
Import Integrity.
Import BufferFacts SortingFacts EncryptionFacts ServiceFacts StoreFacts.

Lemma boundary_of_before (d : Database) (params : MessageQueryParams) (b : jsstring) :
  before params = Some b -> truthy b = true ->
  boundary_of d params
  = match select_CreatedAt d b with
    | t :: _ => BeforeCreatedAt t
    | [] => NoBoundary
    end.
Proof. intros Hb Ht. unfold boundary_of. rewrite Hb, Ht. reflexivity. Qed.

Lemma boundary_of_after (d : Database) (params : MessageQueryParams) (a : jsstring) :
  truthy_opt (before params) = false ->
  after params = Some a -> truthy a = true ->
  boundary_of d params
  = match select_CreatedAt d a with
    | t :: _ => AfterCreatedAt t
    | [] => NoBoundary
    end.
Proof.
  intros Hb Ha Ht. unfold boundary_of. rewrite Ha, Ht.
  destruct (before params) as [b|]; [|reflexivity].
  cbn [truthy_opt] in Hb. rewrite Hb. reflexivity.
Qed.

Lemma boundary_of_none (d : Database) (l o : option Z) :
  boundary_of d {| limit := l; offset := o; before := None; after := None |} = NoBoundary.
Proof. reflexivity. Qed.

Lemma in_page_row (key : jsstring) (n k : nat) (d : Database) (c : jsstring) (b : Boundary)
    (m : Message) :
  In m (map (decrypt_row key) (firstn n (skipn k (visible_rows d c b)))) ->
  exists r, In r (visible_rows d c b) /\ createdAt m = M_CreatedAt (fst r)
            /\ id m = M_Id (fst r).
Proof.
  intros H. apply in_map_iff in H. destruct H as [r [<- Hr]].
  exists r. split; [|split; reflexivity].
  eapply in_skipn, in_firstn, Hr.
Qed.

(** X9. Cursors are strict and compare creation times: with [before]
    naming a stored message, every returned message was created strictly
    earlier than it ([after] is then ignored); with [after] naming one
    (and no [before]), strictly later, so a message created at the very
    instant of the cursor is never returned.  A cursor that names no
    stored message is ignored: the page is the one of the request without
    cursors. *)
Theorem cursor_bounds_page (c u : jsstring) (params : MessageQueryParams) (w : World) :
  is_active_participant (db w) c u = true ->
  0 <= number_or (offset params) 0 <= 2147483647 ->
  0 <= number_or (limit params) 50 ->
  exists page,
    fst (getMessages c u params w) = Ok page
    /\ (forall b, before params = Some b -> truthy b = true ->
          match select_CreatedAt (db w) b with
          | t :: _ => forall m, In m (data page) -> createdAt m < t
          | [] =>
              fst (getMessages c u
                     {| limit := limit params; offset := offset params;
                        before := None; after := None |} w) = Ok page
          end)
    /\ (forall a, truthy_opt (before params) = false ->
          after params = Some a -> truthy a = true ->
          match select_CreatedAt (db w) a with
          | t :: _ => forall m, In m (data page) -> t < createdAt m
          | [] =>
              fst (getMessages c u
                     {| limit := limit params; offset := offset params;
                        before := None; after := None |} w) = Ok page
          end).
Proof.
  intros Hauth Hoff Hlim.
  pose proof (getMessages_accepted c u params w Hauth Hoff Hlim) as Hget.
  pose proof (getMessages_accepted c u
                {| limit := limit params; offset := offset params;
                   before := None; after := None |} w Hauth Hoff Hlim) as Hget0.
  cbv zeta in Hget, Hget0. cbn [limit offset] in Hget0.
  rewrite boundary_of_none in Hget0.
  eexists. split; [rewrite Hget; reflexivity|].
  cbn [data]. split.
  - intros b Hb Ht. rewrite (boundary_of_before _ _ _ Hb Ht).
    destruct (select_CreatedAt (db w) b) as [|t rest].
    + rewrite Hget0. reflexivity.
    + intros m Hm. apply in_page_row in Hm. destruct Hm as [r [Hr [-> _]]].
      apply in_visible_rows in Hr. cbn [within] in Hr.
      destruct Hr as [_ [_ [_ [_ [_ Hr]]]]]. lia.
  - intros a Hb Ha Ht. rewrite (boundary_of_after _ _ _ Hb Ha Ht).
    destruct (select_CreatedAt (db w) a) as [|t rest].
    + rewrite Hget0. reflexivity.
    + intros m Hm. apply in_page_row in Hm. destruct Hm as [r [Hr [-> _]]].
      apply in_visible_rows in Hr. cbn [within] in Hr.
      destruct Hr as [_ [_ [_ [_ [_ Hr]]]]]. lia.
Qed.

Lemma cursor_bounds_page_witness :
  exists page,
    fst (getMessages (js "c1") (js "alice")
           {| limit := Some 10; offset := None; before := None; after := Some (js "m1") |}
           Samples.world_with_messages) = Ok page
    /\ (forall b, None = Some b -> truthy b = true ->
          match select_CreatedAt (db Samples.world_with_messages) b with
          | t :: _ => forall m, In m (data page) -> createdAt m < t
          | [] =>
              fst (getMessages (js "c1") (js "alice")
                     {| limit := Some 10; offset := None; before := None; after := None |}
                     Samples.world_with_messages) = Ok page
          end)
    /\ (forall a, false = false -> Some (js "m1") = Some a -> truthy a = true ->
          match select_CreatedAt (db Samples.world_with_messages) a with
          | t :: _ => forall m, In m (data page) -> t < createdAt m
          | [] =>
              fst (getMessages (js "c1") (js "alice")
                     {| limit := Some 10; offset := None; before := None; after := None |}
                     Samples.world_with_messages) = Ok page
          end).
Proof.
  apply (cursor_bounds_page (js "c1") (js "alice")
           {| limit := Some 10; offset := None; before := None; after := Some (js "m1") |}
           Samples.world_with_messages);
    [vm_compute; reflexivity | vm_compute; split; discriminate | vm_compute; discriminate].
Defined.

Lemma filter_and_length {A : Type} (f g : A -> bool) (l : list A) :
  (length (filter (fun x => f x && g x) l) <= length (filter f l))%nat.
Proof.
  induction l as [|a l IH]; cbn [filter length]; [lia|].
  destruct (f a), (g a); cbn [andb length]; lia.
Qed.

Lemma filter_and_length_lt {A : Type} (f g : A -> bool) (l : list A) (x : A) :
  In x l -> f x = true -> g x = false ->
  (length (filter (fun x => f x && g x) l) < length (filter f l))%nat.
Proof.
  induction l as [|a l IH]; cbn [filter length In]; [tauto|].
  intros [->|Hin] Hf Hg.
  - rewrite Hf, Hg. cbn [andb length].
    pose proof (filter_and_length f g l). lia.
  - specialize (IH Hin Hf Hg). destruct (f a), (g a); cbn [andb length]; lia.
Qed.

Lemma select_CreatedAt_unique (d : Database) (row : MessageRow) :
  unique_message_ids d -> In row (Messages d) ->
  select_CreatedAt d (M_Id row) = [M_CreatedAt row].
Proof.
  unfold unique_message_ids, select_CreatedAt.
  induction (Messages d) as [|m l IH]; cbn [map filter In]; [tauto|].
  intros Hnd Hin. inversion Hnd as [|? ? Hnotin Hnd']; subst.
  destruct Hin as [->|Hin].
  - rewrite str_eqb_refl. cbn [map]. f_equal.
    rewrite filter_none; [reflexivity|].
    intros y Hy. apply str_eqb_neq. intros Heq. apply Hnotin.
    rewrite <- Heq. now apply in_map.
  - destruct (str_eqb (M_Id m) (M_Id row)) eqn:E; [|now apply IH].
    exfalso. apply str_eqb_eq in E. apply Hnotin. rewrite E. now apply in_map.
Qed.

(** X10. [hasMore] is computed against the whole conversation: a page
    requested at offset 0 with [after] naming a visible message of the
    conversation always reports [hasMore = true], even when it holds
    every message after the cursor, because the total counts the cursor
    message and those before it. *)
Theorem cursor_page_reports_more (c u a : jsstring) (params : MessageQueryParams)
    (row : MessageRow) (w : World) :
  is_active_participant (db w) c u = true ->
  number_or (offset params) 0 = 0 ->
  0 <= number_or (limit params) 50 ->
  truthy_opt (before params) = false ->
  after params = Some a -> truthy a = true ->
  unique_user_ids (db w) ->
  unique_message_ids (db w) ->
  In row (Messages (db w)) ->
  M_Id row = a -> M_ConversationId row = c -> M_DeletedAt row = None ->
  exists page,
    fst (getMessages c u params w) = Ok page
    /\ (forall m, In m (data page) -> M_CreatedAt row < createdAt m)
    /\ Z.of_nat (length (data page)) < total page
    /\ hasMore page = true.
Proof.
  intros Hauth Hoff Hlim Hb Ha Ht Hu Hm Hin Hid Hc Hdel.
  pose proof (getMessages_accepted c u params w Hauth) as Hget.
  rewrite Hoff in Hget. specialize (Hget ltac:(lia) Hlim). cbv zeta in Hget.
  rewrite (boundary_of_after _ _ _ Hb Ha Ht) in Hget.
  rewrite <- Hid, (select_CreatedAt_unique _ _ Hm Hin) in Hget.
  change (Z.to_nat 0) with 0%nat in Hget. cbn [skipn] in Hget.
  assert (Hlen : Z.of_nat (length (visible_rows (db w) c (AfterCreatedAt (M_CreatedAt row))))
                 < count_messages (db w) c).
  { unfold visible_rows, count_messages. rewrite sort_by_length.
    apply inj_lt.
    eapply Nat.le_lt_trans.
    - apply (join_length_le (db w)
               (fun m => str_eqb (M_ConversationId m) c && is_null (M_DeletedAt m)
                         && within (AfterCreatedAt (M_CreatedAt row)) (M_CreatedAt m)) Hu).
    - apply (filter_and_length_lt
               (fun m => str_eqb (M_ConversationId m) c && is_null (M_DeletedAt m))
               (fun m => within (AfterCreatedAt (M_CreatedAt row)) (M_CreatedAt m))
               _ row Hin).
      + rewrite Hc, Hdel, str_eqb_refl. reflexivity.
      + cbn [within]. apply Z.ltb_irrefl. }
  assert (Hpage : forall n,
             Z.of_nat (length (firstn n (visible_rows (db w) c
                                           (AfterCreatedAt (M_CreatedAt row)))))
             < count_messages (db w) c).
  { intros n. rewrite length_firstn. lia. }
  eexists. split; [rewrite Hget; reflexivity|].
  cbn [data total hasMore]. rewrite length_map.
  split.
  { intros m Hm'.
    apply (in_page_row _ _ 0 (db w) c (AfterCreatedAt (M_CreatedAt row))) in Hm'.
    destruct Hm' as [r [Hr [-> _]]].
    apply in_visible_rows in Hr. cbn [within] in Hr.
    destruct Hr as [_ [_ [_ [_ [_ Hr]]]]]. lia. }
  split; [apply Hpage|].
  apply Z.ltb_lt. rewrite Z.add_0_l. apply Hpage.
Qed.

Lemma sample_messages_unique : unique_message_ids (db Samples.world_with_messages).
Proof.
  unfold unique_message_ids. vm_compute.
  constructor; [intros [H|[]]; discriminate H|].
  constructor; [intros []|constructor].
Qed.

Lemma cursor_page_reports_more_witness :
  exists page,
    fst (getMessages (js "c1") (js "alice")
           {| limit := Some 10; offset := None; before := None; after := Some (js "m1") |}
           Samples.world_with_messages) = Ok page
    /\ (forall m, In m (data page) -> M_CreatedAt Samples.message_1 < createdAt m)
    /\ Z.of_nat (length (data page)) < total page
    /\ hasMore page = true.
Proof.
  apply (cursor_page_reports_more (js "c1") (js "alice") (js "m1")
           {| limit := Some 10; offset := None; before := None; after := Some (js "m1") |}
           Samples.message_1 Samples.world_with_messages);
    [vm_compute; reflexivity | reflexivity | vm_compute; discriminate | reflexivity
    | reflexivity | reflexivity | exact sample_users_unique | exact sample_messages_unique
    | right; left; reflexivity | reflexivity | reflexivity | reflexivity].
Defined.

Lemma firstn_add {A : Type} (a b : nat) (l : list A) :
  firstn (a + b) l = firstn a l ++ firstn b (skipn a l).
Proof.
  revert l. induction a as [|a IH]; intros l; [reflexivity|].
  destruct l as [|x l]; [now rewrite !firstn_nil|].
  cbn [Nat.add firstn skipn app]. now rewrite IH.
Qed.

Lemma skipn_add {A : Type} (a b : nat) (l : list A) :
  skipn b (skipn a l) = skipn (a + b) l.
Proof.
  revert l. induction a as [|a IH]; intros l; [reflexivity|].
  destruct l as [|x l]; [now rewrite !skipn_nil|].
  cbn [Nat.add skipn]. apply IH.
Qed.

Lemma number_or_positive (v d : Z) : 1 <= v -> number_or (Some v) d = v.
Proof.
  intros H. unfold number_or. destruct (v =? 0) eqn:E; [|reflexivity].
  apply Z.eqb_eq in E. lia.
Qed.

Lemma number_or_offset (v : Z) : number_or (Some v) 0 = v.
Proof.
  unfold number_or. destruct (v =? 0) eqn:E; [|reflexivity].
  apply Z.eqb_eq in E. now subst.
Qed.

(** X11. Pages tile: when no two messages of the conversation share a
    creation time, for limits [l1], [l2] with [l1 + l2 <= 100], the page
    at offset [o] of length [l1] followed by the page at offset [o + l1]
    of length [l2] is the page at offset [o] of length [l1 + l2], message
    for message, under the same cursors; the three report the same
    total. *)
Theorem pages_tile (c u : jsstring) (o l1 l2 : Z) (b a : option jsstring) (w : World) :
  is_active_participant (db w) c u = true ->
  distinct_creation_times (db w) c ->
  0 <= o -> 1 <= l1 -> 1 <= l2 -> l1 + l2 <= 100 -> o + l1 <= 2147483647 ->
  exists p1 p2 p12,
    fst (getMessages c u {| limit := Some l1; offset := Some o;
                            before := b; after := a |} w) = Ok p1
    /\ fst (getMessages c u {| limit := Some l2; offset := Some (o + l1);
                               before := b; after := a |} w) = Ok p2
    /\ fst (getMessages c u {| limit := Some (l1 + l2); offset := Some o;
                               before := b; after := a |} w) = Ok p12
    /\ data p12 = data p1 ++ data p2
    /\ total p1 = total p12 /\ total p2 = total p12.
Proof.
  intros Hauth _ Ho H1 H2 H12 Hmax.
  pose proof (getMessages_accepted c u
                {| limit := Some l1; offset := Some o; before := b; after := a |}
                w Hauth) as G1.
  pose proof (getMessages_accepted c u
                {| limit := Some l2; offset := Some (o + l1); before := b; after := a |}
                w Hauth) as G2.
  pose proof (getMessages_accepted c u
                {| limit := Some (l1 + l2); offset := Some o; before := b; after := a |}
                w Hauth) as G12.
  cbn [limit offset] in G1, G2, G12.
  rewrite !number_or_offset in G1, G2, G12.
  rewrite (number_or_positive l1) in G1 by lia.
  rewrite (number_or_positive l2) in G2 by lia.
  rewrite (number_or_positive (l1 + l2)) in G12 by lia.
  specialize (G1 ltac:(lia) ltac:(lia)).
  specialize (G2 ltac:(lia) ltac:(lia)).
  specialize (G12 ltac:(lia) ltac:(lia)).
  cbv zeta in G1, G2, G12.
  rewrite !Z.min_l in G1, G2, G12 by lia.
  assert (Hb : forall l o', boundary_of (db w)
                              {| limit := l; offset := o'; before := b; after := a |}
                            = boundary_of (db w)
                                {| limit := None; offset := None; before := b; after := a |})
    by reflexivity.
  rewrite (Hb (Some l1)) in G1. rewrite (Hb (Some l2)) in G2.
  rewrite (Hb (Some (l1 + l2))) in G12.
  set (rows := visible_rows (db w) c
                 (boundary_of (db w)
                    {| limit := None; offset := None; before := b; after := a |})) in *.
  rewrite !Z2Nat.inj_add in G2, G12 by lia.
  rewrite <- skipn_add in G2. rewrite firstn_add, skipn_add in G12.
  rewrite <- skipn_add in G12.
  do 3 eexists.
  split; [rewrite G1; reflexivity|].
  split; [rewrite G2; reflexivity|].
  split; [rewrite G12; reflexivity|].
  cbn [data total hasMore].
  split; [now rewrite map_app|].
  split; reflexivity.
Qed.

Lemma sample_creation_times :
  distinct_creation_times (db Samples.world_with_messages) (js "c1").
Proof.
  unfold distinct_creation_times. vm_compute.
  constructor; [intros [H|[]]; discriminate H|].
  constructor; [intros []|constructor].
Qed.

Lemma pages_tile_witness :
  exists p1 p2 p12,
    fst (getMessages (js "c1") (js "alice")
           {| limit := Some 1; offset := Some 0; before := None; after := None |}
           Samples.world_with_messages) = Ok p1
    /\ fst (getMessages (js "c1") (js "alice")
              {| limit := Some 1; offset := Some (0 + 1); before := None; after := None |}
              Samples.world_with_messages) = Ok p2
    /\ fst (getMessages (js "c1") (js "alice")
              {| limit := Some (1 + 1); offset := Some 0; before := None; after := None |}
              Samples.world_with_messages) = Ok p12
    /\ data p12 = data p1 ++ data p2
    /\ total p1 = total p12 /\ total p2 = total p12.
Proof.
  apply (pages_tile (js "c1") (js "alice") 0 1 1 None None Samples.world_with_messages);
    [vm_compute; reflexivity | exact sample_creation_times | lia | lia | lia | lia | lia].
Defined.

(** X12. Without a cursor, in a store whose user ids are unique and
    whose messages all have a sender among the users, [hasMore] is exact:
    it is true exactly when the page that starts where this one ends is
    not empty, and once false it stays false there. *)
Theorem hasMore_is_exact_without_cursor (c u : jsstring) (o l : Z) (w : World) :
  is_active_participant (db w) c u = true ->
  unique_user_ids (db w) ->
  message_keys_hold (db w) = true ->
  0 <= o -> 1 <= l <= 100 -> o + l <= 2147483647 ->
  exists page next,
    fst (getMessages c u {| limit := Some l; offset := Some o;
                            before := None; after := None |} w) = Ok page
    /\ fst (getMessages c u
              {| limit := Some l; offset := Some (o + Z.of_nat (length (data page)));
                 before := None; after := None |} w) = Ok next
    /\ (hasMore page = true <-> data next <> [])
    /\ (hasMore page = false -> hasMore next = false).
Proof.
  intros Hauth Hu Hk Ho Hl Hmax.
  pose proof (getMessages_accepted c u
                {| limit := Some l; offset := Some o; before := None; after := None |}
                w Hauth) as G1.
  cbn [limit offset] in G1. rewrite number_or_offset in G1.
  rewrite (number_or_positive l) in G1 by lia.
  specialize (G1 ltac:(lia) ltac:(lia)). cbv zeta in G1.
  rewrite Z.min_l, boundary_of_none in G1 by lia.
  set (rows := visible_rows (db w) c NoBoundary) in *.
  set (n := length (firstn (Z.to_nat l) (skipn (Z.to_nat o) rows))).
  assert (Hn : (n <= Z.to_nat l)%nat) by (unfold n; rewrite length_firstn; lia).
  pose proof (getMessages_accepted c u
                {| limit := Some l; offset := Some (o + Z.of_nat n);
                   before := None; after := None |} w Hauth) as G2.
  cbn [limit offset] in G2. rewrite number_or_offset in G2.
  rewrite (number_or_positive l) in G2 by lia.
  specialize (G2 ltac:(lia) ltac:(lia)). cbv zeta in G2.
  rewrite Z.min_l, boundary_of_none in G2 by lia. fold rows in G2.
  pose proof (visible_rows_length (db w) c Hu Hk) as Htotal. fold rows in Htotal.
  do 2 eexists.
  split; [rewrite G1; reflexivity|].
  cbn [data]. rewrite length_map. fold n.
  split; [rewrite G2; reflexivity|].
  cbn [data hasMore]. rewrite ?length_map, <- Htotal.
  assert (Hlen1 : n = Nat.min (Z.to_nat l) (length rows - Z.to_nat o))
    by (unfold n; now rewrite length_firstn, length_skipn).
  set (next := firstn (Z.to_nat l) (skipn (Z.to_nat (o + Z.of_nat n)) rows)).
  assert (Hlen2 : length next
                  = Nat.min (Z.to_nat l) (length rows - Z.to_nat (o + Z.of_nat n)))
    by (unfold next; now rewrite length_firstn, length_skipn).
  split.
  - rewrite Z.ltb_lt. split.
    + intros H Hnil. apply (f_equal (@length _)) in Hnil.
      rewrite length_map in Hnil. cbn [length] in Hnil. lia.
    + intros H. destruct next as [|x next'] eqn:E; [now elim H|].
      cbn [length] in Hlen2. lia.
  - rewrite !Z.ltb_ge. lia.
Qed.

Lemma sample_message_keys : message_keys_hold (db Samples.world_with_messages) = true.
Proof. vm_compute. reflexivity. Qed.

Lemma hasMore_is_exact_without_cursor_witness :
  exists page next,
    fst (getMessages (js "c1") (js "alice")
           {| limit := Some 1; offset := Some 0; before := None; after := None |}
           Samples.world_with_messages) = Ok page
    /\ fst (getMessages (js "c1") (js "alice")
              {| limit := Some 1; offset := Some (0 + Z.of_nat (length (data page)));
                 before := None; after := None |} Samples.world_with_messages) = Ok next
    /\ (hasMore page = true <-> data next <> [])
    /\ (hasMore page = false -> hasMore next = false).
Proof.
  apply (hasMore_is_exact_without_cursor (js "c1") (js "alice") 0 1
           Samples.world_with_messages);
    [vm_compute; reflexivity | exact sample_users_unique | exact sample_message_keys
    | lia | lia | lia].
Defined.

End PagingFacts.

(** ** POST /messages *)

Module PostFacts.
Import BufferFacts EncryptionFacts ServiceFacts MessagesRoute.

Lemma post_run (req : Request) (c txt : jsstring) (w : World) :
  body_conversationId (body req) = Some c -> truthy c = true ->
  body_text (body req) = Some txt -> truthy txt = true ->
  let messageId := uuid_of_bytes (map (entropy w) (seq (entropy_pos w) 16)) in
  post req w
  = match createMessage messageId c (RequestIdentity.senderId req)
            {| payload_conversationId := c; payload_text := txt;
               payload_createdAt := body_createdAt (body req) |}
            (advance_entropy 16 w) with
    | (Ok m, w') => (Ok {| status := 201; json := JsonMessage m |}, w')
    | (Throw e, w') =>
        if is_not_authorized e
        then (Ok {| status := 403; json := JsonError (message e) [] |}, w')
        else (Ok {| status := 500; json := JsonError (js "Internal server error") [] |}, w')
    end.
Proof.
  intros Hc Htc Ht Htt messageId. unfold post, try_catch.
  rewrite Hc, Ht, Htc, Htt. cbn [negb orb].
  unfold bind at 1. unfold randomUUID at 1. unfold bind at 1, randomBytes, ret at 1.
  unfold bind at 1. fold messageId.
  change (match nullish (user_id req) (nullish (body_senderId (body req)) (x_user_id req)) with
          | Some s => s
          | None => js "user-123"
          end) with (RequestIdentity.senderId req).
  destruct (createMessage _ _ _ _ _) as [[m|e] w']; [reflexivity|].
  destruct (is_not_authorized e); reflexivity.
Qed.

(** X13. POST /messages by someone who is no active participant of the
    conversation: a request with a conversation id, a text and a date
    the store can hold (an instant of the years 1 to 9999), whose sender
    ([req.user.id] if the middleware has set it, else the body's
    [senderId], else the X-User-Id header, else "user-123") is not an
    active participant, is answered 403 with the message "Not authorized
    to send messages to this conversation", and the database is
    unchanged. *)
Theorem post_by_non_participant (req : Request) (c txt : jsstring) (t : Z) (w : World) :
  body_conversationId (body req) = Some c -> truthy c = true ->
  body_text (body req) = Some txt -> truthy txt = true ->
  body_createdAt (body req) = Some t ->
  datetime2_in_range t = true ->
  is_active_participant (db w) c (RequestIdentity.senderId req) = false ->
  exists w',
    post req w
    = (Ok {| status := 403; json := JsonError NOT_AUTHORIZED_TO_SEND [] |}, w')
    /\ db w' = db w.
Proof.
  intros Hc Htc Ht Htt Hd Hr Hauth.
  rewrite (post_run req c txt w Hc Htc Ht Htt).
  rewrite (createMessage_unauthorized _ c (RequestIdentity.senderId req) _ t
             (advance_entropy 16 w)) by (rewrite ?Hd; auto).
  rewrite (proj2 (not_authorized_to_send 0)).
  eexists. split; reflexivity.
Qed.

(** X14. POST /messages by an active participant, with a date the store
    can hold (an instant of the years 1 to 9999): when the foreign keys
    hold and the generated id is fresh, the answer is 201 with the
    created message, whose id is the UUID made of the next 16 random
    bytes, whose sender is the resolved one (the body's [senderId] wins
    over the header when [req.user] is not set), and whose text and date
    are those of the body; a row with that id and sender is stored. *)
Theorem post_by_participant (req : Request) (c txt : jsstring) (t : Z) (w : World) :
  body_conversationId (body req) = Some c -> truthy c = true ->
  body_text (body req) = Some txt -> truthy txt = true ->
  body_createdAt (body req) = Some t ->
  datetime2_in_range t = true ->
  is_active_participant (db w) c (RequestIdentity.senderId req) = true ->
  foreign_keys_hold (db w) = true ->
  let messageId := uuid_of_bytes (map (entropy w) (seq (entropy_pos w) 16)) in
  existsb (fun m => str_eqb (M_Id m) messageId) (Messages (db w)) = false ->
  exists m w',
    post req w = (Ok {| status := 201; json := JsonMessage m |}, w')
    /\ id m = messageId /\ conversationId m = c
    /\ senderId m = RequestIdentity.senderId req
    /\ text m = txt /\ createdAt m = t
    /\ exists row, In row (Messages (db w'))
                   /\ M_Id row = messageId /\ M_SenderId row = RequestIdentity.senderId req
                   /\ M_ConversationId row = c.
Proof.
  intros Hc Htc Ht Htt Hd Hr Hauth Hfk messageId Hfresh.
  rewrite (post_run req c txt w Hc Htc Ht Htt). fold messageId.
  destruct (createMessage_authorized messageId c (RequestIdentity.senderId req)
              {| payload_conversationId := c; payload_text := txt;
                 payload_createdAt := body_createdAt (body req) |}
              t (advance_entropy 16 w) Hd Hr Hauth Hfk Hfresh)
    as [m [w' [enc [Hrun [Hid [Hconv [Hs [Htxt [Hcr [_ Hdb]]]]]]]]]].
  rewrite Hrun. exists m, w'. split; [reflexivity|].
  repeat (split; [assumption|]).
  eexists. split.
  - rewrite Hdb. cbn [update_conversation Messages]. apply in_or_app. right. now left.
  - repeat split.
Qed.

Lemma post_by_non_participant_witness :
  exists w',
    post MoreSamples.post_as_bob Samples.world
    = (Ok {| status := 403;
             json := JsonError NOT_AUTHORIZED_TO_SEND [] |}, w')
    /\ db w' = db Samples.world.
Proof.
  apply (post_by_non_participant MoreSamples.post_as_bob (js "c1") (js "hello") 42
           Samples.world);
    [reflexivity | reflexivity | reflexivity | reflexivity | reflexivity | reflexivity
    | vm_compute; reflexivity].
Defined.

Lemma post_by_participant_witness :
  exists m w',
    post MoreSamples.post_as_alice Samples.world
    = (Ok {| status := 201; json := JsonMessage m |},
       w')
    /\ id m = uuid_of_bytes (map (entropy Samples.world)
                               (seq (entropy_pos Samples.world) 16))
    /\ conversationId m = js "c1"
    /\ senderId m = RequestIdentity.senderId MoreSamples.post_as_alice
    /\ text m = js "hello" /\ createdAt m = 42
    /\ exists row, In row (Messages (db w'))
                   /\ M_Id row = uuid_of_bytes (map (entropy Samples.world)
                                                  (seq (entropy_pos Samples.world) 16))
                   /\ M_SenderId row = RequestIdentity.senderId MoreSamples.post_as_alice
                   /\ M_ConversationId row = js "c1".
Proof.
  apply (post_by_participant MoreSamples.post_as_alice (js "c1") (js "hello") 42
           Samples.world);
    [reflexivity | reflexivity | reflexivity | reflexivity | reflexivity | reflexivity
    | vm_compute; reflexivity | vm_compute; reflexivity | vm_compute; reflexivity].
Defined.

End PostFacts.

(** ** GET /conversations/:conversationId/messages *)

Module GetFacts.
Import BufferFacts EncryptionFacts ServiceFacts MessagesRouteGet.

Lemma get_run (req : Request) (w : World) :
  get req w
  = match getMessages (params_conversationId req) (RequestIdentity.userId req)
            (RequestIdentity.queryParams req) w with
    | (Ok result, w') =>
        (Ok {| status := 200;
               json := JsonMessages (data result) (hasMore result) (total result) |}, w')
    | (Throw e, w') =>
        if is_not_authorized e
        then (Ok {| status := 403; json := JsonError (message e) |}, w')
        else (Ok {| status := 500; json := JsonError (js "Internal server error") |}, w')
    end.
Proof.
  unfold get, try_catch. unfold bind at 1.
  change (match MessagesRoute.nullish (user_id req)
                  (MessagesRoute.nullish (query_userId (query req)) (x_user_id req)) with
          | Some s => s
          | None => js "user-123"
          end) with (RequestIdentity.userId req).
  change {| limit := match query_limit (query req) with
                     | Some s => if truthy s then parseInt s else Some 50
                     | None => Some 50
                     end;
            offset := match query_offset (query req) with
                      | Some s => if truthy s then parseInt s else Some 0
                      | None => Some 0
                      end;
            before := query_before (query req);
            after := query_after (query req) |}
    with (RequestIdentity.queryParams req).
  destruct (getMessages _ _ _ w) as [[result|e] w']; [reflexivity|].
  destruct (is_not_authorized e); reflexivity.
Qed.

Lemma select_page_cases (d : Database) (c : jsstring) (b : Boundary) (off lim : Z) :
  match select_page d c b off lim with
  | Ok rows =>
      (0 <= off <= 2147483647 /\ 1 <= lim <= 2147483647)
      /\ rows = firstn (Z.to_nat lim) (skipn (Z.to_nat off) (visible_rows d c b))
  | Throw e =>
      ~ (0 <= off <= 2147483647 /\ 1 <= lim <= 2147483647)
      /\ is_not_authorized e = false
  end.
Proof.
  unfold select_page, sql_int.
  destruct ((-2147483648 <=? off) && (off <=? 2147483647)) eqn:E1; cbn [negb].
  2:{ split; [lia | vm_compute; reflexivity]. }
  destruct ((-2147483648 <=? lim) && (lim <=? 2147483647)) eqn:E2; cbn [negb].
  2:{ split; [lia | vm_compute; reflexivity]. }
  destruct (off <? 0) eqn:E3.
  { split; [lia | vm_compute; reflexivity]. }
  destruct (lim <? 1) eqn:E4.
  { split; [lia | vm_compute; reflexivity]. }
  split; [lia | reflexivity].
Qed.

(** X15. GET /conversations/:conversationId/messages answers every
    request and never writes.  The status is 403 exactly when the
    resolved user ([req.user.id] if the middleware has set it, else
    [userId] of the query, else the X-User-Id header, else "user-123") is
    no active participant; otherwise 200 when the parsed offset is within
    0 .. 2147483647 and the parsed limit is positive, and 500 if not.  A
    200 carries the page of [getMessages], at most 100 messages. *)
Theorem get_outcome (req : Request) (w : World) :
  let c := params_conversationId req in
  let u := RequestIdentity.userId req in
  let params := RequestIdentity.queryParams req in
  let off := number_or (offset params) 0 in
  let lim := number_or (limit params) 50 in
  exists r w',
    get req w = (Ok r, w')
    /\ db w' = db w
    /\ status r
       = (if negb (is_active_participant (db w) c u) then 403
          else if (0 <=? off) && (off <=? 2147483647) && (0 <? lim) then 200
          else 500)
    /\ (status r = 403 -> json r = JsonError NOT_AUTHORIZED_TO_VIEW)
    /\ (status r = 200 ->
        exists page,
          fst (getMessages c u params w) = Ok page
          /\ json r = JsonMessages (data page) (hasMore page) (total page)
          /\ Z.of_nat (length (data page)) <= 100).
Proof.
  intros c u params off lim. rewrite get_run. fold c u params.
  destruct (is_active_participant (db w) c u) eqn:Hauth; cbn [negb].
  - rewrite (getMessages_authorized c u params w Hauth). fold off lim.
    pose proof (select_page_cases (db w) c (boundary_of (db w) params) off
                  (Z.min lim 100)) as Hsel.
    assert (Hlim : lim <> 0).
    { unfold lim, number_or. destruct (limit params) as [v|]; [|lia].
      destruct (v =? 0) eqn:E; [lia|]. apply Z.eqb_neq in E. exact E. }
    destruct (select_page (db w) c (boundary_of (db w) params) off (Z.min lim 100))
      as [rows|e].
    + destruct Hsel as [Hv ->].
      replace ((0 <=? off) && (off <=? 2147483647) && (0 <? lim)) with true by lia.
      do 2 eexists. split; [reflexivity|]. cbn [status json db add_event].
      split; [reflexivity|]. split; [reflexivity|].
      split; [intros H; discriminate H|].
      intros _. eexists. split; [reflexivity|]. cbn [data hasMore total fst].
      split; [reflexivity|].
      rewrite length_map, length_firstn. lia.
    + destruct Hsel as [Hv Hna]. rewrite Hna.
      replace ((0 <=? off) && (off <=? 2147483647) && (0 <? lim)) with false by lia.
      do 2 eexists. split; [reflexivity|]. cbn [status json db add_event].
      split; [reflexivity|]. split; [reflexivity|].
      split; intros H; discriminate H.
  - rewrite (getMessages_unauthorized c u params w Hauth).
    rewrite not_authorized_to_view.
    do 2 eexists. split; [reflexivity|]. cbn [status json db add_event message].
    split; [reflexivity|]. split; [reflexivity|].
    split; [reflexivity|]. intros H; discriminate H.
Qed.

End GetFacts.

(** ** The messages router behind [optionalAuth] *)

Module AuthFacts.
Import BufferFacts EncryptionFacts ServiceFacts Auth.

Section Jwt.
Variable jwt_verify : jsstring -> jsstring -> Result Decoded.

Lemma optionalAuth_run (authorization : option jsstring) (w : World) :
  optionalAuth jwt_verify authorization w
  = (Ok match token_of authorization with
        | Some token =>
            if truthy token then
              match jwt_verify token (jwt_secret w) with
              | Ok decoded =>
                  Some {| id := userId decoded; user_username := username decoded |}
              | Throw _ =>
                  if development w
                  then Some {| id := Some (js "user-123"); user_username := None |}
                  else None
              end
            else if development w
                 then Some {| id := Some (js "user-123"); user_username := None |}
                 else None
        | None => if development w
                  then Some {| id := Some (js "user-123"); user_username := None |}
                  else None
        end, w).
Proof.
  unfold optionalAuth, development, jwt_secret, bind, getenv, ret.
  destruct (token_of authorization) as [token|].
  - destruct (truthy token).
    + destruct (jwt_verify token _) as [decoded|e]; [reflexivity|].
      destruct (env w "NODE_ENV"%string) as [s|]; [|reflexivity].
      destruct (str_eqb s (js "development")); reflexivity.
    + destruct (env w "NODE_ENV"%string) as [s|]; [|reflexivity].
      destruct (str_eqb s (js "development")); reflexivity.
  - destruct (env w "NODE_ENV"%string) as [s|]; [|reflexivity].
    destruct (str_eqb s (js "development")); reflexivity.
Qed.

(** X19. Who an anonymous request acts for: behind [optionalAuth], a
    request with no token, or with one that [jwt.verify] refuses, is
    handled in development mode (NODE_ENV=development) as "user-123",
    whatever the body, the query and the X-User-Id header say; outside
    development mode [req.user] stays unset and the request acts for
    whoever the body's [senderId] (for GET: the query's [userId]) names,
    else for the X-User-Id header, else for "user-123". *)
Theorem anonymous_request_identity (authorization x_user_id : option jsstring)
    (body : MessagesRoute.Body) (conversationId : jsstring)
    (query : MessagesRouteGet.Query) (w : World) :
  (match token_of authorization with
   | Some token =>
       truthy token = false
       \/ exists e, jwt_verify token (jwt_secret w) = Throw e
   | None => True
   end) ->
  let anonymous := if development w then Some (js "user-123") else None in
  let post_request :=
    {| MessagesRoute.user_id := anonymous;
       MessagesRoute.x_user_id := x_user_id;
       MessagesRoute.body := body |} in
  let get_request :=
    {| MessagesRouteGet.user_id := anonymous;
       MessagesRouteGet.x_user_id := x_user_id;
       MessagesRouteGet.params_conversationId := conversationId;
       MessagesRouteGet.query := query |} in
  router_post jwt_verify authorization x_user_id body w = MessagesRoute.post post_request w
  /\ router_get jwt_verify authorization x_user_id conversationId query w
     = MessagesRouteGet.get get_request w
  /\ RequestIdentity.senderId post_request
     = (if development w then js "user-123"
        else match MessagesRoute.body_senderId body, x_user_id with
             | Some s, _ => s
             | None, Some s => s
             | None, None => js "user-123"
             end)
  /\ RequestIdentity.userId get_request
     = (if development w then js "user-123"
        else match MessagesRouteGet.query_userId query, x_user_id with
             | Some s, _ => s
             | None, Some s => s
             | None, None => js "user-123"
             end).
Proof.
  intros Htoken anonymous post_request get_request.
  assert (Hauth : optionalAuth jwt_verify authorization w
                  = (Ok (if development w
                         then Some {| id := Some (js "user-123"); user_username := None |}
                         else None), w)).
  { rewrite optionalAuth_run.
    destruct (token_of authorization) as [token|]; [|reflexivity].
    destruct Htoken as [Ht|[e He]]; [now rewrite Ht|].
    rewrite He. now destruct (truthy token). }
  assert (Hid : match (if development w
                       then Some {| id := Some (js "user-123"); user_username := None |}
                       else None) with
                | Some u => id u
                | None => None
                end = anonymous)
    by (unfold anonymous; now destruct (development w)).
  split; [|split; [|split]].
  - unfold router_post. unfold bind at 1. rewrite Hauth, Hid. reflexivity.
  - unfold router_get. unfold bind at 1. rewrite Hauth, Hid. reflexivity.
  - unfold RequestIdentity.senderId, post_request, anonymous.
    cbn [MessagesRoute.user_id MessagesRoute.x_user_id MessagesRoute.body].
    destruct (development w); [reflexivity|]. cbn [MessagesRoute.nullish].
    destruct (MessagesRoute.body_senderId body), x_user_id; reflexivity.
  - unfold RequestIdentity.userId, get_request, anonymous.
    cbn [MessagesRouteGet.user_id MessagesRouteGet.x_user_id MessagesRouteGet.query].
    destruct (development w); [reflexivity|]. cbn [MessagesRoute.nullish].
    destruct (MessagesRouteGet.query_userId query), x_user_id; reflexivity.
Qed.

(** With a token that verifies and carries a [userId], the request acts
    for that user. *)
Lemma verified_request_identity (authorization x_user_id : option jsstring)
    (body : MessagesRoute.Body) (token u : jsstring) (decoded : Decoded) (w : World) :
  token_of authorization = Some token -> truthy token = true ->
  jwt_verify token (jwt_secret w) = Ok decoded ->
  userId decoded = Some u ->
  let post_request :=
    {| MessagesRoute.user_id := Some u;
       MessagesRoute.x_user_id := x_user_id;
       MessagesRoute.body := body |} in
  router_post jwt_verify authorization x_user_id body w = MessagesRoute.post post_request w
  /\ RequestIdentity.senderId post_request = u.
Proof.
  intros Htok Ht Hv Hu post_request.
  split; [|reflexivity].
  unfold router_post. unfold bind at 1.
  rewrite optionalAuth_run, Htok, Ht, Hv. cbn [id]. rewrite Hu. reflexivity.
Qed.

End Jwt.

Lemma anonymous_request_identity_witness :
  let anonymous :=
    if development MoreSamples.world_in_development then Some (js "user-123") else None in
  let post_request :=
    {| MessagesRoute.user_id := anonymous;
       MessagesRoute.x_user_id := Some (js "bob");
       MessagesRoute.body := MessagesRoute.body MoreSamples.post_as_alice |} in
  let get_request :=
    {| MessagesRouteGet.user_id := anonymous;
       MessagesRouteGet.x_user_id := Some (js "bob");
       MessagesRouteGet.params_conversationId := js "c1";
       MessagesRouteGet.query :=
         {| MessagesRouteGet.query_userId := Some (js "alice");
            MessagesRouteGet.query_limit := None;
            MessagesRouteGet.query_offset := None;
            MessagesRouteGet.query_before := None;
            MessagesRouteGet.query_after := None |} |} in
  router_post MoreSamples.jwt_reject (Some (js "Bearer abc")) (Some (js "bob"))
    (MessagesRoute.body MoreSamples.post_as_alice) MoreSamples.world_in_development
  = MessagesRoute.post post_request MoreSamples.world_in_development
  /\ router_get MoreSamples.jwt_reject (Some (js "Bearer abc")) (Some (js "bob")) (js "c1")
       {| MessagesRouteGet.query_userId := Some (js "alice");
          MessagesRouteGet.query_limit := None;
          MessagesRouteGet.query_offset := None;
          MessagesRouteGet.query_before := None;
          MessagesRouteGet.query_after := None |} MoreSamples.world_in_development
     = MessagesRouteGet.get get_request MoreSamples.world_in_development
  /\ RequestIdentity.senderId post_request
     = (if development MoreSamples.world_in_development then js "user-123"
        else match MessagesRoute.body_senderId (MessagesRoute.body MoreSamples.post_as_alice),
                   Some (js "bob") with
             | Some s, _ => s
             | None, Some s => s
             | None, None => js "user-123"
             end)
  /\ RequestIdentity.userId get_request
     = (if development MoreSamples.world_in_development then js "user-123"
        else match Some (js "alice"), Some (js "bob") with
             | Some s, _ => s
             | None, Some s => s
             | None, None => js "user-123"
             end).
Proof.
  apply (anonymous_request_identity MoreSamples.jwt_reject (Some (js "Bearer abc"))
           (Some (js "bob")) (MessagesRoute.body MoreSamples.post_as_alice) (js "c1")
           {| MessagesRouteGet.query_userId := Some (js "alice");
              MessagesRouteGet.query_limit := None;
              MessagesRouteGet.query_offset := None;
              MessagesRouteGet.query_before := None;
              MessagesRouteGet.query_after := None |}
           MoreSamples.world_in_development).
  right. eexists. reflexivity.
Defined.

Example token_of_samples :
  token_of (Some (js "Bearer abc")) = Some (js "abc")
  /\ token_of (Some (js "abc")) = None
  /\ token_of (Some (js "Bearer  abc")) = Some []
  /\ token_of (Some (js "Bearer abc def")) = Some (js "abc")
  /\ token_of (Some []) = Some []
  /\ token_of None = None.
Proof. vm_compute. repeat split; reflexivity. Qed.

Example development_sample :
  development MoreSamples.world_in_development = true
  /\ development Samples.world = false
  /\ RequestIdentity.senderId
       {| MessagesRoute.user_id := Some (js "user-123");
          MessagesRoute.x_user_id := Some (js "bob");
          MessagesRoute.body := MessagesRoute.body MoreSamples.post_as_alice |}
     = js "user-123".
Proof. vm_compute. repeat split; reflexivity. Qed.

End AuthFacts.

(** ** The message list of the panel *)

Module PanelFacts.
Import BufferFacts SortingFacts MessagingPanel ReconciliationSpec PanelInvariants.
Import ClientFacts.

Lemma StronglySorted_filter {A : Type} (R : A -> A -> Prop) (f : A -> bool) (l : list A) :
  StronglySorted R l -> StronglySorted R (filter f l).
Proof.
  induction 1 as [|x l Hs IH Hx]; cbn [filter]; [constructor|].
  destruct (f x); [|exact IH]. constructor; [exact IH|].
  rewrite Forall_forall in *. intros y Hy. apply Hx.
  apply filter_In in Hy. tauto.
Qed.

Section SortBy.
Context {A : Type} (key : A -> Z).

Lemma insert_by_least (x : A) (l : list A) :
  Forall (fun y => key x <= key y) l -> insert_by key x l = x :: l.
Proof.
  intros H. destruct l as [|y l]; [reflexivity|].
  cbn [insert_by]. inversion H; subst.
  destruct (key x <=? key y) eqn:E; [reflexivity|]. apply Z.leb_gt in E. lia.
Qed.

Lemma sort_by_sorted_id (l : list A) :
  StronglySorted (fun a b => key a <= key b) l -> sort_by key l = l.
Proof.
  induction 1 as [|x l Hs IH Hx]; [reflexivity|].
  unfold sort_by in *. cbn [fold_right]. rewrite IH. now apply insert_by_least.
Qed.

Lemma filter_insert_by (f : A -> bool) (x : A) (l : list A) :
  StronglySorted (fun a b => key a <= key b) l ->
  filter f (insert_by key x l)
  = if f x then insert_by key x (filter f l) else filter f l.
Proof.
  induction 1 as [|y l Hs IH Hy].
  - cbn [insert_by filter]. now destruct (f x).
  - cbn [insert_by]. destruct (key x <=? key y) eqn:E.
    + apply Z.leb_le in E. cbn [filter].
      destruct (f x); [|reflexivity].
      symmetry. apply insert_by_least.
      destruct (f y).
      * constructor; [exact E|]. rewrite Forall_forall in *.
        intros z Hz. apply filter_In in Hz. specialize (Hy z (proj1 Hz)). lia.
      * rewrite Forall_forall in *.
        intros z Hz. apply filter_In in Hz. specialize (Hy z (proj1 Hz)). lia.
    + cbn [filter]. rewrite IH. destruct (f y), (f x); try reflexivity.
      cbn [insert_by]. now rewrite E.
Qed.

Lemma filter_sort_by (f : A -> bool) (l : list A) :
  filter f (sort_by key l) = sort_by key (filter f l).
Proof.
  induction l as [|x l IH]; [reflexivity|].
  change (sort_by key (x :: l)) with (insert_by key x (sort_by key l)).
  rewrite filter_insert_by by apply sort_by_sorted.
  cbn [filter]. destruct (f x); [|exact IH].
  change (sort_by key (x :: filter f l)) with (insert_by key x (sort_by key (filter f l))).
  now rewrite IH.
Qed.

End SortBy.

Lemma count_id_zero (x : jsstring) (l : list Message) :
  count_id x l = 0%nat <-> ~ In x (map id l).
Proof.
  unfold count_id. induction l as [|m l IH]; cbn [filter map In length]; [tauto|].
  destruct (str_eqb (id m) x) eqn:E.
  - apply str_eqb_eq in E. cbn [length]. split; [lia | tauto].
  - apply str_eqb_neq in E. tauto.
Qed.

Lemma unique_ids_perm (l l' : list Message) :
  Permutation l l' -> unique_ids l -> unique_ids l'.
Proof.
  unfold unique_ids. intros Hp. apply Permutation_NoDup. now apply Permutation_map.
Qed.

Lemma unique_ids_snoc (l : list Message) (m : Message) :
  unique_ids l -> count_id (id m) l = 0%nat -> unique_ids (l ++ [m]).
Proof.
  unfold unique_ids. intros Hl Hm. apply count_id_zero in Hm.
  rewrite map_app. cbn [map]. apply NoDup_app; [exact Hl | repeat constructor; intros [] |].
  intros k Hk [<-|[]]. contradiction.
Qed.

Lemma unique_ids_filter (f : Message -> bool) (l : list Message) :
  unique_ids l -> unique_ids (filter f l).
Proof.
  unfold unique_ids. induction l as [|m l IH]; cbn [filter map]; [auto|].
  intros H. inversion H as [|? ? Hnotin Hnd]; subst.
  destruct (f m); [|now apply IH].
  cbn [map]. constructor; [|now apply IH].
  intros Hin. apply Hnotin. apply in_map_iff in Hin. destruct Hin as [y [Hy Hin]].
  apply filter_In in Hin. rewrite <- Hy. apply in_map. tauto.
Qed.

Lemma unique_ids_replace (tempId : jsstring) (created : Message) (l : list Message) :
  unique_ids l ->
  id created = tempId \/ count_id (id created) l = 0%nat ->
  unique_ids (map (fun msg => if str_eqb (id msg) tempId then created else msg) l).
Proof.
  unfold unique_ids. induction l as [|m l IH]; cbn [map]; [constructor|].
  intros Hnd Hc. inversion Hnd as [|? ? Hnotin Hnd']; subst.
  destruct (str_eqb (id m) tempId) eqn:E.
  - apply str_eqb_eq in E.
    assert (Hl : count_id tempId l = 0%nat) by (apply count_id_zero; now rewrite <- E).
    rewrite (replace_absent _ _ _ Hl). constructor; [|exact Hnd'].
    destruct Hc as [Hc|Hc].
    + rewrite Hc. now apply count_id_zero.
    + apply count_id_zero in Hc. cbn [map In] in Hc. tauto.
  - apply str_eqb_neq in E.
    assert (Hc' : id created = tempId \/ count_id (id created) l = 0%nat).
    { destruct Hc as [Hc|Hc]; [now left|]. right.
      apply count_id_zero in Hc. apply count_id_zero. cbn [map In] in Hc. tauto. }
    constructor; [|now apply IH].
    intros Hin. apply in_map_iff in Hin. destruct Hin as [y [Hy Hin]].
    apply in_map_iff in Hin. destruct Hin as [z [Hz Hin]].
    destruct (str_eqb (id z) tempId) eqn:Ez.
    + subst y. destruct Hc as [Hc|Hc]; [congruence|].
      apply count_id_zero in Hc. cbn [map In] in Hc. apply Hc. now left.
    + subst y. apply Hnotin. rewrite <- Hy. now apply in_map.
Qed.

(** X16. The message list of the panel stays in chronological order and
    free of duplicate ids under every update: a polled message, an
    optimistic insert under a fresh temporary id, the replacement of the
    optimistic entry by the server's message (whose id is the temporary
    one or fresh), and the removal after a failed send. *)
Theorem panel_keeps_order_and_ids (prev : list Message) :
  chronological prev ->
  unique_ids prev ->
  (forall msg,
      chronological (onNewMessage msg prev) /\ unique_ids (onNewMessage msg prev))
  /\ (forall tempId c u txt t,
         count_id tempId prev = 0%nat ->
         chronological (addOptimistic tempId c u txt t prev)
         /\ unique_ids (addOptimistic tempId c u txt t prev))
  /\ (forall tempId created,
         id created = tempId \/ count_id (id created) prev = 0%nat ->
         chronological (confirmSend tempId (Some created) prev)
         /\ unique_ids (confirmSend tempId (Some created) prev))
  /\ (forall tempId,
         chronological (removeOptimistic tempId prev)
         /\ unique_ids (removeOptimistic tempId prev)).
Proof.
  intros Hs Hu. repeat split.
  - unfold onNewMessage.
    match goal with |- context [if ?b then _ else _] => destruct b end; [exact Hs|].
    match goal with |- context [if ?b then _ else _] => destruct b end; [exact Hs|].
    apply sort_by_sorted.
  - unfold onNewMessage.
    destruct (existsb (fun m => str_eqb (id m) (id msg)) prev) eqn:E; [exact Hu|].
    match goal with |- context [if ?b then _ else _] => destruct b end; [exact Hu|].
    apply (unique_ids_perm (prev ++ [msg])).
    + symmetry. apply sort_by_perm.
    + apply unique_ids_snoc; [exact Hu|].
      destruct (count_id (id msg) prev) eqn:Hc; [reflexivity|].
      assert (Hpos : (0 < count_id (id msg) prev)%nat) by lia.
      apply count_id_positive in Hpos. congruence.
  - apply sort_by_sorted.
  - unfold addOptimistic.
    eapply unique_ids_perm; [symmetry; apply sort_by_perm|].
    apply unique_ids_snoc; [exact Hu|]. cbn [id]. assumption.
  - unfold confirmSend. destruct (truthy (id created)); [apply sort_by_sorted | exact Hs].
  - unfold confirmSend. destruct (truthy (id created)); [|exact Hu].
    eapply unique_ids_perm; [symmetry; apply sort_by_perm|].
    apply unique_ids_replace; [exact Hu | assumption].
  - unfold removeOptimistic, chronological. apply StronglySorted_filter. exact Hs.
  - unfold removeOptimistic. apply unique_ids_filter. exact Hu.
Qed.

Lemma sample_list_chronological : chronological [other; server_hi].
Proof.
  repeat constructor. vm_compute. discriminate.
Qed.

Lemma sample_list_unique : unique_ids [other; server_hi].
Proof.
  unfold unique_ids. vm_compute.
  constructor; [intros [H|[]]; discriminate H|].
  constructor; [intros []|constructor].
Qed.

Lemma panel_keeps_order_and_ids_witness :
  (forall msg,
      chronological (onNewMessage msg [other; server_hi])
      /\ unique_ids (onNewMessage msg [other; server_hi]))
  /\ (forall tempId c u txt t,
         count_id tempId [other; server_hi] = 0%nat ->
         chronological (addOptimistic tempId c u txt t [other; server_hi])
         /\ unique_ids (addOptimistic tempId c u txt t [other; server_hi]))
  /\ (forall tempId created,
         id created = tempId \/ count_id (id created) [other; server_hi] = 0%nat ->
         chronological (confirmSend tempId (Some created) [other; server_hi])
         /\ unique_ids (confirmSend tempId (Some created) [other; server_hi]))
  /\ (forall tempId,
         chronological (removeOptimistic tempId [other; server_hi])
         /\ unique_ids (removeOptimistic tempId [other; server_hi])).
Proof.
  apply (panel_keeps_order_and_ids [other; server_hi]);
    [exact sample_list_chronological | exact sample_list_unique].
Defined.

(** X17. A failed send leaves no trace: removing the optimistic entry
    gives back the list as it was before the send, and a message that
    polling added in between is kept, the list being what the poll alone
    would have made of the original one. *)
Theorem failed_send_restores_list (tempId c u txt : jsstring) (t : Z)
    (prev : list Message) :
  chronological prev ->
  count_id tempId prev = 0%nat ->
  let pending := addOptimistic tempId c u txt t prev in
  removeOptimistic tempId pending = prev
  /\ (forall msg,
         ~ rejected msg pending ->
         removeOptimistic tempId (onNewMessage msg pending) = onNewMessage msg prev).
Proof.
  intros Hs Hfresh pending.
  assert (Hkeep : filter (fun msg => negb (str_eqb (id msg) tempId)) prev = prev).
  { apply ServiceFacts.filter_all. intros x Hx.
    apply negb_true_iff, str_eqb_neq. intros Heq.
    apply count_id_zero in Hfresh. apply Hfresh. rewrite <- Heq. now apply in_map. }
  assert (Hone : removeOptimistic tempId pending = prev).
  { unfold pending, removeOptimistic, addOptimistic, sort_chronologically.
    rewrite filter_sort_by, filter_app. cbn [filter id]. rewrite str_eqb_refl.
    cbn [negb]. rewrite app_nil_r, Hkeep. now apply sort_by_sorted_id. }
  split; [exact Hone|].
  intros msg Hrej.
  assert (Hin : forall m, In m prev -> In m pending).
  { intros m Hm. unfold pending, addOptimistic, sort_chronologically.
    apply sort_by_In, in_or_app. now left. }
  assert (Hlocal : In {| id := tempId; conversationId := c; senderId := u; text := txt;
                         createdAt := t; senderName := None; senderAvatar := None |}
                      pending).
  { unfold pending, addOptimistic, sort_chronologically.
    apply sort_by_In, in_or_app. right. now left. }
  assert (Hrej' : ~ rejected msg prev).
  { intros [m [Hm Hr]]. apply Hrej. exists m. split; [now apply Hin | exact Hr]. }
  assert (Hid : str_eqb (id msg) tempId = false).
  { apply str_eqb_neq. intros Heq. apply Hrej. eexists. split; [exact Hlocal|].
    left. unfold same_id. cbn [id]. now symmetry. }
  rewrite (onNewMessage_accepted msg pending Hrej), (onNewMessage_accepted msg prev Hrej').
  unfold removeOptimistic in *. unfold sort_chronologically at 1.
  rewrite filter_sort_by, filter_app, Hone. cbn [filter]. rewrite Hid. reflexivity.
Qed.

Lemma failed_send_restores_list_witness :
  let pending :=
    addOptimistic (js "tmp-1") (js "c1") (js "alice") (js "hi") 1000 [other; server_hi] in
  removeOptimistic (js "tmp-1") pending = [other; server_hi]
  /\ (forall msg,
         ~ rejected msg pending ->
         removeOptimistic (js "tmp-1") (onNewMessage msg pending)
         = onNewMessage msg [other; server_hi]).
Proof.
  apply (failed_send_restores_list (js "tmp-1") (js "c1") (js "alice") (js "hi") 1000
           [other; server_hi]);
    [exact sample_list_chronological | vm_compute; reflexivity].
Defined.

Lemma count_id_replaced (tempId : jsstring) (created : Message) (l : list Message) :
  id created <> tempId ->
  count_id tempId
    (map (fun msg => if str_eqb (id msg) tempId then created else msg) l) = 0%nat.
Proof.
  intros Hne. apply count_id_zero. intros Hin.
  apply in_map_iff in Hin. destruct Hin as [y [Hy Hin]].
  apply in_map_iff in Hin. destruct Hin as [z [Hz Hin]].
  destruct (str_eqb (id z) tempId) eqn:E; subst y; [contradiction|].
  apply str_eqb_neq in E. contradiction.
Qed.

(** X18. When the poll overtakes the reply: if polling delivers the
    server's copy of a pending message (same conversation, sender and
    text, created within 5000 ms) before the send has resolved, the copy
    is dropped; once the reply replaces the optimistic entry the list
    holds exactly one entry under the server's id, none under the
    temporary id, one entry more than before the send, and later polls
    keep it so. *)
Theorem poll_before_confirmation (tempId c u txt : jsstring) (t : Z) (server : Message)
    (prev : list Message) :
  count_id tempId prev = 0%nat ->
  count_id (id server) prev = 0%nat ->
  id server <> [] ->
  conversationId server = c -> senderId server = u -> text server = txt ->
  Z.abs (t - createdAt server) < 5000 ->
  let pending := addOptimistic tempId c u txt t prev in
  let settled := confirmSend tempId (Some server) (onNewMessage server pending) in
  onNewMessage server pending = pending
  /\ count_id (id server) settled = 1%nat
  /\ (id server <> tempId -> count_id tempId settled = 0%nat)
  /\ length settled = S (length prev)
  /\ (forall polls,
         count_id (id server)
           (fold_left (fun s m => onNewMessage m s) polls settled) = 1%nat).
Proof.
  intros Htemp Hsrv Hne Hc Hu Htxt Hd pending settled.
  assert (Hrej : onNewMessage server pending = pending).
  { apply onNewMessage_rejected.
    exists {| id := tempId; conversationId := c; senderId := u; text := txt;
              createdAt := t; senderName := None; senderAvatar := None |}.
    split.
    - unfold pending, addOptimistic, sort_chronologically.
      apply sort_by_In, in_or_app. right. now left.
    - right. unfold near_duplicate. cbn [conversationId senderId text createdAt].
      auto. }
  assert (Hone : count_id (id server) settled = 1%nat).
  { unfold settled. rewrite Hrej.
    apply optimistic_then_confirmed; assumption. }
  split; [exact Hrej|]. split; [exact Hone|].
  split.
  { intros Hneq. unfold settled, confirmSend. rewrite Hrej.
    destruct (id server) as [|ch rest] eqn:Eid; [contradiction|]. cbn [truthy].
    rewrite count_id_sort. apply count_id_replaced. now rewrite Eid. }
  split.
  { unfold settled, confirmSend. rewrite Hrej.
    destruct (id server) as [|ch rest] eqn:Eid; [contradiction|]. cbn [truthy].
    unfold sort_chronologically, pending, addOptimistic, sort_chronologically.
    rewrite sort_by_length, length_map, sort_by_length, length_app. cbn [length]. lia. }
  intros polls. rewrite polls_count_id; [exact Hone | lia].
Qed.

Lemma poll_before_confirmation_witness :
  let pending := addOptimistic (js "tmp-1") (js "c1") (js "alice") (js "hi") 1000 [other] in
  let settled := confirmSend (js "tmp-1") (Some server_hi) (onNewMessage server_hi pending) in
  onNewMessage server_hi pending = pending
  /\ count_id (id server_hi) settled = 1%nat
  /\ (id server_hi <> js "tmp-1" -> count_id (js "tmp-1") settled = 0%nat)
  /\ length settled = S (length [other])
  /\ (forall polls,
         count_id (id server_hi)
           (fold_left (fun s m => onNewMessage m s) polls settled) = 1%nat).
Proof.
  apply (poll_before_confirmation (js "tmp-1") (js "c1") (js "alice") (js "hi") 1000
           server_hi [other]);
    [vm_compute; reflexivity | vm_compute; reflexivity | vm_compute; discriminate
    | reflexivity | reflexivity | reflexivity | vm_compute; reflexivity].
Defined.

End PanelFacts.

(** ** Sample runs of the request handlers' helpers *)

Module HandlerSamples.

Example parseInt_samples :
  MessagesRouteGet.parseInt (js "42") = Some 42
  /\ MessagesRouteGet.parseInt (js "  -7px") = Some (-7)
  /\ MessagesRouteGet.parseInt (js "+0x1F") = Some 31
  /\ MessagesRouteGet.parseInt (js "1e3") = Some 1
  /\ MessagesRouteGet.parseInt (js "0") = Some 0
  /\ MessagesRouteGet.parseInt (js "abc") = None
  /\ MessagesRouteGet.parseInt (js "-") = None
  /\ MessagesRouteGet.parseInt (js "0x") = None
  /\ MessagesRouteGet.parseInt (js "99999999999") = Some 99999999999.
Proof. vm_compute. repeat split; reflexivity. Qed.

(** The decoder reads the low byte of a code unit: U+0141 counts as "A",
    U+013D as the padding character. *)
Example base64_low_byte_samples :
  base64_decode [0x141; 0x141; 0x141; 0x141] = base64_decode (js "AAAA")
  /\ base64_decode [0x141; 0x141; 0x141; 0x141] = [x00; x00; x00]
  /\ base64_decode (js "AAAA" ++ [0x13D] ++ js "AAAA") = [x00; x00; x00]
  /\ base64_decode (js "AA" ++ [0x20AC] ++ js "AA") = [x00; x00; x00].
Proof. vm_compute. repeat split; reflexivity. Qed.

(** The first and the last instant a DateTime2 parameter may carry. *)
Example datetime2_range_samples :
  datetime2_in_range (-62135596800000) = true
  /\ datetime2_in_range (-62135596800001) = false
  /\ datetime2_in_range 253402300799999 = true
  /\ datetime2_in_range 253402300800000 = false.
Proof. vm_compute. repeat split; reflexivity. Qed.

Example identity_samples :
  RequestIdentity.senderId MoreSamples.post_as_bob = js "bob"
  /\ RequestIdentity.senderId MoreSamples.post_as_alice = js "alice".
Proof. split; reflexivity. Qed.

End HandlerSamples.
